(** * export_castle_anim_frames: a shallow embedding of the exporter

    The Blender add-on [export_castle_anim_frames.py] writes a
    castle-anim-frames container: for each animation it walks a frame range,
    and for each sampled frame writes a [<frame>] element carrying a time
    stamp, the scene bounding box and the document produced by the X3D or
    glTF exporter.

    Conventions of the embedding.
    - Python [int] is [Z]; [len] results are [Z].
    - Python [float] is an exact rational ([Q]): no rounding, no NaN, no
      infinities.  Equality of floats ([==]) is [Qeq].
    - [frame_skip] is an [IntProperty] with [min=0]: the host clamps it, so
      it is a natural number ([N]).
    - Blender (bpy, mathutils, bpy_extras), [os.path] and [%f] formatting are
      not part of the add-on: they are the fields of the classes [HostLib]
      (pure functions) and [Host] (operators acting on the host state).
    - Exceptions are values: a computation returns an [outcome] together
      with the state reached, so the state written before a [raise] is kept.
    - [print] calls write to the console only and are left out, as are the
      parts of the add-on that only talk to the user interface ([draw],
      the file selector opened by [invoke], registration). *)

From Equations Require Import Equations.
From Stdlib Require Import ZArith QArith Qminmax List String Ascii Bool Lia Lqa.
From Stdlib Require Import Permutation Sorted.
From Stdlib Require Import Qround.
Import ListNotations.
Open Scope Z_scope.
Open Scope string_scope.

(** ** Python values *)

Record Vec3 : Type := vec3 { vx : Q; vy : Q; vz : Q }.

(** [a < b] on floats. *)
Definition Qltb (a b : Q) : bool :=
  match (a ?= b)%Q with Lt => true | _ => false end.

(** [min(a, b)]: the first argument unless the second is smaller. *)
Definition py_min (a b : Q) : Q := if Qltb b a then b else a.

(** [max(a, b)]: the first argument unless the second is greater. *)
Definition py_max (a b : Q) : Q := if Qltb a b then b else a.

(** [int(x)] on a float: truncation toward zero. *)
Definition py_int (x : Q) : Z := Z.quot (Qnum x) (Z.pos (Qden x)).

(** [len(l)]. *)
Definition len {A} (l : list A) : Z := Z.of_nat (List.length l).

(** [x in l] for object references: identity of the referenced object. *)
Definition mem (x : nat) (l : list nat) : bool := existsb (Nat.eqb x) l.

(** [t in (s1, ..., sn)] for strings. *)
Definition str_in (t : string) (l : list string) : bool :=
  existsb (String.eqb t) l.

(** Characters that a Rocq string literal cannot hold directly. *)
Definition dq : string := String (ascii_of_nat 34) EmptyString.
Definition nl : string := String (ascii_of_nat 10) EmptyString.
Definition tab : string := String (ascii_of_nat 9) EmptyString.

(** Arguments of [Exception(...)]. *)
Inductive pyarg : Type :=
| PStr (s : string)
| PInt (n : Z).

Inductive exn : Type :=
| Exception (args : list pyarg)
| KeyError (key : string)
| AttributeError (attr : string)
| IndexError
| ReferenceError
| FileNotFoundError (path : string)
| HostError (msg : string).

Inductive outcome (A : Type) : Type :=
| Ok (a : A)
| Raise (e : exn).
Arguments Ok {A} a.
Arguments Raise {A} e.

(** ** The operator's properties ([self]) *)

Inductive FrameFormat : Type := GLTF | X3D.

Record Operator : Type := {
  filepath : string;
  frame_skip : N;
  actions_object : string;
  make_duplicates_real : bool;
  frame_format : FrameFormat;
  use_selection : bool;
  use_mesh_modifiers : bool;
  use_triangulate : bool;
  use_normals : bool;
  use_hierarchy : bool;
  name_decorations : bool;
  use_h3d : bool;
  axis_forward : string;
  axis_up : string;
  path_mode : string
}.

(** ** The host: pure library functions *)

Class HostLib : Type := {
  (** what iterating [ob.bound_box] yields *)
  Corner : Type;
  (** [mathutils.Matrix] *)
  Matrix : Type;
  (** state of the host that the add-on never reads *)
  HostData : Type;
  (** [f != n] for an element [f] of a bound box *)
  corner_ne_int : Corner -> Z -> bool;
  (** [Vector(corner)] *)
  Vector : Corner -> Vec3;
  (** [a @ b] on matrices *)
  matmul : Matrix -> Matrix -> Matrix;
  (** [m @ v] *)
  transform : Matrix -> Vec3 -> Vec3;
  (** [axis_conversion(to_forward=f, to_up=u).to_4x4()] *)
  axis_conversion : string -> string -> Matrix;
  (** [os.path.split], [os.path.splitext], [os.path.join] *)
  os_path_split : string -> string * string;
  os_path_splitext : string -> string * string;
  os_path_join : string -> string -> string;
  (** ["%f" % x] *)
  format_f : Q -> string
}.

(** ** The host state *)

Section HostState.
Context {L : HostLib}.

Record Object : Type := {
  ob_id : nat;                             (* identity of the object *)
  ob_name : string;                        (* ob.name *)
  ob_type : string;                        (* ob.type *)
  ob_visible : bool;                       (* ob.visible_get(view_layer) *)
  ob_selected : bool;                      (* ob.select_get(view_layer) *)
  bound_box : list Corner;                 (* ob.bound_box *)
  matrix_world : Matrix;                   (* ob.matrix_world *)
  animation_data : option (option nat)     (* None, or Some of .action *)
}.

Record Action : Type := {
  act_id : nat;                            (* identity of the action *)
  act_name : string;                       (* action.name *)
  frame_range : Q * Q;                     (* action.frame_range *)
  use_fake_user : bool                     (* action.use_fake_user *)
}.

Record Blend : Type := {
  scene_objects : list Object;             (* context.scene.objects *)
  scene_frame_start : Z;                   (* context.scene.frame_start *)
  scene_frame_end : Z;                     (* context.scene.frame_end *)
  data_actions : list Action;              (* bpy.data.actions *)
  files : list (string * string);          (* files on disk: path, text *)
  host_data : HostData
}.

(** What the run owns: the host state, the output file, and the
    attributes the operator sets on itself.  [action_log] records every
    assignment to [animation_data.action] made by the add-on. *)
Record World : Type := {
  blend : Blend;
  output_file : list string;               (* strings written, in order *)
  output_closed : bool;
  old_objects : list nat;                  (* self.old_objects *)
  old_objects_len : Z;                     (* self.old_objects_len *)
  action_log : list (option nat)
}.

End HostState.

(** ** The host: operators *)

Class Host {L : HostLib} : Type := {
  (** [context.scene.frame_set(frame)] *)
  frame_set : Z -> Blend -> outcome unit * Blend;
  (** [bpy.ops.object.select_all(action='SELECT')] *)
  select_all : Blend -> outcome unit * Blend;
  (** [bpy.ops.object.duplicates_make_real()] *)
  duplicates_make_real : Blend -> outcome unit * Blend;
  (** [bpy.ops.object.delete()] *)
  object_delete : Blend -> outcome unit * Blend;
  (** [ob.select_set(state)] *)
  select_set : nat -> bool -> Blend -> outcome unit * Blend;
  (** [bpy.ops.export_scene.x3d(filepath=..., ...)] *)
  export_scene_x3d : string -> Operator -> Blend -> outcome unit * Blend;
  (** [bpy.ops.export_scene.gltf(filepath=..., ...)] *)
  export_scene_gltf : string -> Operator -> Blend -> outcome unit * Blend;
  (** the material-tag reset of [fix_scene_before_x3d_export] *)
  reset_material_tags : Operator -> Blend -> outcome unit * Blend;
  (** [ob.user_of_id(action)] *)
  user_of_id : Blend -> nat -> Action -> Z
}.

(** ** State and exceptions *)

Section Monad.
Context {L : HostLib}.

Definition M (A : Type) : Type := World -> outcome A * World.

Definition ret {A} (a : A) : M A := fun w => (Ok a, w).

Definition bind {A B} (m : M A) (k : A -> M B) : M B := fun w =>
  match m w with
  | (Ok a, w1) => k a w1
  | (Raise e, w1) => (Raise e, w1)
  end.

Definition raise {A} (e : exn) : M A := fun w => (Raise e, w).

(** [try: body finally: final]: [final] runs on both exits of [body]; an
    exception of [final] replaces the outcome of [body]. *)
Definition try_finally {A} (body : M A) (final : M unit) : M A := fun w =>
  match body w with
  | (r, w1) =>
      match final w1 with
      | (Ok _, w2) => (r, w2)
      | (Raise e, w2) => (Raise e, w2)
      end
  end.

Definition set_blend (w : World) (b : Blend) : World :=
  {| blend := b; output_file := output_file w;
     output_closed := output_closed w; old_objects := old_objects w;
     old_objects_len := old_objects_len w; action_log := action_log w |}.

(** A host operator run from the add-on. *)
Definition host {A} (op : Blend -> outcome A * Blend) : M A := fun w =>
  match op (blend w) with
  | (r, b) => (r, set_blend w b)
  end.

Definition get_blend : M Blend := fun w => (Ok (blend w), w).

(** [output_file.write(s)] *)
Definition write (s : string) : M unit := fun w =>
  (Ok tt,
   {| blend := blend w; output_file := output_file w ++ [s];
      output_closed := output_closed w; old_objects := old_objects w;
      old_objects_len := old_objects_len w; action_log := action_log w |}).

(** [for x in l: body(x)] *)
Fixpoint for_each {A} (l : list A) (body : A -> M unit) : M unit :=
  match l with
  | [] => ret tt
  | x :: rest => bind (body x) (fun _ => for_each rest body)
  end.

End Monad.

Declare Scope py_scope.
Delimit Scope py_scope with py.
Notation "x <- m ;; k" := (bind m (fun x => k))
  (at level 61, m at next level, right associativity) : py_scope.
Notation "m ;; k" := (bind m (fun _ => k))
  (at level 61, right associativity) : py_scope.

(** ** Strings *)

(** [s.startswith(p)] *)
Fixpoint starts_with (p s : string) : bool :=
  match p, s with
  | EmptyString, _ => true
  | String a p', String b s' => Ascii.eqb a b && starts_with p' s'
  | String _ _, EmptyString => false
  end.

(** [s.replace(old, new)] for a non-empty [old]: occurrences are replaced
    from the left and do not overlap.  [skip] counts the characters of a
    match still to be dropped. *)
Fixpoint replace_from (skip : nat) (old new s : string) : string :=
  match s with
  | EmptyString => EmptyString
  | String c s' =>
      match skip with
      | S k => replace_from k old new s'
      | O =>
          if starts_with old s
          then new ++ replace_from (String.length old - 1) old new s'
          else String c (replace_from 0 old new s')
      end
  end.

Definition str_replace (s old new : string) : string :=
  replace_from 0 old new s.

Definition xml_declaration : string :=
  "<?xml version=" ++ dq ++ "1.0" ++ dq ++ " encoding=" ++ dq ++ "UTF-8"
  ++ dq ++ "?>".

Definition x3d_doctype : string :=
  "<!DOCTYPE X3D PUBLIC " ++ dq ++ "ISO//Web3D//DTD X3D 3.0//EN" ++ dq ++ " "
  ++ dq ++ "http://www.web3d.org/specifications/x3d-3.0.dtd" ++ dq ++ ">".

(** ** The bounding box *)

Section BoundingBox.
Context {L : HostLib}.

(** [is_bound_box_empty]: [for f in bound_box: if f != -1: return False]. *)
Fixpoint is_bound_box_empty (bound_box : list Corner) : bool :=
  match bound_box with
  | [] => true
  | f :: rest =>
      if corner_ne_int f (-1) then false else is_bound_box_empty rest
  end.

Definition non_renderable_types : list string :=
  ["ARMATURE"; "LATTICE"; "EMPTY"; "CAMERA"; "LAMP"; "SPEAKER"].

(** The objects the loop of [get_current_bounding_box] runs over. *)
Definition box_candidates (self : Operator) (objects : list Object)
  : list Object :=
  if use_selection self
  then filter (fun obj => ob_visible obj && ob_selected obj) objects
  else filter (fun obj => ob_visible obj) objects.

(** The condition under which the loop body uses an object. *)
Definition contributes (ob : Object) : bool :=
  negb (str_in (ob_type ob) non_renderable_types)
  && negb (is_bound_box_empty (bound_box ob)).

Definition object_box_points (global_matrix : Matrix) (ob : Object)
  : list Vec3 :=
  map (fun corner =>
         transform (matmul global_matrix (matrix_world ob)) (Vector corner))
      (bound_box ob).

(** One round of [for v in object_box_points]. *)
Definition grow_box (box : Vec3 * Vec3) (v : Vec3) : Vec3 * Vec3 :=
  let (object_box_min, object_box_max) := box in
  (vec3 (py_min (vx v) (vx object_box_min))
        (py_min (vy v) (vy object_box_min))
        (py_min (vz v) (vz object_box_min)),
   vec3 (py_max (vx v) (vx object_box_max))
        (py_max (vy v) (vy object_box_max))
        (py_max (vz v) (vz object_box_max))).

(** [object_box_min], [object_box_max] of one object;
    [object_box_points[0]] raises [IndexError] on an empty list. *)
Definition object_box (points : list Vec3) : outcome (Vec3 * Vec3) :=
  match points with
  | [] => Raise IndexError
  | p0 :: _ =>
      let object_box_min := vec3 (vx p0) (vy p0) (vz p0) in
      Ok (fold_left grow_box points (object_box_min, object_box_min))
  end.

Record SceneBox : Type := {
  scene_box_empty : bool;
  scene_box_min : Vec3;
  scene_box_max : Vec3
}.

Definition scene_box_init : SceneBox :=
  {| scene_box_empty := true;
     scene_box_min := vec3 0 0 0;
     scene_box_max := vec3 0 0 0 |}.

(** "update scene_box_min/max/empty" *)
Definition scene_box_update (st : SceneBox) (box : Vec3 * Vec3) : SceneBox :=
  let (object_box_min, object_box_max) := box in
  if scene_box_empty st
  then {| scene_box_empty := false;
          scene_box_min := object_box_min;
          scene_box_max := object_box_max |}
  else {| scene_box_empty := false;
          scene_box_min :=
            vec3 (py_min (vx (scene_box_min st)) (vx object_box_min))
                 (py_min (vy (scene_box_min st)) (vy object_box_min))
                 (py_min (vz (scene_box_min st)) (vz object_box_min));
          scene_box_max :=
            vec3 (py_max (vx (scene_box_max st)) (vx object_box_max))
                 (py_max (vy (scene_box_max st)) (vy object_box_max))
                 (py_max (vz (scene_box_max st)) (vz object_box_max)) |}.

(** The body of [for ob in objects]; an exception ends the loop. *)
Definition scene_box_step (global_matrix : Matrix) (acc : outcome SceneBox)
  (ob : Object) : outcome SceneBox :=
  match acc with
  | Raise e => Raise e
  | Ok st =>
      if contributes ob
      then match object_box (object_box_points global_matrix ob) with
           | Ok box => Ok (scene_box_update st box)
           | Raise e => Raise e
           end
      else Ok st
  end.

(** "calculate scene_box_center/size from scene_box_min/max/empty" *)
Definition center_and_size (st : SceneBox) : Vec3 * Vec3 :=
  if scene_box_empty st
  then (vec3 0 0 0, vec3 (-1) (-1) (-1))
  else (vec3 ((vx (scene_box_min st) + vx (scene_box_max st)) / 2)
             ((vy (scene_box_min st) + vy (scene_box_max st)) / 2)
             ((vz (scene_box_min st) + vz (scene_box_max st)) / 2),
        vec3 (vx (scene_box_max st) - vx (scene_box_min st))
             (vy (scene_box_max st) - vy (scene_box_min st))
             (vz (scene_box_max st) - vz (scene_box_min st)))%Q.

(** [get_current_bounding_box(self, context)], from the objects of the
    scene: the pair (center, size). *)
Definition get_current_bounding_box (self : Operator)
  (objects : list Object) : outcome (Vec3 * Vec3) :=
  let global_matrix := axis_conversion (axis_forward self) (axis_up self) in
  match fold_left (scene_box_step global_matrix)
                  (box_candidates self objects) (Ok scene_box_init) with
  | Ok st => Ok (center_and_size st)
  | Raise e => Raise e
  end.

End BoundingBox.

(** ** The frames of one animation *)

(** The frames on which the [while frame < frame_end] loop of
    [output_one_animation] runs its body, starting from [frame]. *)
Equations? frames_before (skip : N) (frame_end frame : Z) : list Z
  by wf (Z.to_nat (frame_end - frame)) lt :=
  frames_before skip frame_end frame with Z_lt_dec frame frame_end := {
    | left _ =>
        frame :: frames_before skip frame_end (frame + (1 + Z.of_N skip));
    | right _ => [] }.
Proof. destruct skip as [|p]; [|destruct p]; cbn; lia. Qed.

(** The frames [output_one_animation] passes to [output_frame], in order:
    those of the loop, then [frame_end]. *)
Definition Sample (range_start range_end : Z) (skip : N) : list Z :=
  frames_before skip range_end range_start ++ [range_end].

(** ** The exporter *)

Section Exporter.
Context {L : HostLib} {H : Host}.
Local Open Scope py_scope.

Definition read_file (path : string) : M string := fun w =>
  match find (fun entry => String.eqb (fst entry) path) (files (blend w)) with
  | Some entry => (Ok (snd entry), w)
  | None => (Raise (FileNotFoundError path), w)
  end.

Definition set_files (b : Blend) (fs : list (string * string)) : Blend :=
  {| scene_objects := scene_objects b;
     scene_frame_start := scene_frame_start b;
     scene_frame_end := scene_frame_end b;
     data_actions := data_actions b;
     files := fs;
     host_data := host_data b |}.

(** [os.remove(path)] *)
Definition remove_file (path : string) : M unit := fun w =>
  match find (fun entry => String.eqb (fst entry) path) (files (blend w)) with
  | Some _ =>
      (Ok tt,
       set_blend w
         (set_files (blend w)
            (filter (fun entry => negb (String.eqb (fst entry) path))
                    (files (blend w)))))
  | None => (Raise (FileNotFoundError path), w)
  end.

Definition fix_scene_before_x3d_export (self : Operator) : M unit :=
  host (reset_material_tags self).

Definition output_frame_x3d (self : Operator) : M unit :=
  let (output_dir, output_basename) := os_path_split (filepath self) in
  let temp_file_name :=
    os_path_join output_dir
      (fst (os_path_splitext output_basename) ++ "_tmp.x3d") in
  fix_scene_before_x3d_export self ;;
  host (export_scene_x3d temp_file_name self) ;;
  temp_contents <- read_file temp_file_name ;;
  remove_file temp_file_name ;;
  let temp_contents := str_replace temp_contents xml_declaration EmptyString in
  let temp_contents := str_replace temp_contents x3d_doctype EmptyString in
  write temp_contents.

Definition output_frame_gltf (self : Operator) : M unit :=
  let (output_dir, output_basename) := os_path_split (filepath self) in
  let temp_file_name :=
    os_path_join output_dir
      (fst (os_path_splitext output_basename) ++ "_tmp.gltf") in
  host (export_scene_gltf temp_file_name self) ;;
  temp_contents <- read_file temp_file_name ;;
  remove_file temp_file_name ;;
  write temp_contents.

(** *** Make Duplicates Real *)

Definition object_ids (b : Blend) : list nat := map ob_id (scene_objects b).

Definition find_object (ob : nat) (b : Blend) : option Object :=
  find (fun o => Nat.eqb (ob_id o) ob) (scene_objects b).

Definition make_duplicates_real_before : M unit := fun w =>
  let old := object_ids (blend w) in
  (host select_all ;;
   host duplicates_make_real)
    {| blend := blend w; output_file := output_file w;
       output_closed := output_closed w; old_objects := old;
       old_objects_len := len old; action_log := action_log w |}.

(** [ob.select_get()] through a reference kept by the add-on. *)
Definition select_get (ob : nat) : M bool := fun w =>
  match find_object ob (blend w) with
  | Some o => (Ok (ob_selected o), w)
  | None => (Raise ReferenceError, w)
  end.

Definition get_old_objects : M (list nat) := fun w => (Ok (old_objects w), w).
Definition get_old_objects_len : M Z := fun w => (Ok (old_objects_len w), w).

(** The loop [for ob in context.scene.objects] of
    [make_duplicates_real_after]; returns [selected_count]. *)
Fixpoint select_duplicates (objects new_objects : list nat)
  (selected_count : Z) : M Z :=
  match objects with
  | [] => ret selected_count
  | ob :: rest =>
      old <- get_old_objects ;;
      host (select_set ob (mem ob new_objects && negb (mem ob old))) ;;
      selected <- select_get ob ;;
      select_duplicates rest new_objects
        (if selected then selected_count + 1 else selected_count)
  end.

Definition less_objects_error : exn :=
  Exception [PStr "Error: we have less objecs after running duplicates_make_real, submit a bug"].

Definition selection_error : exn :=
  Exception [PStr "Error: we did not select as many as expected, submit a bug"].

Definition final_count_error (old_len new_len final_len : Z) : exn :=
  Exception [PStr "At the end, we do not have as many objects as at the beginning: ";
             PInt old_len; PStr " -> "; PInt new_len; PStr " -> ";
             PInt final_len].

Definition make_duplicates_real_after : M unit :=
  b <- get_blend ;;
  let new_objects := object_ids b in
  let new_objects_len := len new_objects in
  old_len <- get_old_objects_len ;;
  (if (new_objects_len <? old_len)%Z
   then raise less_objects_error
   else ret tt) ;;
  old <- get_old_objects ;;
  let duplicated_objects :=
    filter (fun item => negb (mem item old)) new_objects in
  (if negb (len duplicated_objects =? 0)%Z
   then
     b <- get_blend ;;
     selected_count <- select_duplicates (object_ids b) new_objects 0 ;;
     (if negb (selected_count =? len duplicated_objects)%Z
      then raise selection_error
      else ret tt) ;;
     host object_delete
   else ret tt) ;;
  b <- get_blend ;;
  let final_objects_len := len (object_ids b) in
  old_len <- get_old_objects_len ;;
  if negb (final_objects_len =? old_len)%Z
  then raise (final_count_error old_len new_objects_len final_objects_len)
  else ret tt.

(** *** One frame *)

Definition mime_type (self : Operator) : string :=
  match frame_format self with
  | GLTF => "model/gltf+json"
  | X3D => "model/x3d+vrml"
  end.

(** [(frame-frame_start) / 25.0] *)
Definition frame_time (frame frame_start : Z) : Q :=
  (inject_Z (frame - frame_start) / 25)%Q.

(** The [<frame ...>] line: the format string of [output_frame] with its
    arguments filled in. *)
Definition frame_line (time : Q) (mime : string) (center size : Vec3)
  : string :=
  tab ++ tab ++ "<frame time=" ++ dq ++ format_f time ++ dq
  ++ " mime_type=" ++ dq ++ mime ++ dq
  ++ " bounding_box_center=" ++ dq ++ format_f (vx center) ++ " "
  ++ format_f (vy center) ++ " " ++ format_f (vz center) ++ dq
  ++ " bounding_box_size=" ++ dq ++ format_f (vx size) ++ " "
  ++ format_f (vy size) ++ " " ++ format_f (vz size) ++ dq ++ ">" ++ nl.

Definition frame_close : string := nl ++ tab ++ tab ++ "</frame>" ++ nl.

Definition current_bounding_box (self : Operator) : M (Vec3 * Vec3) :=
  fun w => (get_current_bounding_box self (scene_objects (blend w)), w).

Definition output_frame (self : Operator) (frame frame_start : Z) : M unit :=
  host (frame_set frame) ;;
  (if make_duplicates_real self then make_duplicates_real_before else ret tt) ;;
  box <- current_bounding_box self ;;
  let (bounding_box_center, bounding_box_size) := box in
  write (frame_line (frame_time frame frame_start) (mime_type self)
           bounding_box_center bounding_box_size) ;;
  (match frame_format self with
   | GLTF => output_frame_gltf self
   | X3D => output_frame_x3d self
   end) ;;
  write frame_close ;;
  if make_duplicates_real self then make_duplicates_real_after else ret tt.

(** *** One animation *)

Definition animation_open (animation_name : string) : string :=
  if String.eqb animation_name EmptyString
  then tab ++ "<animation>" ++ nl
  else tab ++ "<animation name=" ++ dq ++ animation_name ++ dq ++ ">" ++ nl.

Definition animation_close : string := tab ++ "</animation>" ++ nl.

(** [while frame < frame_end: output_frame(...); frame += 1 + frame_skip] *)
Equations? frames_loop (self : Operator) (frame_start frame_end frame : Z)
  (w : World) : outcome unit * World
  by wf (Z.to_nat (frame_end - frame)) lt :=
  frames_loop self frame_start frame_end frame w
    with Z_lt_dec frame frame_end := {
    | left _ with output_frame self frame frame_start w := {
        | (Ok _, w1) =>
            frames_loop self frame_start frame_end
              (frame + (1 + Z.of_N (frame_skip self))) w1;
        | (Raise e, w1) => (Raise e, w1) };
    | right _ => (Ok tt, w) }.
Proof. destruct (frame_skip self) as [|p]; [|destruct p]; cbn; lia. Qed.

Definition output_one_animation (self : Operator) (animation_name : string)
  (frame_start frame_end : Z) : M unit :=
  write (animation_open animation_name) ;;
  frames_loop self frame_start frame_end frame_start ;;
  output_frame self frame_end frame_start ;;
  write animation_close.

(** *** The whole export *)

(** [open(self.filepath, 'w')] *)
Definition open_output : M unit := fun w =>
  (Ok tt,
   {| blend := blend w; output_file := []; output_closed := false;
      old_objects := old_objects w; old_objects_len := old_objects_len w;
      action_log := action_log w |}).

(** [output_file.close()] *)
Definition close_output : M unit := fun w =>
  (Ok tt,
   {| blend := blend w; output_file := output_file w; output_closed := true;
      old_objects := old_objects w; old_objects_len := old_objects_len w;
      action_log := action_log w |}).

(** [context.scene.objects[name]]: a reference to the object. *)
Definition lookup_object (name : string) : M nat := fun w =>
  match find (fun o => String.eqb (ob_name o) name)
             (scene_objects (blend w)) with
  | Some o => (Ok (ob_id o), w)
  | None => (Raise (KeyError name), w)
  end.

(** [ob.animation_data.action] *)
Definition get_action (ob : nat) : M (option nat) := fun w =>
  match find_object ob (blend w) with
  | None => (Raise ReferenceError, w)
  | Some o =>
      match animation_data o with
      | None => (Raise (AttributeError "action"), w)
      | Some action => (Ok action, w)
      end
  end.

Definition bind_action (ob : nat) (action : option nat) (o : Object)
  : Object :=
  if Nat.eqb (ob_id o) ob
  then {| ob_id := ob_id o; ob_name := ob_name o; ob_type := ob_type o;
          ob_visible := ob_visible o; ob_selected := ob_selected o;
          bound_box := bound_box o; matrix_world := matrix_world o;
          animation_data := Some action |}
  else o.

(** The object with its selection flag set. *)
Definition set_selected (flag : bool) (o : Object) : Object :=
  {| ob_id := ob_id o; ob_name := ob_name o; ob_type := ob_type o;
     ob_visible := ob_visible o; ob_selected := flag;
     bound_box := bound_box o; matrix_world := matrix_world o;
     animation_data := animation_data o |}.

Definition set_objects (b : Blend) (objects : list Object) : Blend :=
  {| scene_objects := objects;
     scene_frame_start := scene_frame_start b;
     scene_frame_end := scene_frame_end b;
     data_actions := data_actions b;
     files := files b;
     host_data := host_data b |}.

(** [ob.animation_data.action = action] *)
Definition set_action (ob : nat) (action : option nat) : M unit := fun w =>
  match find_object ob (blend w) with
  | None => (Raise ReferenceError, w)
  | Some o =>
      match animation_data o with
      | None => (Raise (AttributeError "action"), w)
      | Some _ =>
          (Ok tt,
           {| blend :=
                set_objects (blend w)
                  (map (bind_action ob action) (scene_objects (blend w)));
              output_file := output_file w;
              output_closed := output_closed w;
              old_objects := old_objects w;
              old_objects_len := old_objects_len w;
              action_log := action_log w ++ [action] |})
      end
  end.

(** The actions gathered by the loop [for action in bpy.data.actions]. *)
Definition actions_to_export (b : Blend) (actions_object_o : nat)
  : list Action :=
  filter (fun action =>
            negb (user_of_id b actions_object_o action =? 0)%Z
            || use_fake_user action)
         (data_actions b).

Definition no_action_error (self : Operator) : exn :=
  Exception [PStr ("No action found on object " ++ dq
                   ++ actions_object self ++ dq)].

(** The body of [for action in actions_to_export]. *)
Definition export_action (self : Operator) (actions_object_o : nat)
  (action : Action) : M unit :=
  let (act_start, act_end) := frame_range action in
  let act_start := py_int act_start in
  let act_end := py_int act_end in
  set_action actions_object_o (Some (act_id action)) ;;
  output_one_animation self (act_name action) act_start act_end.

Definition execute (self : Operator) : M (list string) :=
  open_output ;;
  write ("<?xml version=" ++ dq ++ "1.0" ++ dq ++ "?>" ++ nl) ;;
  write ("<animations>" ++ nl) ;;
  (if negb (String.eqb (actions_object self) EmptyString)
   then
     actions_object_o <- lookup_object (actions_object self) ;;
     b <- get_blend ;;
     let actions := actions_to_export b actions_object_o in
     if (len actions >? 0)%Z
     then
       original_action <- get_action actions_object_o ;;
       try_finally
         (for_each actions (export_action self actions_object_o))
         (set_action actions_object_o original_action)
     else raise (no_action_error self)
   else
     b <- get_blend ;;
     output_one_animation self "animation"
       (scene_frame_start b) (scene_frame_end b)) ;;
  write ("</animations>" ++ nl) ;;
  close_output ;;
  ret ["FINISHED"].

End Exporter.

(** ** A small host to run the exporter on

    Corners are 3D points and, as for any array against an integer,
    [corner != -1] holds; a matrix is a translation; the operators do what
    their names say: [select_all] selects every object,
    [duplicates_make_real] adds [host_data] new selected objects,
    [object_delete] removes the selected objects, and the exporters write a
    short document at the path they are given. *)

Module Simple.

Definition vadd (a b : Vec3) : Vec3 :=
  vec3 (vx a + vx b) (vy a + vy b) (vz a + vz b).

(** Decimal digits of [n], most significant first, on [k] positions. *)
Fixpoint digits (k : nat) (n : Z) : string :=
  match k with
  | O => EmptyString
  | S k' =>
      digits k' (n / 10)
      ++ String (ascii_of_nat (48 + Z.to_nat (n mod 10))) EmptyString
  end.

(** Number of decimal digits of a non-negative [n] (at least one). *)
Definition width (n : Z) : nat := S (Z.to_nat (Z.log2 n) / 3).

Fixpoint strip_zeros (s : string) : string :=
  match s with
  | String c (String _ _ as rest) =>
      if Ascii.eqb c (ascii_of_nat 48) then strip_zeros rest else s
  | _ => s
  end.

(** Six digits after the point, rounding half to even. *)
Definition format6 (x : Q) : string :=
  let n := Z.abs (Qnum x) * 1000000 in
  let d := Z.pos (Qden x) in
  let q := n / d in
  let r := n mod d in
  let q := if ((d <? 2 * r) || ((d =? 2 * r) && Z.odd q))%Z
           then q + 1 else q in
  (if (Qnum x <? 0)%Z then "-" else EmptyString)
  ++ strip_zeros (digits (width (q / 1000000)) (q / 1000000))
  ++ "." ++ digits 6 (q mod 1000000).

#[export] Instance lib : HostLib := {|
  Corner := Vec3;
  Matrix := Vec3;
  HostData := nat;
  corner_ne_int := fun _ _ => true;
  Vector := fun corner => corner;
  matmul := vadd;
  transform := fun m v => vadd v m;
  axis_conversion := fun _ _ => vec3 0 0 0;
  os_path_split := fun path => (EmptyString, path);
  os_path_splitext := fun path => (path, EmptyString);
  os_path_join := fun dir file => dir ++ file;
  format_f := format6
|}.

Definition unit_cube : list Vec3 :=
  [vec3 (-1) (-1) (-1); vec3 (-1) (-1) 1; vec3 (-1) 1 1; vec3 (-1) 1 (-1);
   vec3 1 (-1) (-1); vec3 1 (-1) 1; vec3 1 1 1; vec3 1 1 (-1)].

Definition mesh (id : nat) (name : string) (selected : bool)
  (position : Vec3) (animation : option (option nat)) : Object :=
  {| ob_id := id; ob_name := name; ob_type := "MESH"; ob_visible := true;
     ob_selected := selected; bound_box := unit_cube;
     matrix_world := position; animation_data := animation |}.

Definition fresh_id (objects : list Object) : nat :=
  S (fold_right Nat.max O (map ob_id objects)).

Fixpoint realize (count : nat) (objects : list Object) : list Object :=
  match count with
  | O => objects
  | S k =>
      realize k
        (objects ++ [mesh (fresh_id objects) "instance" true (vec3 5 0 0) None])
  end.

Definition put_file (path text : string) (b : Blend) : Blend :=
  set_files b
    ((path, text)
       :: filter (fun entry => negb (String.eqb (fst entry) path)) (files b)).

Definition bound_to (b : Blend) (ob : nat) (action : Action) : Z :=
  match find_object ob b with
  | Some o =>
      match animation_data o with
      | Some (Some a) => if Nat.eqb a (act_id action) then 1 else 0
      | _ => 0
      end
  | None => 0
  end.

(** [export_fails]: the glTF exporter raises.  [selects]: [select_set]
    does its work (otherwise it leaves the selection as it is). *)
Definition ops_with (export_fails selects : bool) : Host := {|
  frame_set := fun _ b => (Ok tt, b);
  select_all := fun b =>
    (Ok tt, set_objects b (map (set_selected true) (scene_objects b)));
  duplicates_make_real := fun b =>
    (Ok tt, set_objects b (realize (host_data b) (scene_objects b)));
  object_delete := fun b =>
    (Ok tt,
     set_objects b (filter (fun o => negb (ob_selected o)) (scene_objects b)));
  select_set := fun ob flag b =>
    if selects
    then (Ok tt,
          set_objects b
            (map (fun o =>
                    if Nat.eqb (ob_id o) ob then set_selected flag o else o)
                 (scene_objects b)))
    else (Ok tt, b);
  export_scene_x3d := fun path _ b =>
    (Ok tt, put_file path (xml_declaration ++ x3d_doctype ++ "<X3D/>") b);
  export_scene_gltf := fun path _ b =>
    if export_fails
    then (Raise (HostError "export failed"), b)
    else (Ok tt, put_file path "{}" b);
  reset_material_tags := fun _ b => (Ok tt, b);
  user_of_id := bound_to
|}.

#[export] Instance ops : Host := ops_with false true.

Definition operator (skip : N) (actions : string) (duplicates : bool)
  : Operator :=
  {| filepath := "out.castle-anim-frames"; frame_skip := skip;
     actions_object := actions; make_duplicates_real := duplicates;
     frame_format := GLTF; use_selection := false;
     use_mesh_modifiers := true; use_triangulate := false;
     use_normals := false; use_hierarchy := true; name_decorations := true;
     use_h3d := false; axis_forward := "Z"; axis_up := "Y";
     path_mode := "AUTO" |}.

Definition scene (objects : list Object) (first last : Z)
  (actions : list Action) (instances : nat) : Blend :=
  {| scene_objects := objects; scene_frame_start := first;
     scene_frame_end := last; data_actions := actions; files := [];
     host_data := instances |}.

Definition start (b : Blend) : World :=
  {| blend := b; output_file := []; output_closed := false;
     old_objects := []; old_objects_len := 0; action_log := [] |}.

End Simple.


(** ** Properties of the bounding box *)

(** [m] is the [le]-least value of coordinate [coord] over [points]. *)
Definition extreme (le : Q -> Q -> Prop) (coord : Vec3 -> Q) (m : Q)
  (points : list Vec3) : Prop :=
  (forall p, In p points -> le m (coord p))
  /\ exists p, In p points /\ m = coord p.

Definition Qge (a b : Q) : Prop := (b <= a)%Q.

(** [box_min] and [box_max] are the per-axis minimum and maximum of
    [points]. *)
Definition bounds (box_min box_max : Vec3) (points : list Vec3) : Prop :=
  (extreme Qle vx (vx box_min) points
   /\ extreme Qle vy (vy box_min) points
   /\ extreme Qle vz (vz box_min) points)
  /\ (extreme Qge vx (vx box_max) points
      /\ extreme Qge vy (vy box_max) points
      /\ extreme Qge vz (vz box_max) points).

(** Equality of float triples, and of (center, size) pairs. *)
Definition vec_eq (a b : Vec3) : Prop :=
  (vx a == vx b /\ vy a == vy b /\ vz a == vz b)%Q.

Definition box_eq (a b : Vec3 * Vec3) : Prop :=
  vec_eq (fst a) (fst b) /\ vec_eq (snd a) (snd b).

Section BoxPoints.
Context {L : HostLib}.

(** The world-space corners of the objects the loop uses. *)
Definition scene_points (global_matrix : Matrix) (objects : list Object)
  : list Vec3 :=
  flat_map (object_box_points global_matrix) (filter contributes objects).

(** What the loop of [get_current_bounding_box] has computed after the
    objects [done]. *)
Definition scene_box_of (global_matrix : Matrix) (st : SceneBox)
  (done : list Object) : Prop :=
  if scene_box_empty st
  then filter contributes done = []
  else filter contributes done <> []
       /\ bounds (scene_box_min st) (scene_box_max st)
                 (scene_points global_matrix done).

End BoxPoints.

(** ** Properties of runs *)

Section Runs.
Context {L : HostLib} {H : Host}.

(** [m] takes every state to a state related to it by [R], whether it
    returns or raises. *)
Definition steps (R : World -> World -> Prop) {A} (m : M A) : Prop :=
  forall w, R w (snd (m w)).

(** From a state in [P], [m] ends in a state in [Q], whether it returns or
    raises. *)
Definition leads (P Q : World -> Prop) {A} (m : M A) : Prop :=
  forall w, P w -> Q (snd (m w)).

(** The host operators the exporter calls while it writes a frame, apart
    from [object_delete]. *)
Inductive host_call : (Blend -> outcome unit * Blend) -> Prop :=
| call_frame_set frame : host_call (frame_set frame)
| call_select_all : host_call select_all
| call_duplicates_make_real : host_call duplicates_make_real
| call_select_set ob flag : host_call (select_set ob flag)
| call_export_scene_x3d path self : host_call (export_scene_x3d path self)
| call_export_scene_gltf path self : host_call (export_scene_gltf path self)
| call_reset_material_tags self : host_call (reset_material_tags self).

(** The output file has only been appended to. *)
Definition appended (w w' : World) : Prop :=
  exists chunks, output_file w' = (output_file w ++ chunks)%list.

(** The output file has not been written. *)
Definition unwritten (w w' : World) : Prop :=
  output_file w' = output_file w.

(** [old_objects] and [old_objects_len] are as the first hook set them. *)
Definition same_old (w w' : World) : Prop :=
  old_objects w' = old_objects w /\ old_objects_len w' = old_objects_len w.

(** [ob.animation_data], through a reference to the object. *)
Definition bound_action (ob : nat) (b : Blend) : option (option nat) :=
  match find_object ob b with
  | Some o => animation_data o
  | None => None
  end.

(** The object still exists and still has animation data. *)
Definition has_animation_data (ob : nat) (b : Blend) : Prop :=
  exists action, bound_action ob b = Some action.

(** [ob.select_get()], false for an object that is gone. *)
Definition is_selected (ob : nat) (b : Blend) : bool :=
  match find_object ob b with
  | Some o => ob_selected o
  | None => false
  end.

(** What the host must do for the object [ob] to keep its animation data
    during an export: no operator removes the object or its animation
    data, [object_delete] spares an object that is not selected, and
    [select_set] deselects [ob] when asked to and leaves it alone when
    called on another object. *)
Record host_keeps_object (ob : nat) : Prop := {
  kept_by_calls :
    forall op, host_call op ->
    forall b, has_animation_data ob b -> has_animation_data ob (snd (op b));
  kept_by_delete :
    forall b, has_animation_data ob b -> is_selected ob b = false ->
              has_animation_data ob (snd (object_delete b));
  deselected_by_select_set :
    forall b, has_animation_data ob b ->
              is_selected ob (snd (select_set ob false b)) = false;
  deselected_after_select_set :
    forall other flag b, other <> ob -> is_selected ob b = false ->
              is_selected ob (snd (select_set other flag b)) = false
}.

(** The object has its animation data, and the assignments made to its
    action so far are [log]. *)
Definition binding (ob : nat) (log : list (option nat)) (w : World) : Prop :=
  has_animation_data ob (blend w) /\ action_log w = log.

(** The same between the two hooks of Make Duplicates Real: the object
    was in the scene when the first hook ran. *)
Definition binding_old (ob : nat) (log : list (option nat)) (w : World)
  : Prop :=
  binding ob log w /\ In ob (old_objects w).

(** [select_set] does what it is documented to do: it sets the selection
    flag of the object, and nothing else. *)
Definition select_set_obeys : Prop :=
  forall ob flag b,
    select_set ob flag b
    = (Ok tt,
       set_objects b
         (map (fun o => if Nat.eqb (ob_id o) ob then set_selected flag o else o)
              (scene_objects b))).

(** [object_delete] does what it is documented to do: it removes the
    selected objects, and nothing else. *)
Definition object_delete_obeys : Prop :=
  forall b,
    object_delete b
    = (Ok tt,
       set_objects b
         (filter (fun o => negb (ob_selected o)) (scene_objects b))).

(** The strings of one [<frame>] element. *)
Definition frame_chunks (self : Operator) (frame frame_start : Z)
  (center size : Vec3) (document : string) : list string :=
  [frame_line (frame_time frame frame_start) (mime_type self) center size;
   document; frame_close].

End Runs.

(** ** Scenes for the small host *)

Module Demo.
Import Simple.

(** A cube at the origin, with animation data and no action bound. *)
Definition cube : Object :=
  mesh 1 "cube" false (vec3 0 0 0) (Some None).

Definition far_cube : Object :=
  mesh 2 "far" false (vec3 4 0 0) None.

Definition typed (type : string) : Object :=
  {| ob_id := 3; ob_name := "other"; ob_type := type; ob_visible := true;
     ob_selected := false; bound_box := unit_cube;
     matrix_world := vec3 9 9 9; animation_data := None |}.

Definition camera : Object := typed "CAMERA".

Definition walk : Action :=
  {| act_id := 1; act_name := "walk"; frame_range := (1%Q, 3%Q);
     use_fake_user := true |}.

Definition jump : Action :=
  {| act_id := 2; act_name := "jump"; frame_range := (0%Q, 10%Q);
     use_fake_user := true |}.

(** The cube alone, frames 0 to 10, no action, nothing to realize. *)
Definition plain : World := start (scene [cube] 0 10 [] 0).

(** The cube with two actions kept by their fake user. *)
Definition animated : World := start (scene [cube] 0 10 [walk; jump] 0).

(** The cube, selected, with two instances to realize. *)
Definition instanced : World :=
  start (scene [set_selected true cube] 0 10 [] 2).

(** The state after the first hook has realized the two instances. *)
Definition realized : World := snd (make_duplicates_real_before instanced).

(** A state in which an object has gone since the first hook. *)
Definition shrunk : World :=
  {| blend := scene [cube] 0 10 [] 0; output_file := [];
     output_closed := false; old_objects := [1; 2]%nat;
     old_objects_len := 2; action_log := [] |}.

Definition scene_export : Operator := operator 4 EmptyString false.
Definition actions_export : Operator := operator 4 "cube" false.
Definition duplicates_export : Operator := operator 4 EmptyString true.

(** A name with a quote and an angle bracket in it. *)
Definition odd_name : string := "a" ++ dq ++ "<b".

End Demo.

(** ** The default object of [actions_object] *)

Section DefaultObject.
Context {L : HostLib}.

(** [ob.type == 'ARMATURE' and ob.animation_data] *)
Definition is_animated_armature (ob : Object) : bool :=
  String.eqb (ob_type ob) "ARMATURE"
  && match animation_data ob with Some _ => true | None => false end.

(** The body of [for ob in objects] in [get_default_actions_object], on
    the pair ([armature], [more_than_one_armature]). *)
Definition armature_step (st : option Object * bool) (ob : Object)
  : option Object * bool :=
  let (armature, more_than_one_armature) := st in
  if is_animated_armature ob
  then (Some ob,
        match armature with
        | Some _ => true
        | None => more_than_one_armature
        end)
  else st.

(** [get_default_actions_object(self, context)], from the objects of the
    scene: an object name, or the empty string. *)
Definition get_default_actions_object (self : Operator)
  (objects : list Object) : string :=
  let (armature, more_than_one_armature) :=
    fold_left armature_step (box_candidates self objects) (None, false) in
  match armature with
  | Some found =>
      if negb more_than_one_armature then ob_name found else EmptyString
  | None => EmptyString
  end.

Definition set_filepath (self : Operator) (path : string) : Operator :=
  {| filepath := path; frame_skip := frame_skip self;
     actions_object := actions_object self;
     make_duplicates_real := make_duplicates_real self;
     frame_format := frame_format self; use_selection := use_selection self;
     use_mesh_modifiers := use_mesh_modifiers self;
     use_triangulate := use_triangulate self;
     use_normals := use_normals self; use_hierarchy := use_hierarchy self;
     name_decorations := name_decorations self; use_h3d := use_h3d self;
     axis_forward := axis_forward self; axis_up := axis_up self;
     path_mode := path_mode self |}.

Definition set_actions_object (self : Operator) (name : string) : Operator :=
  {| filepath := filepath self; frame_skip := frame_skip self;
     actions_object := name;
     make_duplicates_real := make_duplicates_real self;
     frame_format := frame_format self; use_selection := use_selection self;
     use_mesh_modifiers := use_mesh_modifiers self;
     use_triangulate := use_triangulate self;
     use_normals := use_normals self; use_hierarchy := use_hierarchy self;
     name_decorations := name_decorations self; use_h3d := use_h3d self;
     axis_forward := axis_forward self; axis_up := axis_up self;
     path_mode := path_mode self |}.

(** [invoke(self, context, event)]: the operator with its [filepath] and
    [actions_object] set, and the returned set.  [blend_data_filepath] is
    [context.blend_data.filepath]; the file selector that
    [fileselect_add] opens belongs to the host's window manager and has no
    state here. *)
Definition invoke (self : Operator) (blend_data_filepath : string)
  (objects : list Object) : Operator * list string :=
  let self :=
    if String.eqb (filepath self) EmptyString
    then
      let blend_filepath :=
        if String.eqb blend_data_filepath EmptyString
        then "untitled"
        else fst (os_path_splitext blend_data_filepath) in
      set_filepath self (blend_filepath ++ ".castle-anim-frames")
    else self in
  let self :=
    set_actions_object self (get_default_actions_object self objects) in
  (self, ["RUNNING_MODAL"]).

End DefaultObject.

(** ** Properties of the exported documents *)

(** [old in s] *)
Fixpoint occurs (old s : string) : bool :=
  starts_with old s
  || match s with
     | EmptyString => false
     | String _ s' => occurs old s'
     end.

Section Documents.
Context {L : HostLib}.

(** The path of the temporary file of [output_frame_x3d] and
    [output_frame_gltf], for the suffix [_tmp.x3d] or [_tmp.gltf]. *)
Definition temp_file_name (self : Operator) (suffix : string) : string :=
  let (output_dir, output_basename) := os_path_split (filepath self) in
  os_path_join output_dir (fst (os_path_splitext output_basename) ++ suffix).

(** The text of the file at [path], if there is one. *)
Definition file_text (path : string) (b : Blend) : option string :=
  option_map snd
    (find (fun entry => String.eqb (fst entry) path) (files b)).

(** The strings of the [<frame>] elements of the frames [frames], given
    for each frame the bounding box and the document written for it. *)
Definition frame_elements (self : Operator) (frame_start : Z)
  (frames : list Z) (data : list (Vec3 * Vec3 * string)) : list string :=
  flat_map (fun item =>
              frame_chunks self (fst item) frame_start
                (fst (fst (snd item))) (snd (fst (snd item)))
                (snd (snd item)))
           (combine frames data).

(** The strings of one [<animation>] element. *)
Definition animation_block (self : Operator) (name : string)
  (frame_start frame_end : Z) (data : list (Vec3 * Vec3 * string))
  : list string :=
  (animation_open name
   :: frame_elements self frame_start
        (Sample frame_start frame_end (frame_skip self)) data
   ++ [animation_close])%list.

(** The strings of the [<animation>] elements of the actions [actions]. *)
Definition action_blocks (self : Operator) (actions : list Action)
  (data : list (list (Vec3 * Vec3 * string))) : list string :=
  flat_map (fun item =>
              animation_block self (act_name (fst item))
                (py_int (fst (frame_range (fst item))))
                (py_int (snd (frame_range (fst item))))
                (snd item))
           (combine actions data).

Definition container_open : list string :=
  [("<?xml version=" ++ dq ++ "1.0" ++ dq ++ "?>" ++ nl)%string;
   ("<animations>" ++ nl)%string].

Definition container_close : string := "</animations>" ++ nl.

End Documents.

(** ** Properties of boxes *)

Section FinalSceneBox.
Context {L : HostLib}.

(** [scene_box_empty], [scene_box_min] and [scene_box_max] when the loop
    [for ob in objects] of [get_current_bounding_box] ends: the values the
    center and the size are then computed from. *)
Definition final_scene_box (self : Operator) (objects : list Object)
  : outcome SceneBox :=
  let global_matrix := axis_conversion (axis_forward self) (axis_up self) in
  fold_left (scene_box_step global_matrix) (box_candidates self objects)
            (Ok scene_box_init).

End FinalSceneBox.

(** [a] is below [b] on every axis. *)
Definition vec_le (a b : Vec3) : Prop :=
  (vx a <= vx b /\ vy a <= vy b /\ vz a <= vz b)%Q.

(** The coordinate [coord] of some point of [points] is [m]. *)
Definition reached (coord : Vec3 -> Q) (m : Q) (points : list Vec3) : Prop :=
  exists p, In p points /\ coord p = m.

Section ArmaturesSeen.
Context {L : HostLib}.

(** The pair ([armature], [more_than_one_armature]) after the loop of
    [get_default_actions_object] has met the animated armatures [seen]. *)
Definition armatures_seen (seen : list Object) : option Object * bool :=
  (match rev seen with
   | [] => None
   | last_seen :: _ => Some last_seen
   end,
   match seen with
   | _ :: _ :: _ => true
   | _ => false
   end).

End ArmaturesSeen.

(** No occurrence of [old] in [pre ++ rest] starts within [pre]. *)
Fixpoint no_match_before (old pre rest : string) : bool :=
  match pre with
  | EmptyString => true
  | String _ pre' =>
      negb (starts_with old (pre ++ rest)) && no_match_before old pre' rest
  end.

Section Open.
Context {L : HostLib}.

(** The output file has only been appended to, and has not been closed or
    opened again. *)
Definition still_open (w w' : World) : Prop :=
  output_closed w' = output_closed w
  /\ exists chunks, output_file w' = (output_file w ++ chunks)%list.

(** The output file does not end with the [</animations>] line. *)
Definition open_ended (w : World) : Prop :=
  forall l, output_file w <> (l ++ [container_close])%list.

End Open.

(** ** More scenes for the small host *)

Module Cases.
Import Simple Demo.

(** A cube that is not visible. *)
Definition hidden : Object :=
  {| ob_id := 4; ob_name := "hidden"; ob_type := "MESH"; ob_visible := false;
     ob_selected := false; bound_box := unit_cube;
     matrix_world := vec3 20 0 0; animation_data := None |}.

(** An armature with animation data. *)
Definition rig : Object :=
  {| ob_id := 5; ob_name := "rig"; ob_type := "ARMATURE"; ob_visible := true;
     ob_selected := false; bound_box := unit_cube;
     matrix_world := vec3 0 0 0; animation_data := Some None |}.

Definition rigged : World := start (scene [cube; rig] 0 10 [] 0).

(** An object without animation data, and an action kept by its fake
    user. *)
Definition unanimated : World := start (scene [far_cube] 0 10 [walk] 0).

(** The state after the first hook, with nothing to realize. *)
Definition unchanged : World := snd (make_duplicates_real_before plain).

Definition x3d_export : Operator :=
  {| filepath := "out.castle-anim-frames"; frame_skip := 4;
     actions_object := EmptyString; make_duplicates_real := false;
     frame_format := X3D; use_selection := false;
     use_mesh_modifiers := true; use_triangulate := false;
     use_normals := false; use_hierarchy := true; name_decorations := true;
     use_h3d := false; axis_forward := "Z"; axis_up := "Y";
     path_mode := "AUTO" |}.

(** The small host with a glTF exporter that returns without writing its
    file. *)
Definition silent : Host := {|
  frame_set := @frame_set lib ops;
  select_all := @select_all lib ops;
  duplicates_make_real := @duplicates_make_real lib ops;
  object_delete := @object_delete lib ops;
  select_set := @select_set lib ops;
  export_scene_x3d := @export_scene_x3d lib ops;
  export_scene_gltf := fun _ _ b => (Ok tt, b);
  reset_material_tags := @reset_material_tags lib ops;
  user_of_id := @user_of_id lib ops
|}.

End Cases.

(** ** Properties of lists of frames *)

(** Every element is smaller than the next one, except that the last two
    may be equal. *)
Definition increasing_but_last (l : list Z) : Prop :=
  forall i, (S i < List.length l)%nat ->
    nth i l 0 < nth (S i) l 0
    \/ (S (S i) = List.length l /\ nth i l 0 = nth (S i) l 0).

(** * Theorems *)

Open Scope list_scope.

(** ** The frames of one animation *)

Lemma frames_before_bounds skip frame_end frame x :
  In x (frames_before skip frame_end frame) -> frame <= x < frame_end.
Proof.
  funelim (frames_before skip frame_end frame).
  - intros [<- | Hin]; [lia|].
    match goal with IH : forall x, In x _ -> _ |- _ =>
      specialize (IH _ Hin) end.
    lia.
  - intros [].
Qed.

Lemma frames_before_sorted skip frame_end frame :
  StronglySorted Z.lt (frames_before skip frame_end frame).
Proof.
  funelim (frames_before skip frame_end frame); constructor.
  - assumption.
  - apply Forall_forall. intros x Hin.
    apply frames_before_bounds in Hin. lia.
Qed.

Lemma frames_before_start skip frame_end frame :
  frame < frame_end ->
  frames_before skip frame_end frame
  = frame :: frames_before skip frame_end (frame + (1 + Z.of_N skip)).
Proof.
  intros Hlt. rewrite frames_before_equation_1.
  destruct (Z_lt_dec frame frame_end); [|lia]. reflexivity.
Qed.

Lemma frames_before_done skip frame_end frame :
  frame_end <= frame -> frames_before skip frame_end frame = [].
Proof.
  intros Hle. rewrite frames_before_equation_1.
  destruct (Z_lt_dec frame frame_end); [lia|]. reflexivity.
Qed.

Lemma Sample_head range_start range_end skip :
  range_start <= range_end ->
  exists rest, Sample range_start range_end skip = range_start :: rest.
Proof.
  intros Hle. unfold Sample.
  destruct (Z.eq_dec range_start range_end) as [->|Hne].
  - rewrite frames_before_done by lia. now exists [].
  - rewrite frames_before_start by lia. cbn. eexists. reflexivity.
Qed.

Lemma Sample_sorted range_start range_end skip :
  StronglySorted Z.lt (Sample range_start range_end skip).
Proof.
  unfold Sample.
  pose proof (frames_before_sorted skip range_end range_start) as Hs.
  pose proof (fun x => frames_before_bounds skip range_end range_start x) as Hb.
  induction (frames_before skip range_end range_start) as [|a l IH]; cbn.
  - repeat constructor.
  - inversion Hs; subst. constructor.
    + apply IH; [assumption|]. intros x Hx. apply Hb. now right.
    + apply Forall_app; split; [assumption|].
      constructor; [|constructor]. apply Hb. now left.
Qed.

Lemma sorted_nth_lt (l : list Z) :
  StronglySorted Z.lt l ->
  forall i, (S i < List.length l)%nat -> nth i l 0 < nth (S i) l 0.
Proof.
  induction 1 as [|a l Hs IH Hall]; cbn; intros i Hi; [lia|].
  destruct i as [|i].
  - destruct l as [|b l]; cbn in *; [lia|].
    now inversion Hall.
  - apply IH. lia.
Qed.

(** C1 (as amended): [range_end] is passed to [output_frame] exactly once,
    by the call after the loop, whatever the remainder of
    [range_end - range_start] by [1 + skip] is; [Sample 0 10 4] is
    [0, 5, 10]. *)
Theorem Sample_range_end_once :
  (forall range_start range_end skip,
      count_occ Z.eq_dec (Sample range_start range_end skip) range_end = 1%nat)
  /\ Sample 0 10 4 = [0; 5; 10].
Proof.
  split; [|reflexivity].
  intros range_start range_end skip. unfold Sample.
  rewrite count_occ_app. cbn.
  destruct (Z.eq_dec range_end range_end) as [_|]; [|congruence].
  rewrite (proj1 (count_occ_not_In Z.eq_dec _ _)); [reflexivity|].
  intros Hin. apply frames_before_bounds in Hin. lia.
Qed.

(** C1 (as stated) fails: 10 - 0 is divisible by 1 + 4, and yet frame 10
    is emitted once, the frames being [0, 5, 10] and not [0, 5, 10, 10]. *)
Lemma Sample_0_10_4_has_no_duplicate :
  (10 - 0) mod (1 + Z.of_N 4) = 0
  /\ count_occ Z.eq_dec (Sample 0 10 4) 10 = 1%nat
  /\ Sample 0 10 4 <> [0; 5; 10; 10].
Proof.
  split; [reflexivity|]. split; [reflexivity|].
  vm_compute. discriminate.
Qed.

(** C2: for [range_start <= range_end] and [skip] in [0, 50], the frames
    start with [range_start], end with [range_end], and increase strictly
    except possibly for a repeated last element. *)
Theorem Sample_first_last_increasing range_start range_end skip :
  range_start <= range_end ->
  (skip <= 50)%N ->
  hd_error (Sample range_start range_end skip) = Some range_start
  /\ last (Sample range_start range_end skip) range_start = range_end
  /\ increasing_but_last (Sample range_start range_end skip).
Proof.
  intros Hle _. split; [|split].
  - destruct (Sample_head range_start range_end skip Hle) as [rest ->].
    reflexivity.
  - unfold Sample. apply last_last.
  - intros i Hi. left.
    apply sorted_nth_lt; [apply Sample_sorted | assumption].
Qed.

Lemma Sample_first_last_increasing_witness :
  0 <= 10 /\ (4 <= 50)%N
  /\ hd_error (Sample 0 10 4) = Some 0
  /\ last (Sample 0 10 4) 0 = 10
  /\ increasing_but_last (Sample 0 10 4).
Proof.
  split; [lia|]. split; [lia|].
  apply (Sample_first_last_increasing 0 10 4); lia.
Defined.

(** ** The bounding box *)

Lemma Qltb_lt a b : Qltb a b = true <-> (a < b)%Q.
Proof.
  unfold Qltb. rewrite Qlt_alt.
  destruct (a ?= b)%Q; split; congruence.
Qed.

Lemma py_min_cases a b : py_min a b = a \/ py_min a b = b.
Proof. unfold py_min. destruct (Qltb b a); auto. Qed.

Lemma py_max_cases a b : py_max a b = a \/ py_max a b = b.
Proof. unfold py_max. destruct (Qltb a b); auto. Qed.

Lemma py_min_le_l a b : (py_min a b <= a)%Q.
Proof.
  unfold py_min. destruct (Qltb b a) eqn:E.
  - apply Qltb_lt in E. now apply Qlt_le_weak.
  - apply Qle_refl.
Qed.

Lemma py_min_le_r a b : (py_min a b <= b)%Q.
Proof.
  unfold py_min. destruct (Qltb b a) eqn:E.
  - apply Qle_refl.
  - apply Qnot_lt_le. intros Hlt. apply Qltb_lt in Hlt. congruence.
Qed.

Lemma py_max_ge_l a b : (a <= py_max a b)%Q.
Proof.
  unfold py_max. destruct (Qltb a b) eqn:E.
  - apply Qltb_lt in E. now apply Qlt_le_weak.
  - apply Qle_refl.
Qed.

Lemma py_max_ge_r a b : (b <= py_max a b)%Q.
Proof.
  unfold py_max. destruct (Qltb a b) eqn:E.
  - apply Qle_refl.
  - apply Qnot_lt_le. intros Hlt. apply Qltb_lt in Hlt. congruence.
Qed.

(** Extreme values of one coordinate over a list of points, for an order
    [le] and a function [pick] choosing the [le]-smaller of two values:
    [Qle] with [py_min], or its converse with [py_max]. *)
Section Extreme.
Variable le : Q -> Q -> Prop.
Variable pick : Q -> Q -> Q.
Hypothesis le_refl : forall a, le a a.
Hypothesis le_trans : forall a b c, le a b -> le b c -> le a c.
Hypothesis pick_l : forall a b, le (pick a b) a.
Hypothesis pick_r : forall a b, le (pick a b) b.
Hypothesis pick_cases : forall a b, pick a b = a \/ pick a b = b.
Variable coord : Vec3 -> Q.

Lemma extreme_single p : extreme le coord (coord p) [p].
Proof.
  split.
  - intros q [<- | []]. apply le_refl.
  - exists p. split; [now left | reflexivity].
Qed.

Lemma extreme_merge m1 m2 l1 l2 :
  extreme le coord m1 l1 -> extreme le coord m2 l2 ->
  extreme le coord (pick m1 m2) (l1 ++ l2).
Proof.
  intros [Hb1 (p1 & Hin1 & Heq1)] [Hb2 (p2 & Hin2 & Heq2)]. split.
  - intros q Hq. apply in_app_or in Hq. destruct Hq as [Hq | Hq].
    + eapply le_trans; [apply pick_l | now apply Hb1].
    + eapply le_trans; [apply pick_r | now apply Hb2].
  - destruct (pick_cases m1 m2) as [-> | ->].
    + exists p1. split; [apply in_or_app; now left | assumption].
    + exists p2. split; [apply in_or_app; now right | assumption].
Qed.

Lemma extreme_same_points m l l' :
  (forall p, In p l <-> In p l') ->
  extreme le coord m l -> extreme le coord m l'.
Proof.
  intros Hsame [Hb (p & Hin & Heq)]. split.
  - intros q Hq. apply Hb. now apply Hsame.
  - exists p. split; [now apply Hsame | assumption].
Qed.

Lemma extreme_both_ways m m' l :
  extreme le coord m l -> extreme le coord m' l -> le m m' /\ le m' m.
Proof.
  intros [Hb (p & Hin & Heq)] [Hb' (p' & Hin' & Heq')]. split.
  - rewrite Heq'. now apply Hb.
  - rewrite Heq. now apply Hb'.
Qed.

End Extreme.

Lemma Qge_trans a b c : Qge a b -> Qge b c -> Qge a c.
Proof. unfold Qge. intros Hab Hbc. now apply Qle_trans with b. Qed.

Lemma min_single coord p : extreme Qle coord (coord p) [p].
Proof. apply extreme_single. apply Qle_refl. Qed.

Lemma max_single coord p : extreme Qge coord (coord p) [p].
Proof. apply extreme_single. intros a. apply Qle_refl. Qed.

Lemma min_merge coord m1 m2 l1 l2 :
  extreme Qle coord m1 l1 -> extreme Qle coord m2 l2 ->
  extreme Qle coord (py_min m1 m2) (l1 ++ l2).
Proof.
  apply (extreme_merge Qle py_min Qle_trans py_min_le_l py_min_le_r
           py_min_cases).
Qed.

Lemma max_merge coord m1 m2 l1 l2 :
  extreme Qge coord m1 l1 -> extreme Qge coord m2 l2 ->
  extreme Qge coord (py_max m1 m2) (l1 ++ l2).
Proof.
  apply (extreme_merge Qge py_max Qge_trans py_max_ge_l py_max_ge_r
           py_max_cases).
Qed.

Lemma min_unique coord m m' l :
  extreme Qle coord m l -> extreme Qle coord m' l -> (m == m')%Q.
Proof.
  intros Hm Hm'.
  destruct (extreme_both_ways Qle coord m m' l Hm Hm') as [H1 H2].
  now apply Qle_antisym.
Qed.

Lemma max_unique coord m m' l :
  extreme Qge coord m l -> extreme Qge coord m' l -> (m == m')%Q.
Proof.
  intros Hm Hm'.
  destruct (extreme_both_ways Qge coord m m' l Hm Hm') as [H1 H2].
  now apply Qle_antisym.
Qed.

Lemma min_le_max coord mn mx l :
  extreme Qle coord mn l -> extreme Qge coord mx l -> (mn <= mx)%Q.
Proof.
  intros [Hb (p & Hin & ->)] [Hb' _]. now apply Hb'.
Qed.

Lemma bounds_single p :
  bounds (vec3 (vx p) (vy p) (vz p)) (vec3 (vx p) (vy p) (vz p)) [p].
Proof.
  repeat split; cbn; (apply min_single || apply max_single).
Qed.

Lemma bounds_same_points box_min box_max l l' :
  (forall p, In p l <-> In p l') ->
  bounds box_min box_max l -> bounds box_min box_max l'.
Proof.
  intros Hsame [(H1 & H2 & H3) (H4 & H5 & H6)].
  repeat split; eapply extreme_same_points; eauto.
Qed.

Lemma grow_box_bounds box_min box_max seen v :
  bounds box_min box_max seen ->
  bounds (fst (grow_box (box_min, box_max) v))
         (snd (grow_box (box_min, box_max) v)) (seen ++ [v]).
Proof.
  intros [(H1 & H2 & H3) (H4 & H5 & H6)].
  apply bounds_same_points with ([v] ++ seen).
  { intros p. rewrite !in_app_iff. tauto. }
  repeat split; cbn - [app];
    (apply min_merge || apply max_merge);
    auto using min_single, max_single.
Qed.

Lemma fold_grow_box_bounds points : forall box_min box_max seen,
  bounds box_min box_max seen ->
  bounds (fst (fold_left grow_box points (box_min, box_max)))
         (snd (fold_left grow_box points (box_min, box_max)))
         (seen ++ points).
Proof.
  induction points as [|v points IH]; intros box_min box_max seen Hb.
  - cbn. now rewrite app_nil_r.
  - cbn [fold_left].
    replace (seen ++ v :: points) with ((seen ++ [v]) ++ points)
      by (rewrite <- app_assoc; reflexivity).
    pose proof (grow_box_bounds _ _ _ v Hb) as Hg.
    destruct (grow_box (box_min, box_max) v) as [mn mx]. now apply IH.
Qed.

Lemma object_box_bounds points :
  points <> [] ->
  exists box_min box_max,
    object_box points = Ok (box_min, box_max)
    /\ bounds box_min box_max points.
Proof.
  destruct points as [|p0 rest]; [congruence | intros _].
  unfold object_box.
  pose proof (fold_grow_box_bounds (p0 :: rest) _ _ [p0] (bounds_single p0))
    as Hb.
  destruct (fold_left grow_box (p0 :: rest) _) as [mn mx].
  exists mn, mx. split; [reflexivity|].
  eapply bounds_same_points; [|exact Hb].
  intros p. cbn. tauto.
Qed.

Lemma bounds_merge min1 max1 l1 min2 max2 l2 :
  bounds min1 max1 l1 -> bounds min2 max2 l2 ->
  bounds (vec3 (py_min (vx min1) (vx min2)) (py_min (vy min1) (vy min2))
               (py_min (vz min1) (vz min2)))
         (vec3 (py_max (vx max1) (vx max2)) (py_max (vy max1) (vy max2))
               (py_max (vz max1) (vz max2)))
         (l1 ++ l2).
Proof.
  intros [(H1 & H2 & H3) (H4 & H5 & H6)] [(K1 & K2 & K3) (K4 & K5 & K6)].
  repeat split; cbn - [app]; (apply min_merge || apply max_merge); assumption.
Qed.

Section BoundingBoxFacts.
Context {L : HostLib}.

Lemma bound_box_not_empty (bound_box : list Corner) :
  is_bound_box_empty bound_box = false -> bound_box <> [].
Proof. destruct bound_box; cbn; congruence. Qed.

Lemma contributes_has_points gm ob :
  contributes ob = true -> object_box_points gm ob <> [].
Proof.
  unfold contributes, object_box_points. intros Hc.
  apply andb_true_iff in Hc. destruct Hc as [_ Hne].
  apply negb_true_iff, bound_box_not_empty in Hne.
  destruct (bound_box ob); [congruence | cbn; congruence].
Qed.

Lemma scene_points_app gm l1 l2 :
  scene_points gm (l1 ++ l2) = scene_points gm l1 ++ scene_points gm l2.
Proof. unfold scene_points. now rewrite filter_app, flat_map_app. Qed.

Lemma scene_box_step_skip gm acc ob :
  contributes ob = false -> scene_box_step gm acc ob = acc.
Proof.
  intros Hc. unfold scene_box_step. rewrite Hc. now destruct acc.
Qed.

(** One round of the loop keeps what has been computed so far. *)
Lemma scene_box_step_of gm st done ob :
  scene_box_of gm st done ->
  exists st', scene_box_step gm (Ok st) ob = Ok st'
              /\ scene_box_of gm st' (done ++ [ob]).
Proof.
  intros Hst. destruct (contributes ob) eqn:Hc.
  - destruct (object_box_bounds _ (contributes_has_points gm ob Hc))
      as (omin & omax & Hbox & Hb).
    unfold scene_box_step. rewrite Hc, Hbox.
    eexists. split; [reflexivity|].
    assert (Hpts : scene_points gm [ob] = object_box_points gm ob).
    { unfold scene_points. cbn. rewrite Hc. cbn. apply app_nil_r. }
    unfold scene_box_of, scene_box_update in *.
    destruct (scene_box_empty st); cbn [scene_box_empty scene_box_min scene_box_max].
    + split.
      * rewrite filter_app. cbn. rewrite Hc.
        intros E. apply app_eq_nil in E. destruct E; congruence.
      * rewrite scene_points_app, Hpts.
        unfold scene_points at 1. rewrite Hst. exact Hb.
    + destruct Hst as [Hne Hsb]. split.
      * rewrite filter_app. intros E. apply app_eq_nil in E. tauto.
      * rewrite scene_points_app, Hpts. now apply bounds_merge.
  - rewrite scene_box_step_skip by assumption.
    exists st. split; [reflexivity|].
    unfold scene_box_of in *. rewrite scene_points_app.
    rewrite filter_app. unfold scene_points at 2.
    cbn. rewrite Hc. cbn. now rewrite !app_nil_r.
Qed.

Lemma scene_box_fold_of gm objects : forall st done,
  scene_box_of gm st done ->
  exists st', fold_left (scene_box_step gm) objects (Ok st) = Ok st'
              /\ scene_box_of gm st' (done ++ objects).
Proof.
  induction objects as [|ob objects IH]; intros st done Hst.
  - exists st. rewrite app_nil_r. now split.
  - destruct (scene_box_step_of gm st done ob Hst) as (st1 & Hstep & Hst1).
    cbn [fold_left]. rewrite Hstep.
    replace (done ++ ob :: objects) with ((done ++ [ob]) ++ objects)
      by (rewrite <- app_assoc; reflexivity).
    now apply IH.
Qed.

(** The loop never raises, and ends with the bounds of the corners of the
    objects it uses. *)
Lemma scene_box_loop gm objects :
  exists st, fold_left (scene_box_step gm) objects (Ok scene_box_init) = Ok st
             /\ scene_box_of gm st objects.
Proof.
  apply (scene_box_fold_of gm objects scene_box_init []).
  reflexivity.
Qed.

End BoundingBoxFacts.

Lemma filter_empty_iff {A} (f : A -> bool) (l : list A) :
  filter f l = [] <-> forall x, In x l -> f x = false.
Proof.
  induction l as [|a l IH]; cbn.
  - split; [intros _ x [] | reflexivity].
  - destruct (f a) eqn:E; split.
    + discriminate.
    + intros Hall. specialize (Hall a (or_introl eq_refl)). congruence.
    + intros Hnil x [<- | Hin]; [assumption | now apply IH].
    + intros Hall. apply IH. intros x Hin. apply Hall. now right.
Qed.

Section BoundingBoxClaims.
Context {L : HostLib}.

Lemma box_candidates_app self l1 l2 :
  box_candidates self (l1 ++ l2)
  = box_candidates self l1 ++ box_candidates self l2.
Proof.
  unfold box_candidates. destruct (use_selection self); apply filter_app.
Qed.

Lemma box_candidates_In self objects ob :
  In ob (box_candidates self objects) ->
  In ob objects.
Proof.
  unfold box_candidates. destruct (use_selection self); intros Hin;
    apply filter_In in Hin; tauto.
Qed.

Lemma box_candidates_same self objects objects' :
  (forall ob, In ob objects <-> In ob objects') ->
  forall ob, In ob (box_candidates self objects)
             <-> In ob (box_candidates self objects').
Proof.
  intros Hsame ob. unfold box_candidates.
  destruct (use_selection self); rewrite !filter_In, Hsame; tauto.
Qed.

Lemma scene_points_same gm objects objects' :
  (forall ob, In ob objects <-> In ob objects') ->
  forall p, In p (scene_points gm objects) <-> In p (scene_points gm objects').
Proof.
  intros Hsame p. unfold scene_points. rewrite !in_flat_map.
  split; intros (ob & Hin & Hp); exists ob; split; try assumption;
    apply filter_In; apply filter_In in Hin; destruct Hin as [Hin Hc];
    split; try assumption; now apply Hsame.
Qed.

(** C3: when no object passes the filters of the loop, the result is the
    center (0, 0, 0) with the size (-1, -1, -1); when some object does,
    every component of the size is at least 0. *)
Theorem bounding_box_sentinel_or_nonnegative self objects :
  ((forall ob, In ob (box_candidates self objects) -> contributes ob = false)
   -> get_current_bounding_box self objects
      = Ok (vec3 0 0 0, vec3 (-1) (-1) (-1)))
  /\ ((exists ob, In ob (box_candidates self objects)
                  /\ contributes ob = true)
      -> exists center size,
           get_current_bounding_box self objects = Ok (center, size)
           /\ (0 <= vx size /\ 0 <= vy size /\ 0 <= vz size)%Q).
Proof.
  unfold get_current_bounding_box.
  set (gm := axis_conversion (axis_forward self) (axis_up self)).
  destruct (scene_box_loop gm (box_candidates self objects))
    as (st & -> & Hst).
  unfold scene_box_of in Hst. unfold center_and_size. split.
  - intros Hnone. apply filter_empty_iff in Hnone.
    destruct (scene_box_empty st); [reflexivity | tauto].
  - intros (ob & Hin & Hc).
    destruct (scene_box_empty st).
    + apply filter_empty_iff with (x := ob) in Hst; [congruence | assumption].
    + destruct Hst as [_ [(H1 & H2 & H3) (H4 & H5 & H6)]].
      eexists _, _. split; [reflexivity|]. cbn.
      pose proof (min_le_max _ _ _ _ H1 H4).
      pose proof (min_le_max _ _ _ _ H2 H5).
      pose proof (min_le_max _ _ _ _ H3 H6).
      repeat split; lra.
Qed.

(** The six type strings of the tuple of [get_current_bounding_box]: an
    object whose type is ARMATURE, LATTICE, EMPTY, CAMERA, LAMP or SPEAKER
    adds nothing to the bounding box: the result is that of the scene
    without the object. *)
Theorem non_renderable_object_ignored self before ob after :
  In (ob_type ob) non_renderable_types ->
  get_current_bounding_box self (before ++ ob :: after)
  = get_current_bounding_box self (before ++ after).
Proof.
  intros Hty.
  assert (Hc : contributes ob = false).
  { unfold contributes.
    replace (str_in (ob_type ob) non_renderable_types) with true;
      [reflexivity|].
    symmetry. apply existsb_exists. exists (ob_type ob).
    split; [assumption | apply String.eqb_refl]. }
  unfold get_current_bounding_box.
  rewrite !box_candidates_app, !fold_left_app.
  replace (fold_left _ (box_candidates self (ob :: after)) _)
    with (fold_left
            (scene_box_step (axis_conversion (axis_forward self) (axis_up self)))
            (box_candidates self after)
            (fold_left
               (scene_box_step
                  (axis_conversion (axis_forward self) (axis_up self)))
               (box_candidates self before) (Ok scene_box_init)));
    [reflexivity|].
  change (ob :: after) with ([ob] ++ after).
  rewrite box_candidates_app, fold_left_app. f_equal.
  unfold box_candidates.
  destruct (use_selection self); cbn;
    match goal with |- context [if ?c then _ else _] => destruct c end;
    cbn; now rewrite ?scene_box_step_skip.
Qed.

(** C9: listing the objects of the scene in another order gives the same
    center and the same size. *)
Theorem bounding_box_order_invariant self objects objects' :
  Permutation objects objects' ->
  exists box box',
    get_current_bounding_box self objects = Ok box
    /\ get_current_bounding_box self objects' = Ok box'
    /\ box_eq box box'.
Proof.
  intros Hperm.
  assert (Hsame : forall ob, In ob objects <-> In ob objects').
  { intros ob. split; apply Permutation_in;
      [assumption | now apply Permutation_sym]. }
  pose proof (box_candidates_same self _ _ Hsame) as Hcand.
  unfold get_current_bounding_box.
  set (gm := axis_conversion (axis_forward self) (axis_up self)).
  destruct (scene_box_loop gm (box_candidates self objects))
    as (st & -> & Hst).
  destruct (scene_box_loop gm (box_candidates self objects'))
    as (st' & -> & Hst').
  eexists _, _. split; [reflexivity|]. split; [reflexivity|].
  pose proof (scene_points_same gm _ _ Hcand) as Hpts.
  assert (Hnil : filter contributes (box_candidates self objects) = []
                 <-> filter contributes (box_candidates self objects') = []).
  { rewrite !filter_empty_iff.
    split; intros Hall x Hin; apply Hall; now apply Hcand. }
  unfold scene_box_of in Hst, Hst'. unfold center_and_size.
  destruct (scene_box_empty st), (scene_box_empty st').
  - repeat split; reflexivity.
  - tauto.
  - tauto.
  - destruct Hst as [_ Hb], Hst' as [_ Hb'].
    apply (bounds_same_points _ _ _ _ Hpts) in Hb.
    destruct Hb as [(H1 & H2 & H3) (H4 & H5 & H6)].
    destruct Hb' as [(K1 & K2 & K3) (K4 & K5 & K6)].
    pose proof (min_unique _ _ _ _ H1 K1) as E1.
    pose proof (min_unique _ _ _ _ H2 K2) as E2.
    pose proof (min_unique _ _ _ _ H3 K3) as E3.
    pose proof (max_unique _ _ _ _ H4 K4) as E4.
    pose proof (max_unique _ _ _ _ H5 K5) as E5.
    pose proof (max_unique _ _ _ _ H6 K6) as E6.
    repeat split; cbn; rewrite ?E1, ?E2, ?E3, ?E4, ?E5, ?E6; reflexivity.
Qed.

End BoundingBoxClaims.

(** ** Runs of the exporter *)

Section RunFacts.
Context {L : HostLib} {H : Host}.

Lemma bind_Ok {A B} (m : M A) (k : A -> M B) w a w1 :
  m w = (Ok a, w1) -> bind m k w = k a w1.
Proof. unfold bind. now intros ->. Qed.

Lemma bind_Raise {A B} (m : M A) (k : A -> M B) w e w1 :
  m w = (Raise e, w1) -> bind m k w = (Raise e, w1).
Proof. unfold bind. now intros ->. Qed.

(** The loop runs [output_frame] on the frames of [frames_before]. *)
Lemma frames_loop_for_each self frame_start frame_end frame w :
  frames_loop self frame_start frame_end frame w
  = for_each (frames_before (frame_skip self) frame_end frame)
             (fun f => output_frame self f frame_start) w.
Proof.
  funelim (frames_loop self frame_start frame_end frame w).
  all: try (rewrite frames_before_done by lia; reflexivity).
  all: rewrite frames_before_start by assumption; cbn [for_each];
    unfold bind at 1;
    match goal with E : output_frame _ _ _ _ = _ |- _ => rewrite E end;
    try assumption; reflexivity.
Qed.

Lemma for_each_app {A} (l1 l2 : list A) (body : A -> M unit) w :
  for_each (l1 ++ l2) body w
  = bind (for_each l1 body) (fun _ => for_each l2 body) w.
Proof.
  revert w. induction l1 as [|x l1 IH]; intros w; cbn.
  - reflexivity.
  - unfold bind. destruct (body x w) as [[[]|e] w1]; [|reflexivity].
    rewrite IH. reflexivity.
Qed.

(** [output_one_animation] calls [output_frame] on the frames of [Sample],
    in order, between the opening and the closing line. *)
Lemma output_one_animation_frames self name frame_start frame_end w :
  output_one_animation self name frame_start frame_end w
  = bind (write (animation_open name))
      (fun _ =>
         bind (for_each (Sample frame_start frame_end (frame_skip self))
                        (fun f => output_frame self f frame_start))
              (fun _ => write animation_close)) w.
Proof.
  unfold output_one_animation, Sample, bind. cbn [write].
  rewrite for_each_app, frames_loop_for_each. unfold bind.
  destruct (for_each _ _ _) as [[[]|e] w1]; [|reflexivity].
  cbn [for_each]. unfold bind, ret.
  destruct (output_frame self frame_end frame_start w1) as [[[]|e] w2];
    reflexivity.
Qed.

End RunFacts.

(** ** Relations kept by every step of a run *)

Section Steps.
Context {L : HostLib} {H : Host}.
Variable R : World -> World -> Prop.
Hypothesis R_refl : forall w, R w w.
Hypothesis R_trans : forall a b c, R a b -> R b c -> R a c.

Lemma steps_reader {A} (m : M A) : (forall w, snd (m w) = w) -> steps R m.
Proof. intros Hm w. rewrite Hm. apply R_refl. Qed.

Lemma steps_ret {A} (a : A) : steps R (ret a).
Proof. now apply steps_reader. Qed.

Lemma steps_raise {A} e : steps R (raise (A := A) e).
Proof. now apply steps_reader. Qed.

Lemma steps_bind {A B} (m : M A) (k : A -> M B) :
  steps R m -> (forall a, steps R (k a)) -> steps R (bind m k).
Proof.
  intros Hm Hk w. unfold bind. specialize (Hm w).
  destruct (m w) as [[a|e] w1]; cbn in *; [|assumption].
  eapply R_trans; [eassumption | apply Hk].
Qed.

Lemma steps_try_finally {A} (body : M A) (final : M unit) :
  steps R body -> steps R final -> steps R (try_finally body final).
Proof.
  intros Hb Hf w. unfold try_finally. specialize (Hb w).
  destruct (body w) as [r w1]. specialize (Hf w1).
  destruct (final w1) as [[[]|e] w2]; cbn in *; eapply R_trans; eassumption.
Qed.

Lemma steps_for_each {A} (l : list A) (body : A -> M unit) :
  (forall x, steps R (body x)) -> steps R (for_each l body).
Proof.
  intros Hbody. induction l as [|x l IH]; cbn.
  - apply steps_ret.
  - apply steps_bind; [apply Hbody | intros _; exact IH].
Qed.

Lemma steps_get_blend : steps R get_blend.
Proof. now apply steps_reader. Qed.

Lemma steps_get_old_objects : steps R get_old_objects.
Proof. now apply steps_reader. Qed.

Lemma steps_get_old_objects_len : steps R get_old_objects_len.
Proof. now apply steps_reader. Qed.

Lemma steps_select_get ob : steps R (select_get ob).
Proof.
  apply steps_reader. intros w. unfold select_get.
  now destruct (find_object ob (blend w)).
Qed.

Lemma steps_read_file path : steps R (read_file path).
Proof.
  apply steps_reader. intros w. unfold read_file.
  now destruct (find _ _).
Qed.

Lemma steps_current_bounding_box self : steps R (current_bounding_box self).
Proof. now apply steps_reader. Qed.

Hypothesis R_host : forall op, host_call op -> steps R (host op).
Hypothesis R_files :
  forall w fs, R w (set_blend w (set_files (blend w) fs)).
Hypothesis R_old :
  forall w old n,
    R w {| blend := blend w; output_file := output_file w;
           output_closed := output_closed w; old_objects := old;
           old_objects_len := n; action_log := action_log w |}.
Hypothesis R_delete : steps R (host object_delete).

Lemma steps_remove_file path : steps R (remove_file path).
Proof.
  intros w. unfold remove_file.
  destruct (find _ _); cbn; [apply R_files | apply R_refl].
Qed.

Lemma steps_make_duplicates_real_before : steps R make_duplicates_real_before.
Proof.
  intros w. unfold make_duplicates_real_before.
  eapply R_trans; [apply R_old|].
  apply steps_bind; [|intros _]; apply R_host; constructor.
Qed.

Lemma steps_select_duplicates objects new_objects :
  forall count, steps R (select_duplicates objects new_objects count).
Proof.
  induction objects as [|ob objects IH]; intros count; cbn.
  - apply steps_ret.
  - apply steps_bind; [apply steps_get_old_objects | intros old].
    apply steps_bind; [apply R_host; constructor | intros _].
    apply steps_bind; [apply steps_select_get | intros selected].
    apply IH.
Qed.

Lemma steps_make_duplicates_real_after : steps R make_duplicates_real_after.
Proof.
  unfold make_duplicates_real_after.
  apply steps_bind; [apply steps_get_blend | intros b].
  apply steps_bind; [apply steps_get_old_objects_len | intros old_len].
  apply steps_bind.
  { destruct (_ <? _)%Z; [apply steps_raise | apply steps_ret]. }
  intros _. apply steps_bind; [apply steps_get_old_objects | intros old].
  apply steps_bind.
  { destruct (negb _); [|apply steps_ret].
    apply steps_bind; [apply steps_get_blend | intros b1].
    apply steps_bind; [apply steps_select_duplicates | intros count].
    apply steps_bind; [|intros _; apply R_delete].
    destruct (negb _); [apply steps_raise | apply steps_ret]. }
  intros _. apply steps_bind; [apply steps_get_blend | intros b2].
  apply steps_bind; [apply steps_get_old_objects_len | intros old_len2].
  destruct (negb _); [apply steps_raise | apply steps_ret].
Qed.

Hypothesis R_write : forall s, steps R (write s).

Lemma steps_output_frame_gltf self : steps R (output_frame_gltf self).
Proof.
  unfold output_frame_gltf. destruct (os_path_split _) as [dir base].
  apply steps_bind; [apply R_host; constructor | intros _].
  apply steps_bind; [apply steps_read_file | intros text].
  apply steps_bind; [apply steps_remove_file | intros _].
  apply R_write.
Qed.

Lemma steps_output_frame_x3d self : steps R (output_frame_x3d self).
Proof.
  unfold output_frame_x3d, fix_scene_before_x3d_export.
  destruct (os_path_split _) as [dir base].
  apply steps_bind; [apply R_host; constructor | intros _].
  apply steps_bind; [apply R_host; constructor | intros _].
  apply steps_bind; [apply steps_read_file | intros text].
  apply steps_bind; [apply steps_remove_file | intros _].
  apply R_write.
Qed.

Lemma steps_document self :
  steps R (match frame_format self with
           | GLTF => output_frame_gltf self
           | X3D => output_frame_x3d self
           end).
Proof.
  destruct (frame_format self);
    [apply steps_output_frame_gltf | apply steps_output_frame_x3d].
Qed.

(** What [output_frame] does once the [<frame ...>] line is written. *)
Lemma steps_frame_rest self :
  steps R
    (bind (match frame_format self with
           | GLTF => output_frame_gltf self
           | X3D => output_frame_x3d self
           end)
       (fun _ =>
          bind (write frame_close)
            (fun _ =>
               if make_duplicates_real self
               then make_duplicates_real_after else ret tt))).
Proof.
  apply steps_bind.
  { destruct (frame_format self);
      [apply steps_output_frame_gltf | apply steps_output_frame_x3d]. }
  intros _. apply steps_bind; [apply R_write | intros _].
  destruct (make_duplicates_real self);
    [apply steps_make_duplicates_real_after | apply steps_ret].
Qed.

(** What [output_frame] does before it writes. *)
Lemma steps_frame_setup self frame :
  steps R
    (bind (host (frame_set frame))
       (fun _ =>
          if make_duplicates_real self
          then make_duplicates_real_before else ret tt)).
Proof.
  apply steps_bind; [apply R_host; constructor | intros _].
  destruct (make_duplicates_real self);
    [apply steps_make_duplicates_real_before | apply steps_ret].
Qed.

Lemma steps_output_frame self frame frame_start :
  steps R (output_frame self frame frame_start).
Proof.
  unfold output_frame.
  apply steps_bind; [apply R_host; constructor | intros _].
  apply steps_bind.
  { destruct (make_duplicates_real self);
      [apply steps_make_duplicates_real_before | apply steps_ret]. }
  intros _.
  apply steps_bind; [apply steps_current_bounding_box | intros [center size]].
  apply steps_bind; [apply R_write | intros _].
  apply steps_frame_rest.
Qed.

Lemma steps_frames_loop self frame_start frame_end frame :
  steps R (frames_loop self frame_start frame_end frame).
Proof.
  intros w. rewrite frames_loop_for_each.
  apply steps_for_each. intros f. apply steps_output_frame.
Qed.

Lemma steps_output_one_animation self name frame_start frame_end :
  steps R (output_one_animation self name frame_start frame_end).
Proof.
  unfold output_one_animation.
  apply steps_bind; [apply R_write | intros _].
  apply steps_bind; [apply steps_frames_loop | intros _].
  apply steps_bind; [apply steps_output_frame | intros _].
  apply R_write.
Qed.

End Steps.

(** ** What is written to the output file *)

Section Written.
Context {L : HostLib} {H : Host}.

Lemma appended_refl w : appended w w.
Proof. exists []. now rewrite app_nil_r. Qed.

Lemma appended_trans a b c : appended a b -> appended b c -> appended a c.
Proof.
  intros [l1 H1] [l2 H2]. exists (l1 ++ l2).
  now rewrite H2, H1, app_assoc.
Qed.

Lemma unwritten_appended a b : unwritten a b -> appended a b.
Proof. intros Hu. exists []. now rewrite app_nil_r. Qed.

Lemma unwritten_trans a b c : unwritten a b -> unwritten b c -> unwritten a c.
Proof. unfold unwritten. congruence. Qed.

Lemma unwritten_host {A} (op : Blend -> outcome A * Blend) :
  steps unwritten (host op).
Proof. intros w. unfold host. now destruct (op (blend w)). Qed.

Lemma appended_host {A} (op : Blend -> outcome A * Blend) :
  steps appended (host op).
Proof. intros w. apply unwritten_appended, unwritten_host. Qed.

Lemma appended_write s : steps appended (write s).
Proof. intros w. now exists [s]. Qed.

Lemma appended_host_call op : host_call op -> steps appended (host op).
Proof. intros _. apply appended_host. Qed.

Lemma unwritten_host_call op : host_call op -> steps unwritten (host op).
Proof. intros _. apply unwritten_host. Qed.

Lemma unwritten_refl w : unwritten w w.
Proof. reflexivity. Qed.

Lemma unwritten_files w fs :
  unwritten w (set_blend w (set_files (blend w) fs)).
Proof. reflexivity. Qed.

Lemma appended_files w fs :
  appended w (set_blend w (set_files (blend w) fs)).
Proof. apply unwritten_appended, unwritten_files. Qed.

Lemma unwritten_old w old n :
  unwritten w {| blend := blend w; output_file := output_file w;
                 output_closed := output_closed w; old_objects := old;
                 old_objects_len := n; action_log := action_log w |}.
Proof. reflexivity. Qed.

Lemma appended_old w old n :
  appended w {| blend := blend w; output_file := output_file w;
                output_closed := output_closed w; old_objects := old;
                old_objects_len := n; action_log := action_log w |}.
Proof. apply unwritten_appended, unwritten_old. Qed.

Ltac side_conditions :=
  first [ exact appended_refl | exact appended_trans
        | exact appended_host_call | exact appended_files
        | exact appended_old | exact appended_write
        | exact (appended_host object_delete)
        | exact unwritten_refl | exact unwritten_trans
        | exact unwritten_host_call | exact unwritten_files
        | exact unwritten_old | exact (unwritten_host object_delete) ].

Lemma unwritten_frame_setup self frame :
  steps unwritten
    (bind (host (frame_set frame))
       (fun _ =>
          if make_duplicates_real self
          then make_duplicates_real_before else ret tt)).
Proof. apply steps_frame_setup; side_conditions. Qed.

Lemma unwritten_make_duplicates_real_after :
  steps unwritten make_duplicates_real_after.
Proof. apply steps_make_duplicates_real_after; side_conditions. Qed.

Lemma appended_frame_rest self :
  steps appended
    (bind (match frame_format self with
           | GLTF => output_frame_gltf self
           | X3D => output_frame_x3d self
           end)
       (fun _ =>
          bind (write frame_close)
            (fun _ =>
               if make_duplicates_real self
               then make_duplicates_real_after else ret tt))).
Proof. apply steps_frame_rest; side_conditions. Qed.

Lemma appended_output_frame self frame frame_start :
  steps appended (output_frame self frame frame_start).
Proof. apply steps_output_frame; side_conditions. Qed.

(** A successful export of the document writes it as one string. *)
Lemma document_written self w w' :
  (match frame_format self with
   | GLTF => output_frame_gltf self
   | X3D => output_frame_x3d self
   end) w = (Ok tt, w') ->
  exists document, output_file w' = output_file w ++ [document].
Proof.
  assert (Hremove : forall path, steps unwritten (remove_file path)).
  { intros path v. unfold remove_file. now destruct (find _ _). }
  assert (Hread : forall path v r v',
             read_file path v = (r, v') -> v' = v).
  { intros path v r v'. unfold read_file.
    destruct (find _ _); intros [= _ <-]; reflexivity. }
  destruct (frame_format self);
    unfold output_frame_gltf, output_frame_x3d, fix_scene_before_x3d_export;
    destruct (os_path_split _) as [dir base]; unfold bind;
    repeat match goal with
      | |- context [host ?op ?v] =>
          let E := fresh "E" in
          pose proof (unwritten_host op v) as E;
          destruct (host op v) as [[[]|?] ?]; cbn in E; [|discriminate]
      end;
    match goal with
    | |- context [read_file ?p ?v] =>
        let E := fresh "E" in
        destruct (read_file p v) as [[text|?] ?] eqn:E; [|discriminate];
        apply Hread in E; subst
    end;
    match goal with
    | |- context [remove_file ?p ?v] =>
        let E := fresh "E" in
        pose proof (Hremove p v) as E;
        destruct (remove_file p v) as [[[]|?] ?]; cbn in E; [|discriminate]
    end;
    cbn; intros [= <-]; cbn; eexists; unfold unwritten in *;
    repeat match goal with E : output_file _ = _ |- _ => rewrite E; clear E end;
    reflexivity.
Qed.

(** [output_frame] writes nothing, or first the [<frame ...>] line of its
    frame; when it returns, it has written one [<frame>] element. *)
Lemma output_frame_writes self frame frame_start w :
  (fst (output_frame self frame frame_start w) = Ok tt ->
   exists center size document,
     output_file (snd (output_frame self frame frame_start w))
     = output_file w ++ frame_chunks self frame frame_start center size document)
  /\ (output_file (snd (output_frame self frame frame_start w)) = output_file w
      \/ exists center size rest,
           output_file (snd (output_frame self frame frame_start w))
           = output_file w
             ++ frame_line (frame_time frame frame_start) (mime_type self)
                  center size :: rest).
Proof.
  pose proof (unwritten_frame_setup self frame w) as Hsetup.
  unfold bind, unwritten in Hsetup. unfold output_frame.
  destruct (host (frame_set frame) w) as [[[]|e] w1] eqn:E1;
    [rewrite (bind_Ok _ _ _ _ _ E1)
    |rewrite (bind_Raise _ _ _ _ _ E1); cbn in *;
     split; [discriminate | left; exact Hsetup]].
  destruct ((if make_duplicates_real self
             then make_duplicates_real_before else ret tt) w1)
    as [[[]|e] w2] eqn:E2;
    [rewrite (bind_Ok _ _ _ _ _ E2)
    |rewrite (bind_Raise _ _ _ _ _ E2); cbn in *;
     split; [discriminate | left; exact Hsetup]].
  cbn in Hsetup.
  destruct (current_bounding_box self w2) as [[[center size]|e] w2'] eqn:E3;
    [rewrite (bind_Ok _ _ _ _ _ E3)
    |rewrite (bind_Raise _ _ _ _ _ E3)];
    unfold current_bounding_box in E3; injection E3 as E3 <-;
    [|cbn; split; [discriminate | left; exact Hsetup]].
  assert (E4 : exists w3,
             write (frame_line (frame_time frame frame_start)
                      (mime_type self) center size) w2 = (Ok tt, w3)
             /\ output_file w3
                = output_file w2
                  ++ [frame_line (frame_time frame frame_start)
                        (mime_type self) center size])
    by (eexists; split; reflexivity).
  destruct E4 as (w3 & E4 & Hw3). rewrite (bind_Ok _ _ _ _ _ E4).
  pose proof (appended_frame_rest self w3) as [rest Hrest].
  split.
  - destruct ((match frame_format self with
               | GLTF => output_frame_gltf self
               | X3D => output_frame_x3d self
               end) w3) as [[[]|e] w4] eqn:Edoc;
      [rewrite (bind_Ok _ _ _ _ _ Edoc)
      |rewrite (bind_Raise _ _ _ _ _ Edoc); discriminate].
    apply document_written in Edoc. destruct Edoc as [document Edoc].
    assert (E5 : exists w5, write frame_close w4 = (Ok tt, w5)
                            /\ output_file w5 = output_file w4 ++ [frame_close])
      by (eexists; split; reflexivity).
    destruct E5 as (w5 & E5 & Hw5). rewrite (bind_Ok _ _ _ _ _ E5).
    intros Hok. exists center, size, document.
    assert (Hlast : output_file
                      (snd ((if make_duplicates_real self
                             then make_duplicates_real_after
                             else ret tt) w5)) = output_file w5).
    { destruct (make_duplicates_real self); [|reflexivity].
      apply unwritten_make_duplicates_real_after. }
    rewrite Hlast, Hw5, Edoc, Hw3, Hsetup.
    unfold frame_chunks. now rewrite <- !app_assoc.
  - right. exists center, size, rest.
    rewrite Hrest, Hw3, Hsetup. now rewrite <- app_assoc.
Qed.

End Written.

(** ** The lines of an animation *)

Section AnimationClaims.
Context {L : HostLib} {H : Host}.

Lemma appended_frames_then_close self frame_start (frames : list Z) :
  steps appended
    (bind (for_each frames (fun f => output_frame self f frame_start))
          (fun _ => write animation_close)).
Proof.
  apply (steps_bind appended appended_trans).
  - apply (steps_for_each appended appended_refl appended_trans).
    intros f. apply appended_output_frame.
  - intros _. apply appended_write.
Qed.

Lemma frame_time_start frame_start :
  (frame_time frame_start frame_start == 0)%Q.
Proof. unfold frame_time. rewrite Z.sub_diag. reflexivity. Qed.

(** What [output_frame] and [output_one_animation] write first, in terms
    of [frame_line] and [frame_time]. *)
Lemma frame_lines_written self frame_start :
  (forall frame w,
      (fst (output_frame self frame frame_start w) = Ok tt ->
       exists center size document,
         output_file (snd (output_frame self frame frame_start w))
         = output_file w
           ++ frame_chunks self frame frame_start center size document)
      /\ (output_file (snd (output_frame self frame frame_start w))
          = output_file w
          \/ exists center size rest,
               output_file (snd (output_frame self frame frame_start w))
               = output_file w
                 ++ frame_line (inject_Z (frame - frame_start) / 25)
                      (mime_type self) center size :: rest))
  /\ (forall name frame_end w,
         frame_start <= frame_end ->
         (frame_time frame_start frame_start == 0)%Q
         /\ (output_file
               (snd (output_one_animation self name frame_start frame_end w))
             = output_file w ++ [animation_open name]
             \/ exists center size rest,
                  output_file
                    (snd (output_one_animation self name frame_start
                            frame_end w))
                  = output_file w
                    ++ animation_open name
                    :: frame_line (frame_time frame_start frame_start)
                         (mime_type self) center size :: rest)).
Proof.
  split.
  - intros frame w. apply output_frame_writes.
  - intros name frame_end w Hle. split; [apply frame_time_start|].
    rewrite output_one_animation_frames.
    destruct (Sample_head frame_start frame_end (frame_skip self) Hle)
      as [frames ->].
    assert (E1 : exists w1,
               write (animation_open name) w = (Ok tt, w1)
               /\ output_file w1 = output_file w ++ [animation_open name])
      by (eexists; split; reflexivity).
    destruct E1 as (w1 & E1 & Hw1). rewrite (bind_Ok _ _ _ _ _ E1).
    cbn [for_each].
    destruct (output_frame_writes self frame_start frame_start w1)
      as [Hok Hany].
    pose proof (appended_frames_then_close self frame_start frames) as Hrest.
    unfold bind in *.
    destruct (output_frame self frame_start frame_start w1)
      as [[[]|e] w2]; cbn in Hok, Hany.
    + destruct (Hok eq_refl) as (center & size & document & Hw2).
      right. exists center, size.
      destruct (Hrest w2) as [more Hmore]. unfold bind in Hmore.
      eexists. rewrite Hmore, Hw2, Hw1. unfold frame_chunks.
      rewrite <- !app_assoc. cbn. reflexivity.
    + cbn. destruct Hany as [Hw2 | (center & size & rest & Hw2)].
      * left. now rewrite Hw2.
      * right. exists center, size, rest.
        rewrite Hw2, Hw1. now rewrite <- app_assoc.
Qed.

(** C8: the [<frame>] line written for a frame is the string
    [<frame time="T" mime_type=... bounding_box_center=... bounding_box_size=...>]
    (after two tabs, before a newline) in which [T] is the [%f] formatting
    of (frame - frame_start) / 25, whatever the host and its scene are: no
    frame rate is read.  [output_frame] writes nothing, or this line first;
    when it returns it has written the line, the document and the closing
    line.  With [frame_start <= frame_end], the line of the first frame of
    an animation carries the formatting of 0 / 25, which is 0. *)
Theorem frame_time_is_offset_over_25 self frame_start :
  let line := fun (time : Q) (center size : Vec3) =>
    (tab ++ tab ++ "<frame time=" ++ dq ++ format_f time ++ dq
     ++ " mime_type=" ++ dq
     ++ match frame_format self with
        | GLTF => "model/gltf+json"
        | X3D => "model/x3d+vrml"
        end ++ dq
     ++ " bounding_box_center=" ++ dq ++ format_f (vx center) ++ " "
     ++ format_f (vy center) ++ " " ++ format_f (vz center) ++ dq
     ++ " bounding_box_size=" ++ dq ++ format_f (vx size) ++ " "
     ++ format_f (vy size) ++ " " ++ format_f (vz size) ++ dq ++ ">"
     ++ nl)%string in
  (forall frame w,
      (fst (output_frame self frame frame_start w) = Ok tt ->
       exists center size document,
         output_file (snd (output_frame self frame frame_start w))
         = output_file w
           ++ [line (inject_Z (frame - frame_start) / 25)%Q center size;
               document;
               (nl ++ tab ++ tab ++ "</frame>" ++ nl)%string])
      /\ (output_file (snd (output_frame self frame frame_start w))
          = output_file w
          \/ exists center size rest,
               output_file (snd (output_frame self frame frame_start w))
               = output_file w
                 ++ line (inject_Z (frame - frame_start) / 25)%Q center size
                 :: rest))
  /\ (forall name frame_end w,
         frame_start <= frame_end ->
         (inject_Z 0 / 25 == 0)%Q
         /\ (output_file
               (snd (output_one_animation self name frame_start frame_end w))
             = output_file w ++ [animation_open name]
             \/ exists center size rest,
                  output_file
                    (snd (output_one_animation self name frame_start
                            frame_end w))
                  = output_file w
                    ++ animation_open name
                    :: line (inject_Z 0 / 25)%Q center size :: rest)).
Proof.
  intros line.
  destruct (frame_lines_written self frame_start) as [Hframe Hfirst].
  split.
  - exact Hframe.
  - intros name frame_end w Hle.
    destruct (Hfirst name frame_end w Hle) as [_ Hwritten].
    split; [reflexivity|].
    unfold frame_time in Hwritten. rewrite Z.sub_diag in Hwritten.
    exact Hwritten.
Qed.

(** C10: for a non-empty name, the opening line of the animation is the
    string [<animation name="] followed by the name as it is and by [">]:
    whatever characters the name holds reach the output unchanged. *)
Theorem animation_name_written_verbatim self name frame_start frame_end w :
  name <> EmptyString ->
  exists rest,
    output_file (snd (output_one_animation self name frame_start frame_end w))
    = output_file w
      ++ (tab ++ "<animation name=" ++ dq ++ name ++ dq ++ ">" ++ nl)%string
      :: rest.
Proof.
  intros Hname. rewrite output_one_animation_frames.
  assert (E1 : exists w1,
             write (animation_open name) w = (Ok tt, w1)
             /\ output_file w1 = output_file w ++ [animation_open name])
    by (eexists; split; reflexivity).
  destruct E1 as (w1 & E1 & Hw1). rewrite (bind_Ok _ _ _ _ _ E1).
  destruct (appended_frames_then_close self frame_start
              (Sample frame_start frame_end (frame_skip self)) w1)
    as [rest Hrest].
  exists rest. rewrite Hrest, Hw1. unfold animation_open.
  apply String.eqb_neq in Hname. rewrite Hname.
  now rewrite <- app_assoc.
Qed.

(** C7: when [actions_object] names an object of the scene and no action is
    gathered for it, [execute] raises [Exception] with a message that holds
    the name; the output file then holds the XML declaration and the
    [<animations>] line only, and is not closed. *)
Theorem no_action_found self w o :
  actions_object self <> EmptyString ->
  find (fun ob => String.eqb (ob_name ob) (actions_object self))
       (scene_objects (blend w)) = Some o ->
  actions_to_export (blend w) (ob_id o) = [] ->
  exists w',
    execute self w
    = (Raise (Exception [PStr ("No action found on object " ++ dq
                               ++ actions_object self ++ dq)]), w')
    /\ output_file w'
       = [("<?xml version=" ++ dq ++ "1.0" ++ dq ++ "?>" ++ nl)%string;
          ("<animations>" ++ nl)%string]
    /\ output_closed w' = false
    /\ blend w' = blend w.
Proof.
  intros Hname Hfind Hnone.
  apply String.eqb_neq in Hname.
  unfold execute, bind, open_output, write, lookup_object, get_blend.
  cbn. rewrite Hname. cbn. rewrite Hfind. cbn. rewrite Hnone. cbn.
  eexists. split; [reflexivity|]. cbn. auto.
Qed.

End AnimationClaims.

(** ** The action bound to the object of [actions_object] *)

Section Leads.
Context {L : HostLib}.

Lemma leads_bind {A B} (P Q S : World -> Prop) (m : M A) (k : A -> M B) :
  leads P Q m -> (forall a, leads Q S (k a)) -> (forall w, Q w -> S w) ->
  leads P S (bind m k).
Proof.
  intros Hm Hk HQS w HP. unfold bind. specialize (Hm w HP).
  destruct (m w) as [[a|e] w1]; cbn in *; [now apply Hk | now apply HQS].
Qed.

Lemma leads_weaken {A} (P Q S : World -> Prop) (m : M A) :
  leads P Q m -> (forall w, Q w -> S w) -> leads P S m.
Proof. intros Hm HQS w HP. apply HQS, Hm, HP. Qed.

Lemma leads_reader {A} (P : World -> Prop) (m : M A) :
  (forall w, snd (m w) = w) -> leads P P m.
Proof. intros Hm w HP. now rewrite Hm. Qed.

Lemma leads_get_blend {B} (P S : World -> Prop) (k : Blend -> M B) :
  (forall w, P w -> S (snd (k (blend w) w))) -> leads P S (bind get_blend k).
Proof. intros Hk w HP. unfold bind, get_blend. now apply Hk. Qed.

Lemma leads_if {A} (P S : World -> Prop) (c : bool) (m1 m2 : M A) :
  leads P S m1 -> leads P S m2 -> leads P S (if c then m1 else m2).
Proof. now destruct c. Qed.

End Leads.

Lemma mem_In x l : mem x l = true <-> In x l.
Proof.
  unfold mem. rewrite existsb_exists. split.
  - intros (y & Hin & Heq). apply Nat.eqb_eq in Heq. now subst.
  - intros Hin. exists x. split; [assumption | apply Nat.eqb_refl].
Qed.

Section Binding.
Context {L : HostLib} {H : Host}.
Variable ob : nat.
Hypothesis W : host_keeps_object ob.

Lemma has_animation_data_in_scene b :
  has_animation_data ob b -> In ob (object_ids b).
Proof.
  intros [action Hb]. unfold bound_action, find_object in Hb.
  destruct (find _ _) as [o|] eqn:E; [|discriminate].
  apply find_some in E. destruct E as [Hin Heq].
  apply Nat.eqb_eq in Heq. subst ob.
  unfold object_ids. now apply in_map.
Qed.

Lemma binding_host log op :
  host_call op -> leads (binding ob log) (binding ob log) (host op).
Proof.
  intros Hc w [Ha Hl]. unfold host.
  pose proof (kept_by_calls ob W op Hc (blend w) Ha) as Hkept.
  destruct (op (blend w)) as [r b]. now split.
Qed.

Lemma binding_old_host log op :
  host_call op -> leads (binding_old ob log) (binding_old ob log) (host op).
Proof.
  intros Hc w [Hb Hold]. split.
  - now apply binding_host.
  - unfold host. now destruct (op (blend w)).
Qed.

Lemma binding_write log s :
  leads (binding ob log) (binding ob log) (write s).
Proof. intros w Hb. exact Hb. Qed.

Lemma binding_old_write log s :
  leads (binding_old ob log) (binding_old ob log) (write s).
Proof. intros w Hb. exact Hb. Qed.

Lemma binding_document log self :
  leads (binding ob log) (binding ob log)
    (match frame_format self with
     | GLTF => output_frame_gltf self
     | X3D => output_frame_x3d self
     end).
Proof.
  apply (steps_document (fun w w' => binding ob log w -> binding ob log w')).
  - auto.
  - auto.
  - apply binding_host.
  - intros w fs Hb. exact Hb.
  - apply binding_write.
Qed.

Lemma binding_old_document log self :
  leads (binding_old ob log) (binding_old ob log)
    (match frame_format self with
     | GLTF => output_frame_gltf self
     | X3D => output_frame_x3d self
     end).
Proof.
  apply (steps_document
           (fun w w' => binding_old ob log w -> binding_old ob log w')).
  - auto.
  - auto.
  - apply binding_old_host.
  - intros w fs Hb. exact Hb.
  - apply binding_old_write.
Qed.

(** The first hook records the object among [old_objects]. *)
Lemma binding_make_duplicates_real_before log :
  leads (binding ob log) (binding_old ob log) make_duplicates_real_before.
Proof.
  intros w [Ha Hl]. unfold make_duplicates_real_before.
  apply (leads_bind (binding_old ob log) (binding_old ob log)).
  - apply binding_old_host. constructor.
  - intros _. apply binding_old_host. constructor.
  - auto.
  - split; [now split|]. cbn. now apply has_animation_data_in_scene.
Qed.

(** The selection loop of the second hook leaves the object deselected. *)
Lemma binding_select_duplicates log new_objects :
  forall objects count w r w',
    select_duplicates objects new_objects count w = (r, w') ->
    binding_old ob log w ->
    is_selected ob (blend w) = false \/ In ob objects ->
    binding_old ob log w'
    /\ (forall c, r = Ok c -> is_selected ob (blend w') = false).
Proof.
  induction objects as [|o objects IH]; intros count w r w' Hrun Hb Hsel.
  - cbn in Hrun. injection Hrun as <- <-. split; [assumption|].
    intros c _. destruct Hsel as [Hsel | []]. exact Hsel.
  - cbn [select_duplicates] in Hrun.
    unfold bind at 1 in Hrun. unfold get_old_objects at 1 in Hrun.
    set (flag := mem o new_objects && negb (mem o (old_objects w))) in Hrun.
    pose proof (binding_old_host log (select_set o flag)
                  (call_select_set o flag) w Hb) as Hb1.
    assert (Hsel1 : is_selected ob
                      (blend (snd (host (select_set o flag) w))) = false
                    \/ In ob objects).
    { destruct (Nat.eq_dec o ob) as [->|Hne].
      - left. assert (flag = false) as ->.
        { unfold flag. destruct Hb as [_ Hold].
          apply mem_In in Hold. rewrite Hold. apply andb_false_r. }
        unfold host.
        pose proof (deselected_by_select_set ob W (blend w)
                      (proj1 (proj1 Hb))) as Hd.
        now destruct (select_set ob false (blend w)).
      - destruct Hsel as [Hsel | [Heq | Hin]];
          [left | congruence | now right].
        unfold host.
        pose proof (deselected_after_select_set ob W o flag (blend w) Hne
                      Hsel) as Hd.
        now destruct (select_set o flag (blend w)). }
    unfold bind at 1 in Hrun.
    destruct (host (select_set o flag) w) as [[[]|e] w1];
      cbn [fst snd] in *;
      [|injection Hrun as <- <-; split; [assumption | discriminate]].
    unfold bind at 1 in Hrun. unfold select_get at 1 in Hrun.
    destruct (find_object o (blend w1)) as [found|];
      [|injection Hrun as <- <-; split; [assumption | discriminate]].
    now apply IH in Hrun.
Qed.

(** The second hook keeps the object. *)
Lemma binding_make_duplicates_real_after log :
  leads (binding_old ob log) (binding ob log) make_duplicates_real_after.
Proof.
  assert (Hweak : forall w, binding_old ob log w -> binding ob log w)
    by (intros w Hb; apply Hb).
  assert (Hcheck : forall (P : World -> Prop) (c : bool) e,
             leads P P (if c then raise e else ret tt)).
  { intros P c e. destruct c; now apply leads_reader. }
  unfold make_duplicates_real_after.
  apply (leads_bind _ (binding_old ob log));
    [now apply leads_reader | intros b | exact Hweak].
  apply (leads_bind _ (binding_old ob log));
    [now apply leads_reader | intros old_len | exact Hweak].
  apply (leads_bind _ (binding_old ob log));
    [apply Hcheck | intros _ | exact Hweak].
  apply (leads_bind _ (binding_old ob log));
    [now apply leads_reader | intros old | exact Hweak].
  apply (leads_bind _ (binding ob log)); [| |auto].
  - apply leads_if; [|apply leads_weaken with (binding_old ob log);
                       [now apply leads_reader | exact Hweak]].
    apply leads_get_blend. intros w Hb.
    unfold bind at 1.
    destruct (select_duplicates _ _ _ w) as [r w1] eqn:Hrun.
    destruct (binding_select_duplicates log _ _ _ _ _ _ Hrun Hb)
      as [Hb1 Hsel].
    { right. apply has_animation_data_in_scene, Hb. }
    destruct r as [count|e]; cbn [fst snd] in *; [|now apply Hweak].
    specialize (Hsel _ eq_refl).
    unfold bind at 1.
    destruct (negb _); cbn; [now apply Hweak|].
    destruct Hb1 as [[Ha Hl] _]. unfold host.
    pose proof (kept_by_delete ob W (blend w1) Ha Hsel) as Hkept.
    destruct (object_delete (blend w1)) as [r b1]. now split.
  - intros _.
    apply (leads_bind _ (binding ob log));
      [now apply leads_reader | intros b2 | auto].
    apply (leads_bind _ (binding ob log));
      [now apply leads_reader | intros old_len2 | auto].
    apply Hcheck.
Qed.

Lemma binding_output_frame log self frame frame_start :
  leads (binding ob log) (binding ob log)
    (output_frame self frame frame_start).
Proof.
  assert (Hweak : forall w, binding_old ob log w -> binding ob log w)
    by (intros w Hb; apply Hb).
  unfold output_frame.
  apply (leads_bind _ (binding ob log));
    [apply binding_host; constructor | intros _ | auto].
  destruct (make_duplicates_real self).
  - apply (leads_bind _ (binding_old ob log));
      [apply binding_make_duplicates_real_before | intros _ | exact Hweak].
    apply (leads_bind _ (binding_old ob log));
      [now apply leads_reader | intros [center size] | exact Hweak].
    apply (leads_bind _ (binding_old ob log));
      [apply binding_old_write | intros _ | exact Hweak].
    apply (leads_bind _ (binding_old ob log));
      [apply binding_old_document | intros _ | exact Hweak].
    apply (leads_bind _ (binding_old ob log));
      [apply binding_old_write | intros _ | exact Hweak].
    apply binding_make_duplicates_real_after.
  - apply (leads_bind _ (binding ob log));
      [now apply leads_reader | intros _ | auto].
    apply (leads_bind _ (binding ob log));
      [now apply leads_reader | intros [center size] | auto].
    apply (leads_bind _ (binding ob log));
      [apply binding_write | intros _ | auto].
    apply (leads_bind _ (binding ob log));
      [apply binding_document | intros _ | auto].
    apply (leads_bind _ (binding ob log));
      [apply binding_write | intros _ | auto].
    now apply leads_reader.
Qed.

Lemma binding_output_one_animation log self name frame_start frame_end :
  leads (binding ob log) (binding ob log)
    (output_one_animation self name frame_start frame_end).
Proof.
  intros w. rewrite output_one_animation_frames. revert w.
  apply (leads_bind _ (binding ob log));
    [apply binding_write | intros _ | auto].
  apply (leads_bind _ (binding ob log));
    [|intros _; apply binding_write | auto].
  apply (steps_for_each (fun w w' => binding ob log w -> binding ob log w'));
    [auto | auto |].
  intros f. apply binding_output_frame.
Qed.

End Binding.

Section Restore.
Context {L : HostLib} {H : Host}.

Lemma ob_id_bind_action ob action o :
  ob_id (bind_action ob action o) = ob_id o.
Proof. unfold bind_action. now destruct (Nat.eqb (ob_id o) ob). Qed.

Lemma find_bind_action ob action objects :
  find (fun o => Nat.eqb (ob_id o) ob) (map (bind_action ob action) objects)
  = option_map (bind_action ob action)
      (find (fun o => Nat.eqb (ob_id o) ob) objects).
Proof.
  induction objects as [|o objects IH]; cbn; [reflexivity|].
  rewrite ob_id_bind_action.
  destruct (Nat.eqb (ob_id o) ob); [reflexivity | exact IH].
Qed.

(** An assignment to the action succeeds on an object that has animation
    data, binds the action and is logged. *)
Lemma set_action_binding ob log action w :
  binding ob log w ->
  exists w',
    set_action ob action w = (Ok tt, w')
    /\ binding ob (log ++ [action]) w'
    /\ bound_action ob (blend w') = Some action.
Proof.
  intros [[current Hb] Hl]. unfold bound_action in Hb. unfold set_action.
  destruct (find_object ob (blend w)) as [o|] eqn:Efind; [|discriminate].
  rewrite Hb. eexists. split; [reflexivity|].
  assert (Hbound : bound_action ob
                     (set_objects (blend w)
                        (map (bind_action ob action)
                             (scene_objects (blend w)))) = Some action).
  { unfold bound_action, find_object. cbn [scene_objects set_objects].
    rewrite find_bind_action. unfold find_object in Efind. rewrite Efind.
    cbn. unfold bind_action.
    apply find_some in Efind. destruct Efind as [_ Heq]. now rewrite Heq. }
  split; [split|]; cbn.
  - now exists action.
  - now rewrite Hl.
  - exact Hbound.
Qed.

Lemma binding_export_actions ob self :
  host_keeps_object ob ->
  forall actions log w r w',
    for_each actions (export_action self ob) w = (r, w') ->
    binding ob log w ->
    exists k,
      (k <= List.length actions)%nat
      /\ (actions <> [] -> (0 < k)%nat)
      /\ binding ob
           (log ++ map (fun a => Some (act_id a)) (firstn k actions)) w'
      /\ (r = Ok tt -> k = List.length actions).
Proof.
  intros W. induction actions as [|a actions IH]; intros log w r w' Hrun Hb.
  - cbn in Hrun. injection Hrun as <- <-. exists O. cbn.
    rewrite app_nil_r.
    split; [lia|]. split; [congruence|]. split; [assumption | reflexivity].
  - cbn [for_each] in Hrun. unfold export_action at 1 in Hrun.
    destruct (frame_range a) as [act_start act_end].
    destruct (set_action_binding ob log (Some (act_id a)) w Hb)
      as (w1 & Hset & Hb1 & _).
    unfold bind at 1 2 in Hrun. rewrite Hset in Hrun.
    pose proof (binding_output_one_animation ob W _ self (act_name a)
                  (py_int act_start) (py_int act_end) w1 Hb1) as Hb2.
    destruct (output_one_animation _ _ _ _ w1) as [[[]|e] w2];
      cbn [snd] in Hb2.
    + destruct (IH _ _ _ _ Hrun Hb2) as (k & Hk & _ & Hbk & Hok).
      exists (S k). cbn [firstn map List.length].
      rewrite <- app_assoc in Hbk. cbn in Hbk.
      split; [lia|]. split; [intros _; lia|]. split; [exact Hbk|].
      intros Hr. now rewrite (Hok Hr).
    + injection Hrun as <- <-. exists 1%nat. cbn [firstn map List.length].
      split; [lia|]. split; [intros _; lia|]. split; [exact Hb2|].
      discriminate.
Qed.

Lemma len_positive {A} (l : list A) : l <> [] -> (len l >? 0)%Z = true.
Proof.
  destruct l; [congruence|]. intros _. unfold len. cbn [List.length].
  apply Z.gtb_lt. lia.
Qed.

(** C6: in actions mode, with an object that has animation data and at
    least one action to export, the run ends with the original action
    bound again, on both exits: the assignments made to the action are
    those of the actions gone through, in order, followed by one assignment
    of the original action. *)
Theorem original_action_restored self w o original :
  actions_object self <> EmptyString ->
  find (fun ob => String.eqb (ob_name ob) (actions_object self))
       (scene_objects (blend w)) = Some o ->
  bound_action (ob_id o) (blend w) = Some original ->
  actions_to_export (blend w) (ob_id o) <> [] ->
  host_keeps_object (ob_id o) ->
  exists k,
    (0 < k <= List.length (actions_to_export (blend w) (ob_id o)))%nat
    /\ bound_action (ob_id o) (blend (snd (execute self w))) = Some original
    /\ action_log (snd (execute self w))
       = action_log w
         ++ map (fun a => Some (act_id a))
              (firstn k (actions_to_export (blend w) (ob_id o)))
         ++ [original]
    /\ ((fst (execute self w) = Ok ["FINISHED"%string]
         /\ k = List.length (actions_to_export (blend w) (ob_id o)))
        \/ exists e, fst (execute self w) = Raise e).
Proof.
  intros Hname Hfind Hbound Hsome W.
  apply String.eqb_neq in Hname.
  destruct (execute self w) as [result w'] eqn:Hrun. cbn [fst snd].
  unfold execute in Hrun.
  rewrite (bind_Ok open_output _ w tt _ eq_refl) in Hrun.
  rewrite (bind_Ok (write _) _ _ tt _ eq_refl) in Hrun.
  rewrite (bind_Ok (write _) _ _ tt _ eq_refl) in Hrun.
  match type of Hrun with context [bind _ _ ?v] => set (w2 := v) in Hrun end.
  assert (Hb2 : binding (ob_id o) (action_log w) w2).
  { split; [now exists original | reflexivity]. }
  assert (Hlookup : lookup_object (actions_object self) w2
                    = (Ok (ob_id o), w2)).
  { unfold lookup_object. cbn [blend w2]. now rewrite Hfind. }
  assert (Hget : get_action (ob_id o) w2 = (Ok original, w2)).
  { unfold get_action. cbn [blend w2]. unfold bound_action in Hbound.
    destruct (find_object (ob_id o) (blend w)); [|discriminate].
    now rewrite Hbound. }
  assert (Hblend : blend w2 = blend w) by reflexivity.
  clearbody w2.
  unfold bind at 1 in Hrun. rewrite Hname in Hrun. cbn [negb] in Hrun.
  rewrite (bind_Ok _ _ _ _ _ Hlookup) in Hrun.
  rewrite (bind_Ok get_blend _ w2 _ _ eq_refl) in Hrun.
  rewrite Hblend, (len_positive _ Hsome) in Hrun.
  rewrite (bind_Ok _ _ _ _ _ Hget) in Hrun.
  unfold try_finally in Hrun.
  destruct (for_each _ _ w2) as [r w3] eqn:Hloop.
  destruct (binding_export_actions _ self W _ _ _ _ _ Hloop Hb2)
    as (k & Hk & Hpos & Hb3 & Hok).
  destruct (set_action_binding _ _ original w3 Hb3)
    as (w4 & Hset & [_ Hlog] & Hbound4).
  rewrite Hset in Hrun. exists k. split; [split; auto|].
  rewrite <- app_assoc in Hlog.
  destruct r as [[]|e]; cbn in Hrun; injection Hrun as <- <-; cbn.
  - repeat split; auto.
  - repeat split; auto. right. now exists e.
Qed.

End Restore.

(** ** Make Duplicates Real *)

Section Duplicates.
Context {L : HostLib} {H : Host}.

Lemma same_old_host {A} (op : Blend -> outcome A * Blend) :
  steps same_old (host op).
Proof. intros w. unfold host. now destruct (op (blend w)). Qed.

Lemma same_old_select_duplicates objects new_objects count :
  steps same_old (select_duplicates objects new_objects count).
Proof.
  apply steps_select_duplicates.
  - now split.
  - intros a b c [H1 H2] [H3 H4]. split; congruence.
  - intros op _. apply same_old_host.
Qed.

(** The second hook, check by check. *)
Lemma make_duplicates_real_after_unfold w :
  make_duplicates_real_after w
  = let new_objects := object_ids (blend w) in
    if (len new_objects <? old_objects_len w)%Z
    then (Raise less_objects_error, w)
    else
      let duplicated_objects :=
        filter (fun item => negb (mem item (old_objects w))) new_objects in
      match
        (if negb (len duplicated_objects =? 0)%Z
         then
           bind (select_duplicates new_objects new_objects 0)
             (fun selected_count =>
                bind (if negb (selected_count =? len duplicated_objects)%Z
                      then raise selection_error else ret tt)
                     (fun _ => host object_delete))
         else ret tt) w
      with
      | (Ok _, w1) =>
          if negb (len (object_ids (blend w1)) =? old_objects_len w1)%Z
          then (Raise (final_count_error (old_objects_len w1)
                         (len new_objects) (len (object_ids (blend w1)))),
                w1)
          else (Ok tt, w1)
      | (Raise e, w1) => (Raise e, w1)
      end.
Proof.
  unfold make_duplicates_real_after.
  unfold bind at 1 2 3 4 5.
  unfold get_blend at 1, get_old_objects_len at 1, get_old_objects at 1.
  cbn zeta.
  destruct (len (object_ids (blend w)) <? old_objects_len w)%Z;
    [reflexivity|]. cbn [ret].
  destruct (negb (len _ =? 0)%Z).
  - unfold bind at 1. unfold get_blend at 1.
    match goal with |- (let (o, w1) := ?m in _) = _ =>
      destruct m as [[a|e] w1] end; [|reflexivity].
    unfold bind, get_blend, get_old_objects_len.
    now destruct (negb _).
  - unfold bind, ret, get_blend, get_old_objects_len.
    now destruct (negb _).
Qed.

Lemma mark_twice flag (o : Object) :
  set_selected flag (set_selected flag o) = set_selected flag o.
Proof. reflexivity. Qed.

(** With a [select_set] that obeys, a selection loop that returns has
    given each object of [todo] the flag the hook computes for it. *)
Lemma select_duplicates_marks new_objects :
  select_set_obeys ->
  forall todo count w c w1,
    select_duplicates todo new_objects count w = (Ok c, w1) ->
    blend w1
    = set_objects (blend w)
        (map (fun o =>
                if mem (ob_id o) todo
                then set_selected
                       (mem (ob_id o) new_objects
                        && negb (mem (ob_id o) (old_objects w))) o
                else o)
             (scene_objects (blend w)))
    /\ old_objects w1 = old_objects w.
Proof.
  intros Hobeys. induction todo as [|ob todo IH]; intros count w c w1 Hrun.
  - cbn in Hrun. injection Hrun as _ <-. split; [|reflexivity].
    cbn. rewrite map_id. now destruct (blend w).
  - cbn [select_duplicates] in Hrun.
    unfold bind at 1 in Hrun. unfold get_old_objects at 1 in Hrun.
    unfold bind at 1 in Hrun. unfold host at 1 in Hrun.
    rewrite Hobeys in Hrun.
    unfold bind at 1 in Hrun. unfold select_get at 1 in Hrun.
    destruct (find_object ob _) as [found|]; [|discriminate].
    apply IH in Hrun. destruct Hrun as [Hblend Hold].
    split; [|exact Hold].
    rewrite Hblend. unfold set_objects. cbn. f_equal.
    rewrite map_map. apply map_ext. intros o.
    cbn [mem existsb].
    destruct (Nat.eqb (ob_id o) ob) eqn:Eid.
    + apply Nat.eqb_eq in Eid. subst ob.
      cbn [orb set_selected ob_id].
      now destruct (mem (ob_id o) todo).
    + reflexivity.
Qed.

Lemma ids_after_delete (keep : nat -> bool) (objects : list Object) :
  map ob_id
    (filter (fun o => negb (ob_selected o))
       (map (fun o => set_selected (negb (keep (ob_id o))) o) objects))
  = filter keep (map ob_id objects).
Proof.
  induction objects as [|o objects IH]; cbn; [reflexivity|].
  rewrite negb_involutive.
  destruct (keep (ob_id o)); cbn; now rewrite IH.
Qed.

Lemma filter_all {A} (f : A -> bool) (l : list A) :
  filter (fun x => negb (f x)) l = [] -> filter f l = l.
Proof.
  induction l as [|a l IH]; cbn; [reflexivity|].
  destruct (f a); cbn; [intros E; now rewrite IH | discriminate].
Qed.

Lemma len_zero {A} (l : list A) : (len l =? 0)%Z = true -> l = [].
Proof.
  destruct l; [reflexivity|]. unfold len. cbn [List.length].
  intros E. apply Z.eqb_eq in E. lia.
Qed.

(** C5 (as amended): the first hook records the objects of the scene and
    their number; the second hook raises when there are fewer objects than
    recorded, when the number of objects it has selected differs from the
    number of objects that were not recorded, and when the number of
    objects at its end differs from the recorded number, so that it
    returns only with the recorded number of objects; and when
    [select_set] and [object_delete] do their work, the objects left on
    its return are those that were recorded: the objects it has deleted
    are exactly the new ones. *)
Theorem second_hook_restores_object_count :
  (forall w0,
      old_objects (snd (make_duplicates_real_before w0))
      = object_ids (blend w0)
      /\ old_objects_len (snd (make_duplicates_real_before w0))
         = len (object_ids (blend w0)))
  /\ (forall w,
         len (object_ids (blend w)) < old_objects_len w ->
         make_duplicates_real_after w = (Raise less_objects_error, w))
  /\ (forall w selected_count w1,
         old_objects_len w <= len (object_ids (blend w)) ->
         filter (fun item => negb (mem item (old_objects w)))
                (object_ids (blend w)) <> [] ->
         select_duplicates (object_ids (blend w)) (object_ids (blend w)) 0 w
         = (Ok selected_count, w1) ->
         selected_count
         <> len (filter (fun item => negb (mem item (old_objects w)))
                        (object_ids (blend w))) ->
         make_duplicates_real_after w = (Raise selection_error, w1))
  /\ (forall w,
         (fst (make_duplicates_real_after w) = Ok tt ->
          len (object_ids (blend (snd (make_duplicates_real_after w))))
          = old_objects_len w)
         /\ (len (object_ids (blend (snd (make_duplicates_real_after w))))
             <> old_objects_len w ->
             exists e, fst (make_duplicates_real_after w) = Raise e))
  /\ (select_set_obeys -> object_delete_obeys ->
      forall w,
        fst (make_duplicates_real_after w) = Ok tt ->
        object_ids (blend (snd (make_duplicates_real_after w)))
        = filter (fun item => mem item (old_objects w))
                 (object_ids (blend w))).
Proof.
  assert (Hcount : forall w,
             fst (make_duplicates_real_after w) = Ok tt ->
             len (object_ids (blend (snd (make_duplicates_real_after w))))
             = old_objects_len w).
  { intros w. rewrite make_duplicates_real_after_unfold. cbn zeta.
    destruct (_ <? _)%Z; [discriminate|].
    match goal with |- context [match ?m with _ => _ end] =>
      assert (Hold : same_old w (snd m)) end.
    { destruct (negb _); [|now split].
      apply (steps_bind same_old).
      - intros a b c [H1 H2] [H3 H4]. split; congruence.
      - apply same_old_select_duplicates.
      - intros count. apply (steps_bind same_old).
        + intros a b c [H1 H2] [H3 H4]. split; congruence.
        + intros v. destruct (negb _); now split.
        + intros _. apply same_old_host. }
    match goal with |- context [match ?m with _ => _ end] =>
      destruct m as [[[]|e] w1] end; [|discriminate].
    cbn [snd] in Hold. destruct Hold as [_ Hlen].
    destruct (negb _) eqn:E; [discriminate|]. intros _. cbn [snd].
    apply negb_false_iff, Z.eqb_eq in E. congruence. }
  split; [|split; [|split; [|split]]].
  - intros w0. unfold make_duplicates_real_before.
    match goal with |- context [bind ?m ?k ?v] =>
      pose proof (steps_bind same_old
                    (fun a b c (H1 : same_old a b) (H2 : same_old b c) =>
                       conj (eq_trans (proj1 H2) (proj1 H1))
                            (eq_trans (proj2 H2) (proj2 H1)))
                    m k (same_old_host _) (fun _ => same_old_host _) v)
        as Hold
    end.
    exact Hold.
  - intros w Hless. rewrite make_duplicates_real_after_unfold. cbn zeta.
    apply Z.ltb_lt in Hless. now rewrite Hless.
  - intros w selected_count w1 Hge Hdup Hloop Hdiff.
    rewrite make_duplicates_real_after_unfold. cbn zeta.
    apply Z.ltb_ge in Hge. rewrite Hge.
    destruct (len _ =? 0)%Z eqn:E; [apply len_zero in E; congruence|].
    cbn [negb]. unfold bind at 1. rewrite Hloop.
    apply Z.eqb_neq in Hdiff. now rewrite Hdiff.
  - intros w. split; [apply Hcount|].
    intros Hdiff.
    destruct (fst (make_duplicates_real_after w)) as [[]|e] eqn:E;
      [|now exists e].
    exfalso. apply Hdiff, Hcount, E.
  - intros Hselect Hdelete w.
    destruct (make_duplicates_real_after w) as [r w'] eqn:Hrun.
    cbn [fst snd]. intros ->.
    rewrite make_duplicates_real_after_unfold in Hrun. cbn zeta in Hrun.
    destruct (_ <? _)%Z; [discriminate|].
    destruct (len _ =? 0)%Z eqn:E; cbn [negb] in Hrun.
    + apply len_zero in E. cbn [ret] in Hrun.
      destruct (negb _); [discriminate|]. injection Hrun as <-.
      now rewrite (filter_all _ _ E).
    + unfold bind at 1 in Hrun.
      destruct (select_duplicates _ _ _ w) as [[count|e] w1] eqn:Hloop;
        [|discriminate].
      apply (select_duplicates_marks _ Hselect) in Hloop.
      destruct Hloop as [Hblend Hold].
      unfold bind at 1 in Hrun.
      destruct (negb (count =? _)%Z); [discriminate|]. cbn [ret] in Hrun.
      unfold host in Hrun. rewrite Hdelete in Hrun.
      destruct (negb _); [discriminate|]. injection Hrun as <-.
      cbn [set_blend blend]. rewrite Hblend.
      transitivity (filter (fun item => mem item (old_objects w))
                           (map ob_id (scene_objects (blend w))));
        [|reflexivity].
      rewrite <- ids_after_delete.
      unfold object_ids at 1. cbn [scene_objects set_objects].
      f_equal. f_equal. apply map_ext_in. intros o Hin.
      assert (Hmem : mem (ob_id o) (object_ids (blend w)) = true).
      { apply mem_In. unfold object_ids. now apply in_map. }
      rewrite Hmem. reflexivity.
Qed.

End Duplicates.

(** ** The small host *)

Section SimpleHost.
Import Simple.

Lemma find_map_same (p : Object -> bool) (f : Object -> Object) objects :
  (forall o, p (f o) = p o) ->
  find p (map f objects) = option_map f (find p objects).
Proof.
  intros Hp. induction objects as [|o objects IH]; cbn; [reflexivity|].
  rewrite Hp. destruct (p o); [reflexivity | exact IH].
Qed.

Lemma find_filter_first (p q : Object -> bool) objects x :
  find p objects = Some x -> q x = true ->
  find p (filter q objects) = Some x.
Proof.
  induction objects as [|o objects IH]; cbn; [discriminate|].
  destruct (p o) eqn:Ep.
  - intros [= ->] Hq. rewrite Hq. cbn. now rewrite Ep.
  - intros Hfind Hq. destruct (q o); cbn; rewrite ?Ep; now apply IH.
Qed.

Lemma find_app_first (p : Object -> bool) objects extra x :
  find p objects = Some x -> find p (objects ++ extra) = Some x.
Proof.
  induction objects as [|o objects IH]; cbn; [discriminate|].
  destruct (p o); [trivial | exact IH].
Qed.

Lemma realize_appends count : forall objects,
  exists extra, realize count objects = objects ++ extra.
Proof.
  induction count as [|count IH]; intros objects; cbn.
  - exists []. now rewrite app_nil_r.
  - destruct (IH (objects ++ [mesh (fresh_id objects) "instance" true
                                   (vec3 5 0 0) None])) as [extra ->].
    eexists. rewrite <- app_assoc. reflexivity.
Qed.

Lemma bound_action_map ob (f : Object -> Object) b :
  (forall o, ob_id (f o) = ob_id o) ->
  (forall o, animation_data (f o) = animation_data o) ->
  bound_action ob (set_objects b (map f (scene_objects b)))
  = bound_action ob b.
Proof.
  intros Hid Hanim. unfold bound_action, find_object. cbn.
  rewrite find_map_same by (intros o; now rewrite Hid).
  destruct (find _ _); cbn; [apply Hanim | reflexivity].
Qed.

Lemma simple_select_set_obeys fails :
  @select_set_obeys lib (ops_with fails true).
Proof. intros ob flag b. reflexivity. Qed.

Lemma simple_object_delete_obeys fails selects :
  @object_delete_obeys lib (ops_with fails selects).
Proof. intros b. reflexivity. Qed.

(** The small host keeps every object that has animation data. *)
Lemma simple_keeps_object fails ob :
  @host_keeps_object lib (ops_with fails true) ob.
Proof.
  assert (Hsel : forall other flag o,
             ob_id (if Nat.eqb (ob_id o) other
                    then set_selected flag o else o) = ob_id o)
    by (intros other flag o; now destruct (Nat.eqb (ob_id o) other)).
  assert (Hanim : forall other flag o,
             animation_data (if Nat.eqb (ob_id o) other
                             then set_selected flag o else o)
             = animation_data o)
    by (intros other flag o; now destruct (Nat.eqb (ob_id o) other)).
  constructor.
  - intros op Hcall b [action Hb]. exists action.
    destruct Hcall; cbn [snd].
    + exact Hb.
    + cbn. now rewrite bound_action_map.
    + cbn. destruct (realize_appends (host_data b) (scene_objects b))
        as [extra ->].
      unfold bound_action, find_object in *. cbn.
      destruct (find _ (scene_objects b)) eqn:E; [|discriminate].
      now rewrite (find_app_first _ _ _ _ E).
    + cbn. now rewrite bound_action_map.
    + exact Hb.
    + cbn. destruct fails; exact Hb.
    + exact Hb.
  - intros b [action Hb] Hsel0. exists action.
    unfold bound_action, is_selected, find_object in *. cbn.
    destruct (find _ (scene_objects b)) as [o|] eqn:E; [|discriminate].
    erewrite find_filter_first; eauto. now rewrite Hsel0.
  - intros b _. unfold is_selected, find_object. cbn.
    rewrite find_map_same by (intros o; now rewrite Hsel).
    destruct (find _ (scene_objects b)) as [o|] eqn:E; [|reflexivity].
    apply find_some in E. destruct E as [_ E]. cbn. now rewrite E.
  - intros other flag b Hne Hsel0. unfold is_selected, find_object in *.
    cbn. rewrite find_map_same by (intros o; now rewrite Hsel).
    destruct (find _ (scene_objects b)) as [o|] eqn:E; [|reflexivity].
    apply find_some in E. destruct E as [_ E]. cbn.
    apply Nat.eqb_eq in E.
    destruct (Nat.eqb (ob_id o) other) eqn:E'; [|exact Hsel0].
    apply Nat.eqb_eq in E'. congruence.
Qed.

End SimpleHost.

(** ** More on the frames of one animation *)

Lemma frames_before_length skip frame_end frame :
  List.length (frames_before skip frame_end frame)
  = Z.to_nat ((frame_end - frame + Z.of_N skip) / (1 + Z.of_N skip)).
Proof.
  funelim (frames_before skip frame_end frame).
  - cbn [List.length]. rewrite H.
    replace (frame_end - frame + Z.of_N skip)
      with (frame_end - (frame + (1 + Z.of_N skip)) + Z.of_N skip
            + 1 * (1 + Z.of_N skip)) by ring.
    rewrite Z.div_add by lia.
    rewrite Z2Nat.inj_add; [cbn; lia | | lia].
    apply Z.div_pos; lia.
  - cbn [List.length]. symmetry.
    assert ((frame_end - frame + Z.of_N skip) / (1 + Z.of_N skip) < 1).
    { apply Z.div_lt_upper_bound; lia. }
    lia.
Qed.

Lemma frames_before_nth skip frame_end frame :
  forall i, (i < List.length (frames_before skip frame_end frame))%nat ->
            nth i (frames_before skip frame_end frame) 0
            = frame + Z.of_nat i * (1 + Z.of_N skip).
Proof.
  funelim (frames_before skip frame_end frame); intros i Hi.
  - destruct i as [|i]; cbn [nth]; [lia|].
    cbn [List.length] in Hi. rewrite H by lia. lia.
  - cbn in Hi. lia.
Qed.

(** X1: the number of frames exported for a range: one for [range_end],
    and one for each stride of [1 + skip] frames that starts before it. *)
Theorem Sample_length range_start range_end skip :
  List.length (Sample range_start range_end skip)
  = S (Z.to_nat ((range_end - range_start + Z.of_N skip)
                 / (1 + Z.of_N skip))).
Proof.
  unfold Sample. rewrite length_app, frames_before_length. cbn. lia.
Qed.

(** X2: a range that is empty or reversed is exported as the single frame
    [range_end]. *)
Theorem Sample_of_empty_range range_start range_end skip :
  range_end <= range_start ->
  Sample range_start range_end skip = [range_end].
Proof.
  intros Hle. unfold Sample. now rewrite frames_before_done.
Qed.

(** X3: all frames but the last are [1 + skip] apart, starting from
    [range_start], and with [range_start <= range_end] every frame lies in
    the range. *)
Theorem Sample_stride range_start range_end skip :
  (forall i,
      (S i < List.length (Sample range_start range_end skip))%nat ->
      nth i (Sample range_start range_end skip) 0
      = range_start + Z.of_nat i * (1 + Z.of_N skip))
  /\ (range_start <= range_end ->
      forall frame, In frame (Sample range_start range_end skip) ->
                    range_start <= frame <= range_end).
Proof.
  unfold Sample. split.
  - intros i Hi. rewrite length_app in Hi. cbn in Hi.
    rewrite app_nth1 by lia. apply frames_before_nth. lia.
  - intros Hle frame Hin. apply in_app_or in Hin.
    destruct Hin as [Hin | [<- | []]]; [|lia].
    apply frames_before_bounds in Hin. lia.
Qed.

Lemma frame_time_increasing frame_start a b :
  a < b -> (frame_time a frame_start < frame_time b frame_start)%Q.
Proof.
  intros Hlt. unfold frame_time, Qdiv.
  apply Qmult_lt_compat_r; [reflexivity|].
  rewrite <- Zlt_Qlt. lia.
Qed.

Lemma sorted_map_lt (f : Z -> Q) (l : list Z) :
  (forall a b, a < b -> (f a < f b)%Q) ->
  StronglySorted Z.lt l -> StronglySorted Qlt (map f l).
Proof.
  intros Hf. induction 1 as [|a l Hs IH Hall]; cbn; constructor.
  - exact IH.
  - apply Forall_forall. intros x Hx. apply in_map_iff in Hx.
    destruct Hx as (b & <- & Hb). apply Hf.
    now apply (proj1 (Forall_forall _ _) Hall).
Qed.

(** X4: the times of the frames of an animation increase strictly: no two
    [<frame>] elements of an animation carry the same time. *)
Theorem frame_times_increase range_start range_end skip :
  StronglySorted Qlt
    (map (fun frame => frame_time frame range_start)
         (Sample range_start range_end skip)).
Proof.
  apply sorted_map_lt.
  - intros a b. apply frame_time_increasing.
  - apply Sample_sorted.
Qed.

(** ** [int] on floats *)

Lemma py_int_nonneg x : (0 <= x)%Q -> py_int x = Qfloor x.
Proof.
  destruct x as [n d]. unfold Qle, py_int, Qfloor. cbn. intros Hn.
  apply Z.quot_div_nonneg; lia.
Qed.

Lemma py_int_nonpos x : (x <= 0)%Q -> py_int x = Qceiling x.
Proof.
  destruct x as [n d]. unfold Qle, py_int, Qceiling, Qfloor. cbn. intros Hn.
  rewrite <- (Z.opp_involutive n) at 1. rewrite Z.quot_opp_l by lia.
  f_equal. apply Z.quot_div_nonneg; lia.
Qed.

(** X5: [int] keeps integers and keeps the order: an action whose frame
    range has its start before its end is exported on an integer range
    with the start before the end. *)
Theorem py_int_keeps_order :
  (forall n, py_int (inject_Z n) = n)
  /\ (forall x y, (x <= y)%Q -> py_int x <= py_int y).
Proof.
  split.
  - intros n. unfold py_int. cbn. apply Z.quot_1_r.
  - intros x y Hxy.
    destruct (Qlt_le_dec x 0) as [Hx | Hx], (Qlt_le_dec y 0) as [Hy | Hy].
    + rewrite !py_int_nonpos by now apply Qlt_le_weak.
      now apply Qceiling_resp_le.
    + rewrite (py_int_nonpos x) by now apply Qlt_le_weak.
      rewrite (py_int_nonneg y) by assumption.
      apply Z.le_trans with 0.
      * change 0 with (Qceiling 0). apply Qceiling_resp_le.
        now apply Qlt_le_weak.
      * change 0 with (Qfloor 0). now apply Qfloor_resp_le.
    + exfalso. apply (Qlt_irrefl 0).
      apply Qle_lt_trans with y; [|assumption].
      now apply Qle_trans with x.
    + rewrite !py_int_nonneg by (try assumption; now apply Qle_trans with x).
      now apply Qfloor_resp_le.
Qed.

(** ** More on the bounding box *)

Lemma extreme_of_more (le : Q -> Q -> Prop) coord m m' l l' :
  extreme le coord m l -> extreme le coord m' l' ->
  (forall p, In p l -> In p l') -> le m' m.
Proof.
  intros [_ (p & Hin & ->)] [Hb' _] Hincl. apply Hb'. now apply Hincl.
Qed.

Section BoundingBoxMore.
Context {L : HostLib}.

(** The result is computed from the state the loop ends in, and the loop
    does not raise. *)
Lemma bounding_box_of_loop self objects :
  exists st,
    get_current_bounding_box self objects = Ok (center_and_size st)
    /\ scene_box_of (axis_conversion (axis_forward self) (axis_up self)) st
         (box_candidates self objects).
Proof.
  unfold get_current_bounding_box.
  destruct (scene_box_loop
              (axis_conversion (axis_forward self) (axis_up self))
              (box_candidates self objects)) as (st & -> & Hst).
  now exists st.
Qed.

(** The loop does not raise; the state it ends in holds the bounds of the
    corners of the objects it has used, and the result is computed from
    it. *)
Lemma final_scene_box_bounds self objects :
  exists st,
    final_scene_box self objects = Ok st
    /\ get_current_bounding_box self objects = Ok (center_and_size st)
    /\ scene_box_of (axis_conversion (axis_forward self) (axis_up self)) st
         (box_candidates self objects).
Proof.
  unfold get_current_bounding_box, final_scene_box.
  destruct (scene_box_loop
              (axis_conversion (axis_forward self) (axis_up self))
              (box_candidates self objects)) as (st & -> & Hst).
  now exists st.
Qed.

Lemma used_object_state gm st objects ob :
  scene_box_of gm st objects -> In ob objects -> contributes ob = true ->
  scene_box_empty st = false
  /\ bounds (scene_box_min st) (scene_box_max st) (scene_points gm objects).
Proof.
  unfold scene_box_of. intros Hst Hin Hc.
  destruct (scene_box_empty st).
  - apply filter_empty_iff with (x := ob) in Hst; [congruence | assumption].
  - now destruct Hst.
Qed.

Lemma used_corner gm objects ob p :
  In ob objects -> contributes ob = true ->
  In p (object_box_points gm ob) -> In p (scene_points gm objects).
Proof.
  intros Hin Hc Hp. unfold scene_points. apply in_flat_map.
  exists ob. split; [|assumption]. apply filter_In. now split.
Qed.

(** X6: [get_current_bounding_box] never raises: the [IndexError] of
    [object_box_points[0]] cannot occur, because an object without corners
    does not pass [is_bound_box_empty]. *)
Theorem bounding_box_never_raises self objects :
  exists box, get_current_bounding_box self objects = Ok box.
Proof.
  destruct (bounding_box_of_loop self objects) as (st & Hbox & _).
  eexists. exact Hbox.
Qed.

(** X7: when the loop of [get_current_bounding_box] ends, [scene_box_min]
    and [scene_box_max], from which the center and the size are computed,
    enclose every transformed corner of every object the loop has used.
    (Stated on the two corners of the loop: they are coordinates of
    corners, taken by [min] and [max] without any arithmetic.) *)
Theorem bounding_box_holds_corners self objects ob p :
  In ob (box_candidates self objects) ->
  contributes ob = true ->
  In p (object_box_points
          (axis_conversion (axis_forward self) (axis_up self)) ob) ->
  exists st,
    final_scene_box self objects = Ok st
    /\ get_current_bounding_box self objects = Ok (center_and_size st)
    /\ scene_box_empty st = false
    /\ vec_le (scene_box_min st) p
    /\ vec_le p (scene_box_max st).
Proof.
  intros Hin Hc Hp.
  destruct (final_scene_box_bounds self objects) as (st & Hloop & Hbox & Hst).
  destruct (used_object_state _ _ _ _ Hst Hin Hc)
    as [Hne [(H1 & H2 & H3) (H4 & H5 & H6)]].
  pose proof (used_corner _ _ _ _ Hin Hc Hp) as Hused.
  exists st. split; [exact Hloop|]. split; [exact Hbox|].
  split; [exact Hne|].
  split; unfold vec_le.
  - repeat split;
      match goal with H : extreme Qle ?c _ _ |- (_ <= ?c p)%Q =>
        exact (proj1 H p Hused) end.
  - repeat split;
      match goal with H : extreme Qge ?c _ _ |- (?c p <= _)%Q =>
        exact (proj1 H p Hused) end.
Qed.

Lemma reached_of_extreme le coord m points :
  extreme le coord m points -> reached coord m points.
Proof.
  intros [_ (p & Hin & ->)]. exists p. split; [assumption | reflexivity].
Qed.

(** X8: when some object is used, each coordinate of [scene_box_min] and
    of [scene_box_max] at the end of the loop is that coordinate of a
    transformed corner of a used object: the two corners the center and the
    size are computed from are the tightest ones. *)
Theorem bounding_box_is_tight self objects :
  (exists ob, In ob (box_candidates self objects) /\ contributes ob = true) ->
  exists st,
    final_scene_box self objects = Ok st
    /\ get_current_bounding_box self objects = Ok (center_and_size st)
    /\ (reached vx (vx (scene_box_min st))
          (scene_points (axis_conversion (axis_forward self) (axis_up self))
             (box_candidates self objects))
        /\ reached vy (vy (scene_box_min st))
             (scene_points
                (axis_conversion (axis_forward self) (axis_up self))
                (box_candidates self objects))
        /\ reached vz (vz (scene_box_min st))
             (scene_points
                (axis_conversion (axis_forward self) (axis_up self))
                (box_candidates self objects)))
    /\ (reached vx (vx (scene_box_max st))
          (scene_points (axis_conversion (axis_forward self) (axis_up self))
             (box_candidates self objects))
        /\ reached vy (vy (scene_box_max st))
             (scene_points
                (axis_conversion (axis_forward self) (axis_up self))
                (box_candidates self objects))
        /\ reached vz (vz (scene_box_max st))
             (scene_points
                (axis_conversion (axis_forward self) (axis_up self))
                (box_candidates self objects))).
Proof.
  intros (ob & Hin & Hc).
  destruct (final_scene_box_bounds self objects) as (st & Hloop & Hbox & Hst).
  destruct (used_object_state _ _ _ _ Hst Hin Hc)
    as [Hne [(H1 & H2 & H3) (H4 & H5 & H6)]].
  exists st. split; [exact Hloop|]. split; [exact Hbox|].
  split; repeat split;
    (eapply (reached_of_extreme Qle); eassumption)
    || (eapply (reached_of_extreme Qge); eassumption).
Qed.

(** X9: an object that is not visible, or that is not selected when only
    the selection is exported, adds nothing to the bounding box. *)
Theorem hidden_object_ignored self before ob after :
  ob_visible ob = false
  \/ (use_selection self = true /\ ob_selected ob = false) ->
  get_current_bounding_box self (before ++ ob :: after)
  = get_current_bounding_box self (before ++ after).
Proof.
  intros Hhidden. unfold get_current_bounding_box.
  replace (box_candidates self (before ++ ob :: after))
    with (box_candidates self (before ++ after)); [reflexivity|].
  unfold box_candidates.
  destruct (use_selection self); rewrite !filter_app; cbn [filter];
    destruct Hhidden as [Hv | [Hu Hs]];
    rewrite ?Hv, ?Hs, ?andb_false_r; try reflexivity; discriminate.
Qed.

(** X10: when every object of a scene is in a second scene, and the first
    has a used object, the two corners the loop ends with on the second
    scene enclose those it ends with on the first: adding objects,
    wherever in the list, only moves [scene_box_min] down and
    [scene_box_max] up. *)
Theorem bounding_box_grows self objects objects' :
  (forall ob, In ob objects -> In ob objects') ->
  (exists ob, In ob (box_candidates self objects) /\ contributes ob = true) ->
  exists st st',
    final_scene_box self objects = Ok st
    /\ final_scene_box self objects' = Ok st'
    /\ get_current_bounding_box self objects = Ok (center_and_size st)
    /\ get_current_bounding_box self objects' = Ok (center_and_size st')
    /\ vec_le (scene_box_min st') (scene_box_min st)
    /\ vec_le (scene_box_max st) (scene_box_max st').
Proof.
  intros Hincl (ob & Hin & Hc).
  assert (Hcand : forall o, In o (box_candidates self objects) ->
                            In o (box_candidates self objects')).
  { intros o. unfold box_candidates.
    destruct (use_selection self); rewrite !filter_In;
      intros [Ho Hf]; split; auto. }
  destruct (final_scene_box_bounds self objects)
    as (st & Hloop & Hbox & Hst).
  destruct (final_scene_box_bounds self objects')
    as (st' & Hloop' & Hbox' & Hst').
  destruct (used_object_state _ _ _ _ Hst Hin Hc)
    as [Hne [(H1 & H2 & H3) (H4 & H5 & H6)]].
  destruct (used_object_state _ _ _ _ Hst' (Hcand _ Hin) Hc)
    as [Hne' [(K1 & K2 & K3) (K4 & K5 & K6)]].
  assert (Hpts : forall p,
             In p (scene_points
                     (axis_conversion (axis_forward self) (axis_up self))
                     (box_candidates self objects)) ->
             In p (scene_points
                     (axis_conversion (axis_forward self) (axis_up self))
                     (box_candidates self objects'))).
  { intros p. unfold scene_points. rewrite !in_flat_map.
    intros (o & Ho & Hp). exists o. split; [|assumption].
    apply filter_In. apply filter_In in Ho. destruct Ho. split; auto. }
  exists st, st'. split; [exact Hloop|]. split; [exact Hloop'|].
  split; [exact Hbox|]. split; [exact Hbox'|].
  split; unfold vec_le.
  - repeat split;
      match goal with
        A : extreme Qle ?c (?c (scene_box_min st)) _,
        B : extreme Qle ?c (?c (scene_box_min st')) _ |- (?c _ <= ?c _)%Q =>
          exact (extreme_of_more Qle c _ _ _ _ A B Hpts)
      end.
  - repeat split;
      match goal with
        A : extreme Qge ?c (?c (scene_box_max st)) _,
        B : extreme Qge ?c (?c (scene_box_max st')) _ |- (?c _ <= ?c _)%Q =>
          exact (extreme_of_more Qge c _ _ _ _ A B Hpts)
      end.
Qed.

End BoundingBoxMore.

(** ** The default object of [actions_object] *)

Section DefaultObjectFacts.
Context {L : HostLib} {H : Host}.

Lemma armature_step_seen seen ob :
  armature_step (armatures_seen seen) ob
  = armatures_seen (if is_animated_armature ob then seen ++ [ob] else seen).
Proof.
  unfold armature_step, armatures_seen.
  destruct (is_animated_armature ob); [|reflexivity].
  rewrite rev_app_distr. cbn [rev app]. f_equal.
  destruct seen as [|a [|b seen]]; cbn; try reflexivity.
  destruct (rev seen ++ [b]) eqn:E; cbn; [|reflexivity].
  apply app_eq_nil in E. destruct E. discriminate.
Qed.

Lemma armature_loop objects : forall seen,
  fold_left armature_step objects (armatures_seen seen)
  = armatures_seen (seen ++ filter is_animated_armature objects).
Proof.
  induction objects as [|ob objects IH]; intros seen;
    cbn [fold_left filter].
  - now rewrite app_nil_r.
  - rewrite armature_step_seen.
    destruct (is_animated_armature ob).
    + rewrite IH, <- app_assoc. reflexivity.
    + apply IH.
Qed.

Lemma default_actions_object_cases self objects :
  get_default_actions_object self objects
  = match filter is_animated_armature (box_candidates self objects) with
    | [armature] => ob_name armature
    | _ => EmptyString
    end.
Proof.
  unfold get_default_actions_object.
  change (@None Object, false) with (armatures_seen []).
  rewrite armature_loop. cbn [app].
  destruct (filter is_animated_armature (box_candidates self objects))
    as [|a [|b rest]]; cbn; try reflexivity.
  now destruct (rev rest ++ [b]) as [|c more]; destruct (_ ++ [a]).
Qed.

(** X11: the default object is the animated armature among the visible
    (and, with Selection Only, selected) objects when there is exactly
    one; with none, or with more than one, it is the empty string. *)
Theorem default_actions_object_is_the_single_armature self objects :
  get_default_actions_object self objects
  = match filter is_animated_armature (box_candidates self objects) with
    | [armature] => ob_name armature
    | _ => EmptyString
    end.
Proof. apply default_actions_object_cases. Qed.

Lemma find_by_name_exists (objects : list Object) a :
  In a objects ->
  exists o,
    find (fun ob => String.eqb (ob_name ob) (ob_name a)) objects = Some o
    /\ ob_name o = ob_name a.
Proof.
  induction objects as [|x objects IH]; [intros []|].
  intros Hin. cbn.
  destruct (String.eqb (ob_name x) (ob_name a)) eqn:E.
  - exists x. split; [reflexivity | now apply String.eqb_eq].
  - destruct Hin as [-> | Hin]; [now rewrite String.eqb_refl in E|].
    now apply IH.
Qed.

Lemma same_name_same_object (objects : list Object) a o :
  NoDup (map ob_name objects) ->
  In a objects -> In o objects -> ob_name o = ob_name a -> o = a.
Proof.
  induction objects as [|x objects IH]; [intros _ []|].
  cbn. intros Hnd Ha Ho Hname. inversion Hnd as [|? ? Hnotin Hnd']; subst.
  destruct Ha as [-> | Ha], Ho as [-> | Ho]; auto.
  - exfalso. apply Hnotin. rewrite <- Hname. now apply in_map.
  - exfalso. apply Hnotin. rewrite Hname. now apply in_map.
Qed.

Lemma append_not_empty (s t : string) :
  t <> EmptyString -> (s ++ t)%string <> EmptyString.
Proof. destruct s; cbn; [auto | discriminate]. Qed.

(** X12: after [invoke] the [filepath] is not empty, and [actions_object]
    is either empty or the name of an object that the lookup of [execute]
    finds: no [KeyError]; when the names of the scene are distinct, that
    object is an armature with animation data. *)
Theorem invoke_gives_object_of_scene self blend_data_filepath w :
  filepath (fst (invoke self blend_data_filepath (scene_objects (blend w))))
  <> EmptyString
  /\ (actions_object
        (fst (invoke self blend_data_filepath (scene_objects (blend w))))
      = EmptyString
      \/ exists o,
           lookup_object
             (actions_object
                (fst (invoke self blend_data_filepath
                        (scene_objects (blend w))))) w
           = (Ok (ob_id o), w)
           /\ In o (scene_objects (blend w))
           /\ (NoDup (map ob_name (scene_objects (blend w))) ->
               is_animated_armature o = true)).
Proof.
  split.
  - unfold invoke. cbn [fst]. unfold set_actions_object. cbn [filepath].
    destruct (String.eqb (filepath self) EmptyString) eqn:E.
    + cbn [filepath set_filepath]. apply append_not_empty. discriminate.
    + now apply String.eqb_neq.
  - unfold invoke. cbn [fst]. unfold set_actions_object at 1 2.
    cbn [actions_object].
    match goal with |- context [get_default_actions_object ?s ?l] =>
      rewrite (default_actions_object_cases s l);
      assert (Hcand : forall o, In o (box_candidates s l) -> In o l)
        by (intros o; apply box_candidates_In);
      destruct (filter is_animated_armature (box_candidates s l))
        as [|a [|b rest]] eqn:Ef
    end; [now left | | now left].
    right.
    assert (Ha : In a (a :: nil)) by now left.
    rewrite <- Ef in Ha. apply filter_In in Ha. destruct Ha as [Ha Harm].
    apply Hcand in Ha.
    destruct (find_by_name_exists _ a Ha) as (o & Hfind & Hname).
    exists o. unfold lookup_object. rewrite Hfind.
    split; [reflexivity|].
    pose proof (find_some _ _ Hfind) as [Ho _].
    split; [exact Ho|].
    intros Hnd. now rewrite (same_name_same_object _ a o Hnd Ha Ho Hname).
Qed.

End DefaultObjectFacts.

(** ** The documents of the frames *)

Lemma string_app_assoc (a b c : string) :
  ((a ++ b) ++ c = a ++ b ++ c)%string.
Proof. induction a as [|x a IH]; cbn; [reflexivity | now rewrite IH]. Qed.

Lemma starts_with_app old s : starts_with old (old ++ s) = true.
Proof.
  induction old as [|c old IH]; cbn; [reflexivity|].
  now rewrite Ascii.eqb_refl.
Qed.

Lemma replace_from_skip old new t : forall s,
  replace_from (String.length t) old new (t ++ s)
  = replace_from 0 old new s.
Proof. induction t as [|c t IH]; intros s; cbn; [reflexivity | apply IH]. Qed.

Lemma str_replace_leading old new s :
  old <> EmptyString ->
  str_replace (old ++ s) old new = (new ++ str_replace s old new)%string.
Proof.
  unfold str_replace. destruct old as [|c old]; [congruence | intros _].
  change (String c old ++ s)%string with (String c (old ++ s)).
  cbn [replace_from].
  change (String c (old ++ s)) with (String c old ++ s)%string.
  rewrite starts_with_app.
  replace (String.length (String c old) - 1)%nat with (String.length old)
    by (cbn [String.length]; lia).
  now rewrite replace_from_skip.
Qed.

Lemma str_replace_absent old new s :
  occurs old s = false -> str_replace s old new = s.
Proof.
  unfold str_replace. induction s as [|c s IH]; [reflexivity|].
  cbn [occurs replace_from]. intros Hoc.
  apply orb_false_iff in Hoc. destruct Hoc as [Hstart Hoc].
  rewrite Hstart, IH by assumption. reflexivity.
Qed.

Lemma str_replace_after old new pre : forall rest,
  no_match_before old pre rest = true ->
  str_replace (pre ++ rest) old new = (pre ++ str_replace rest old new)%string.
Proof.
  unfold str_replace. induction pre as [|c pre IH]; intros rest Hno;
    [reflexivity|].
  cbn [no_match_before] in Hno. apply andb_true_iff in Hno.
  destruct Hno as [Hstart Hno]. apply negb_true_iff in Hstart.
  change (String c pre ++ rest)%string with (String c (pre ++ rest)) in *.
  cbn [replace_from]. rewrite Hstart, IH by assumption. reflexivity.
Qed.

(** One occurrence of [old], after [pre], is replaced, and the rest is
    kept. *)
Lemma str_replace_once old new pre rest :
  old <> EmptyString ->
  no_match_before old pre (old ++ rest) = true ->
  occurs old rest = false ->
  str_replace (pre ++ old ++ rest) old new = (pre ++ new ++ rest)%string.
Proof.
  intros Hold Hno Hoc.
  rewrite str_replace_after by assumption.
  rewrite str_replace_leading by assumption.
  now rewrite str_replace_absent.
Qed.

Section DocumentFacts.
Context {L : HostLib} {H : Host}.

Lemma file_text_removed path b :
  file_text path
    (set_files b
       (filter (fun entry => negb (String.eqb (fst entry) path)) (files b)))
  = None.
Proof.
  unfold file_text. cbn [files set_files].
  destruct (find _ (filter _ _)) as [entry|] eqn:E; [|reflexivity].
  apply find_some in E. destruct E as [Hin Heq].
  apply filter_In in Hin. destruct Hin as [_ Hne].
  rewrite Heq in Hne. discriminate.
Qed.

(** What [with open(...) as f: f.read()], [os.remove] and
    [output_file.write] do once the exporter has returned. *)
Lemma read_remove_write path (change : string -> string) w :
  bind (read_file path)
    (fun temp_contents =>
       bind (remove_file path) (fun _ => write (change temp_contents))) w
  = match file_text path (blend w) with
    | Some text =>
        (Ok tt,
         {| blend :=
              set_files (blend w)
                (filter (fun entry => negb (String.eqb (fst entry) path))
                        (files (blend w)));
            output_file := output_file w ++ [change text];
            output_closed := output_closed w;
            old_objects := old_objects w;
            old_objects_len := old_objects_len w;
            action_log := action_log w |})
    | None => (Raise (FileNotFoundError path), w)
    end.
Proof.
  unfold bind, read_file, remove_file, file_text.
  destruct (find _ (files (blend w))) as [entry|] eqn:E;
    cbn [option_map]; [|reflexivity].
  rewrite E. reflexivity.
Qed.

(** X13: when the glTF exporter has written its file, [output_frame_gltf]
    writes the text of that file as it is, and removes the file. *)
Theorem gltf_document_embedded self w b text :
  export_scene_gltf (temp_file_name self "_tmp.gltf") self (blend w)
  = (Ok tt, b) ->
  file_text (temp_file_name self "_tmp.gltf") b = Some text ->
  exists w',
    output_frame_gltf self w = (Ok tt, w')
    /\ output_file w' = output_file w ++ [text]
    /\ file_text (temp_file_name self "_tmp.gltf") (blend w') = None
    /\ scene_objects (blend w') = scene_objects b.
Proof.
  unfold output_frame_gltf, temp_file_name.
  destruct (os_path_split (filepath self)) as [dir base].
  intros Hexport Htext.
  unfold bind at 1. unfold host at 1. rewrite Hexport.
  rewrite (read_remove_write _ (fun text => text)).
  cbn [blend set_blend]. rewrite Htext.
  eexists. split; [reflexivity|]. cbn [output_file blend].
  split; [reflexivity|]. split; [apply file_text_removed | reflexivity].
Qed.

(** X14: when the X3D exporter has written a file made of a prefix, the
    XML declaration, a middle part, the DOCTYPE line and a rest, with no
    other occurrence of the declaration and of the DOCTYPE line,
    [output_frame_x3d] writes the prefix, the middle part and the rest, and
    removes the file. *)
Theorem x3d_document_stripped self w b0 b pre mid rest :
  reset_material_tags self (blend w) = (Ok tt, b0) ->
  export_scene_x3d (temp_file_name self "_tmp.x3d") self b0 = (Ok tt, b) ->
  file_text (temp_file_name self "_tmp.x3d") b
  = Some (pre ++ xml_declaration ++ mid ++ x3d_doctype ++ rest)%string ->
  no_match_before xml_declaration pre
    (xml_declaration ++ mid ++ x3d_doctype ++ rest) = true ->
  occurs xml_declaration (mid ++ x3d_doctype ++ rest) = false ->
  no_match_before x3d_doctype (pre ++ mid) (x3d_doctype ++ rest) = true ->
  occurs x3d_doctype rest = false ->
  exists w',
    output_frame_x3d self w = (Ok tt, w')
    /\ output_file w' = output_file w ++ [(pre ++ mid ++ rest)%string]
    /\ file_text (temp_file_name self "_tmp.x3d") (blend w') = None.
Proof.
  unfold output_frame_x3d, fix_scene_before_x3d_export, temp_file_name.
  destruct (os_path_split (filepath self)) as [dir base].
  intros Hreset Hexport Htext Hno1 Hoc1 Hno2 Hoc2.
  unfold bind at 1. unfold host at 1. rewrite Hreset.
  unfold bind at 1. unfold host at 1. cbn [blend set_blend].
  rewrite Hexport.
  rewrite (read_remove_write _
             (fun text =>
                str_replace (str_replace text xml_declaration EmptyString)
                  x3d_doctype EmptyString)).
  cbn [blend set_blend]. rewrite Htext.
  eexists. split; [reflexivity|]. cbn [output_file blend].
  split; [|apply file_text_removed].
  do 2 f_equal.
  rewrite str_replace_once by (assumption || discriminate).
  change (pre ++ EmptyString ++ mid ++ x3d_doctype ++ rest)%string
    with (pre ++ mid ++ x3d_doctype ++ rest)%string.
  rewrite <- string_app_assoc.
  rewrite str_replace_once by (assumption || discriminate).
  change (EmptyString ++ rest)%string with rest.
  apply string_app_assoc.
Qed.

(** X15: when the glTF exporter returns without having written its file,
    [output_frame_gltf] raises [FileNotFoundError] and writes nothing. *)
Theorem gltf_document_missing self w b :
  export_scene_gltf (temp_file_name self "_tmp.gltf") self (blend w)
  = (Ok tt, b) ->
  file_text (temp_file_name self "_tmp.gltf") b = None ->
  exists w',
    output_frame_gltf self w
    = (Raise (FileNotFoundError (temp_file_name self "_tmp.gltf")), w')
    /\ output_file w' = output_file w
    /\ blend w' = b.
Proof.
  unfold output_frame_gltf, temp_file_name.
  destruct (os_path_split (filepath self)) as [dir base].
  intros Hexport Htext.
  unfold bind at 1. unfold host at 1. rewrite Hexport.
  rewrite (read_remove_write _ (fun text => text)).
  cbn [blend set_blend]. rewrite Htext.
  eexists. split; [reflexivity|]. split; reflexivity.
Qed.

End DocumentFacts.

(** ** The output file of an export *)

Section OutputFile.
Context {L : HostLib} {H : Host}.

Lemma still_open_refl w : still_open w w.
Proof. split; [reflexivity | exists []; now rewrite app_nil_r]. Qed.

Lemma still_open_trans a b c :
  still_open a b -> still_open b c -> still_open a c.
Proof.
  intros [H1 [l1 E1]] [H2 [l2 E2]]. split; [congruence|].
  exists (l1 ++ l2). now rewrite E2, E1, app_assoc.
Qed.

Lemma still_open_host {A} (op : Blend -> outcome A * Blend) :
  steps still_open (host op).
Proof.
  intros w. unfold host. destruct (op (blend w)). cbn.
  split; [reflexivity | exists []; now rewrite app_nil_r].
Qed.

Lemma still_open_write s : steps still_open (write s).
Proof. intros w. split; [reflexivity | now exists [s]]. Qed.

Lemma still_open_set_action ob action : steps still_open (set_action ob action).
Proof.
  intros w. unfold set_action.
  destruct (find_object ob (blend w)) as [o|]; [|apply still_open_refl].
  destruct (animation_data o); [|apply still_open_refl]. cbn.
  split; [reflexivity | exists []; now rewrite app_nil_r].
Qed.

Lemma still_open_output_one_animation self name frame_start frame_end :
  steps still_open (output_one_animation self name frame_start frame_end).
Proof.
  apply steps_output_one_animation.
  - exact still_open_refl.
  - exact still_open_trans.
  - intros op _. apply still_open_host.
  - intros w fs. split; [reflexivity | exists []; now rewrite app_nil_r].
  - intros w old n. split; [reflexivity | exists []; now rewrite app_nil_r].
  - apply still_open_host.
  - exact still_open_write.
Qed.

Lemma still_open_export_action self ob action :
  steps still_open (export_action self ob action).
Proof.
  unfold export_action. destruct (frame_range action) as [act_start act_end].
  apply (steps_bind still_open still_open_trans).
  - apply still_open_set_action.
  - intros _. apply still_open_output_one_animation.
Qed.

(** The part of [execute] between the [<animations>] line and the
    [</animations>] line. *)
Lemma still_open_animations self :
  steps still_open
    (if negb (String.eqb (actions_object self) EmptyString)
     then
       bind (lookup_object (actions_object self))
         (fun actions_object_o =>
            bind get_blend
              (fun b =>
                 let actions := actions_to_export b actions_object_o in
                 if (len actions >? 0)%Z
                 then
                   bind (get_action actions_object_o)
                     (fun original_action =>
                        try_finally
                          (for_each actions
                             (export_action self actions_object_o))
                          (set_action actions_object_o original_action))
                 else raise (no_action_error self)))
     else
       bind get_blend
         (fun b =>
            output_one_animation self "animation"
              (scene_frame_start b) (scene_frame_end b))).
Proof.
  destruct (negb _).
  - apply (steps_bind still_open still_open_trans).
    { apply (steps_reader still_open still_open_refl).
      intros w. unfold lookup_object. now destruct (find _ _). }
    intros ob.
    apply (steps_bind still_open still_open_trans);
      [apply (steps_get_blend still_open still_open_refl) | intros b].
    cbn zeta. destruct (_ >? _)%Z;
      [|apply (steps_raise still_open still_open_refl)].
    apply (steps_bind still_open still_open_trans).
    { apply (steps_reader still_open still_open_refl).
      intros w. unfold get_action.
      destruct (find_object _ _) as [o|]; [|reflexivity].
      now destruct (animation_data o). }
    intros original.
    apply (steps_try_finally still_open still_open_trans).
    + apply (steps_for_each still_open still_open_refl still_open_trans).
      intros action. apply still_open_export_action.
    + apply still_open_set_action.
  - apply (steps_bind still_open still_open_trans);
      [apply (steps_get_blend still_open still_open_refl) | intros b].
    apply still_open_output_one_animation.
Qed.

(** *** The last string of the file *)

Lemma head_differs (a b : ascii) (s t : string) :
  a <> b -> String a s <> String b t.
Proof. intros Hab E. now injection E. Qed.

Lemma frame_line_not_close time mime center size :
  frame_line time mime center size <> container_close.
Proof.
  unfold frame_line, container_close, tab. cbn [String.append].
  apply head_differs. vm_compute. discriminate.
Qed.

Lemma frame_close_not_close : frame_close <> container_close.
Proof. vm_compute. discriminate. Qed.

Lemma animation_close_not_close : animation_close <> container_close.
Proof. vm_compute. discriminate. Qed.

Lemma animation_open_not_close name : animation_open name <> container_close.
Proof.
  unfold animation_open, container_close, tab.
  destruct (String.eqb name EmptyString); cbn [String.append];
    apply head_differs; vm_compute; discriminate.
Qed.

Lemma open_ended_write s w :
  s <> container_close -> open_ended (snd (write s w)).
Proof.
  intros Hs l E. cbn in E. apply app_inj_tail in E.
  destruct E as [_ E]. contradiction.
Qed.

Lemma leads_write (P : World -> Prop) s :
  s <> container_close -> leads P open_ended (write s).
Proof. intros Hs w _. now apply open_ended_write. Qed.

Lemma leads_unwritten {A} (m : M A) :
  steps unwritten m -> leads open_ended open_ended m.
Proof.
  intros Hm w HP l. specialize (Hm w). unfold unwritten in Hm.
  rewrite Hm. apply HP.
Qed.

Lemma leads_for_each {A} (P : World -> Prop) (l : list A)
  (body : A -> M unit) :
  (forall x, leads P P (body x)) -> leads P P (for_each l body).
Proof.
  intros Hbody. induction l as [|x l IH]; cbn [for_each].
  - intros w HP. exact HP.
  - apply (leads_bind P P P); [apply Hbody | intros _; exact IH | auto].
Qed.

Lemma leads_try_finally {A} (P : World -> Prop) (body : M A)
  (final : M unit) :
  leads P P body -> leads P P final -> leads P P (try_finally body final).
Proof.
  intros Hbody Hfinal w HP. unfold try_finally.
  specialize (Hbody w HP). destruct (body w) as [r w1]. cbn [snd] in Hbody.
  specialize (Hfinal w1 Hbody).
  destruct (final w1) as [[[]|e] w2]; exact Hfinal.
Qed.

(** When the export of the document raises, nothing has been written. *)
Lemma document_raise_unwritten self w e w' :
  (match frame_format self with
   | GLTF => output_frame_gltf self
   | X3D => output_frame_x3d self
   end) w = (Raise e, w') ->
  output_file w' = output_file w.
Proof.
  destruct (frame_format self);
    unfold output_frame_gltf, output_frame_x3d, fix_scene_before_x3d_export;
    destruct (os_path_split _) as [dir base].
  - unfold bind at 1.
    pose proof (unwritten_host
                  (export_scene_gltf
                     (os_path_join dir
                        (fst (os_path_splitext base) ++ "_tmp.gltf")) self)
                  w) as H1.
    destruct (host _ w) as [[[]|e1] w1]; cbn [snd] in H1;
      [|intros [= _ <-]; exact H1].
    rewrite (read_remove_write _ (fun text => text)).
    destruct (file_text _ _); [discriminate|].
    intros [= _ <-]. exact H1.
  - unfold bind at 1.
    pose proof (unwritten_host (reset_material_tags self) w) as H0.
    destruct (host _ w) as [[[]|e0] w0]; cbn [snd] in H0;
      [|intros [= _ <-]; exact H0].
    unfold bind at 1.
    pose proof (unwritten_host
                  (export_scene_x3d
                     (os_path_join dir
                        (fst (os_path_splitext base) ++ "_tmp.x3d")) self)
                  w0) as H1.
    destruct (host _ w0) as [[[]|e1] w1]; cbn [snd] in H1;
      [|intros [= _ <-]; unfold unwritten in *; congruence].
    rewrite (read_remove_write _
               (fun text =>
                  str_replace (str_replace text xml_declaration EmptyString)
                    x3d_doctype EmptyString)).
    destruct (file_text _ _); [discriminate|].
    intros [= _ <-]. unfold unwritten in *. congruence.
Qed.

Lemma open_ended_output_frame self frame frame_start :
  leads open_ended open_ended (output_frame self frame frame_start).
Proof.
  unfold output_frame.
  apply (leads_bind open_ended open_ended open_ended); [| |auto].
  { apply leads_unwritten, unwritten_host. }
  intros _.
  apply (leads_bind open_ended open_ended open_ended); [| |auto].
  { destruct (make_duplicates_real self).
    - apply leads_unwritten. intros w. unfold make_duplicates_real_before.
      match goal with |- unwritten _ (snd (bind ?m ?k ?v)) =>
        exact (steps_bind unwritten unwritten_trans m k (unwritten_host _)
                 (fun _ => unwritten_host _) v)
      end.
    - intros w HP. exact HP. }
  intros _.
  apply (leads_bind open_ended open_ended open_ended); [| |auto].
  { apply leads_reader. reflexivity. }
  intros [center size].
  apply (leads_bind open_ended open_ended open_ended); [| |auto].
  { apply leads_write, frame_line_not_close. }
  intros _ w HP. unfold bind at 1.
  destruct ((match frame_format self with
             | GLTF => output_frame_gltf self
             | X3D => output_frame_x3d self
             end) w) as [[[]|e] w1] eqn:Edoc.
  - apply (leads_bind (fun _ => True) open_ended open_ended); [| |auto|exact I].
    + apply leads_write, frame_close_not_close.
    + intros _. destruct (make_duplicates_real self).
      * apply leads_unwritten, unwritten_make_duplicates_real_after.
      * intros v Hv. exact Hv.
  - cbn [snd]. apply document_raise_unwritten in Edoc.
    intros l. rewrite Edoc. apply HP.
Qed.

Lemma open_ended_output_one_animation self name frame_start frame_end :
  leads open_ended open_ended
    (output_one_animation self name frame_start frame_end).
Proof.
  intros w HP. rewrite output_one_animation_frames. revert w HP.
  apply (leads_bind open_ended open_ended open_ended); [| |auto].
  { apply leads_write, animation_open_not_close. }
  intros _.
  apply (leads_bind open_ended open_ended open_ended); [| |auto].
  { apply leads_for_each. intros f. apply open_ended_output_frame. }
  intros _. apply leads_write, animation_close_not_close.
Qed.

Lemma unwritten_set_action ob action : steps unwritten (set_action ob action).
Proof.
  intros w. unfold set_action, unwritten.
  destruct (find_object ob (blend w)) as [o|]; [|reflexivity].
  now destruct (animation_data o).
Qed.

Lemma open_ended_animations self :
  leads open_ended open_ended
    (if negb (String.eqb (actions_object self) EmptyString)
     then
       bind (lookup_object (actions_object self))
         (fun actions_object_o =>
            bind get_blend
              (fun b =>
                 let actions := actions_to_export b actions_object_o in
                 if (len actions >? 0)%Z
                 then
                   bind (get_action actions_object_o)
                     (fun original_action =>
                        try_finally
                          (for_each actions
                             (export_action self actions_object_o))
                          (set_action actions_object_o original_action))
                 else raise (no_action_error self)))
     else
       bind get_blend
         (fun b =>
            output_one_animation self "animation"
              (scene_frame_start b) (scene_frame_end b))).
Proof.
  destruct (negb _).
  - apply (leads_bind open_ended open_ended open_ended); [| |auto].
    { apply leads_reader. intros w. unfold lookup_object.
      now destruct (find _ _). }
    intros ob.
    apply (leads_bind open_ended open_ended open_ended); [| |auto].
    { apply leads_reader. reflexivity. }
    intros b. cbn zeta. destruct (_ >? _)%Z; [|intros w HP; exact HP].
    apply (leads_bind open_ended open_ended open_ended); [| |auto].
    { apply leads_reader. intros w. unfold get_action.
      destruct (find_object _ _) as [o|]; [|reflexivity].
      now destruct (animation_data o). }
    intros original. apply leads_try_finally.
    + apply leads_for_each. intros action. unfold export_action.
      destruct (frame_range action) as [act_start act_end].
      apply (leads_bind open_ended open_ended open_ended); [| |auto].
      * apply leads_unwritten, unwritten_set_action.
      * intros _. apply open_ended_output_one_animation.
    + apply leads_unwritten, unwritten_set_action.
  - apply (leads_bind open_ended open_ended open_ended); [| |auto].
    { apply leads_reader. reflexivity. }
    intros b. apply open_ended_output_one_animation.
Qed.

(** X16: [execute] starts the output file anew.  Either it returns
    ['FINISHED'], with the file closed and holding the XML declaration, the
    [<animations>] line, what the animations wrote and, last, the
    [</animations>] line; or it raises, with the file left open, holding
    the two first lines and what was written until then, and not ending
    with the [</animations>] line: the root element is left unclosed. *)
Theorem export_closes_only_on_return self w :
  (exists body,
      fst (execute self w) = Ok ["FINISHED"%string]
      /\ output_closed (snd (execute self w)) = true
      /\ output_file (snd (execute self w))
         = [("<?xml version=" ++ dq ++ "1.0" ++ dq ++ "?>" ++ nl)%string;
            ("<animations>" ++ nl)%string]
           ++ body ++ [("</animations>" ++ nl)%string])
  \/ (exists e body,
         fst (execute self w) = Raise e
         /\ output_closed (snd (execute self w)) = false
         /\ output_file (snd (execute self w))
            = [("<?xml version=" ++ dq ++ "1.0" ++ dq ++ "?>" ++ nl)%string;
               ("<animations>" ++ nl)%string]
              ++ body
         /\ forall l,
              output_file (snd (execute self w))
              <> l ++ [("</animations>" ++ nl)%string]).
Proof.
  destruct (execute self w) as [r w'] eqn:Hrun. cbn [fst snd].
  unfold execute in Hrun.
  unfold bind at 1 in Hrun. unfold open_output at 1 in Hrun.
  unfold bind at 1 in Hrun. unfold write at 1 in Hrun.
  unfold bind at 1 in Hrun. unfold write at 1 in Hrun.
  cbn [blend output_file output_closed old_objects old_objects_len
       action_log app] in Hrun.
  unfold bind at 1 in Hrun.
  match type of Hrun with
  | (let (_, _) := ?m ?v in _) = _ =>
      pose proof (still_open_animations self v) as Hopen;
      pose proof (open_ended_animations self v) as Hend;
      destruct (m v) as [[[]|e] w1]
  end; cbn [snd] in Hopen, Hend; destruct Hopen as [Hclosed [body Hbody]];
    cbn [output_closed output_file] in Hclosed, Hbody.
  - left. exists body. unfold bind, write, close_output, ret in Hrun.
    injection Hrun as <- <-. cbn [output_closed output_file].
    split; [reflexivity|]. split; [reflexivity|]. rewrite Hbody.
    now rewrite <- app_assoc.
  - right. exists e, body. injection Hrun as <- <-.
    split; [reflexivity|]. split; [exact Hclosed|]. split; [exact Hbody|].
    apply Hend. intros l E. cbn [output_file] in E.
    change [("<?xml version=" ++ dq ++ "1.0" ++ dq ++ "?>" ++ nl)%string;
            ("<animations>" ++ nl)%string]
      with ([("<?xml version=" ++ dq ++ "1.0" ++ dq ++ "?>" ++ nl)%string]
            ++ [("<animations>" ++ nl)%string]) in E.
    apply app_inj_tail in E. destruct E as [_ E].
    vm_compute in E. discriminate.
Qed.

(** What a loop has written when it returns, from what each round writes
    when it returns. *)
Lemma for_each_written {A D} (P : A -> D -> Prop)
  (chunk : A -> D -> list string) (body : A -> M unit) :
  (forall x w w',
      body x w = (Ok tt, w') ->
      exists d, P x d /\ output_file w' = output_file w ++ chunk x d) ->
  forall l w w',
    for_each l body w = (Ok tt, w') ->
    exists ds,
      Forall2 P l ds
      /\ output_file w'
         = output_file w
           ++ flat_map (fun item => chunk (fst item) (snd item))
                (combine l ds).
Proof.
  intros Hbody. induction l as [|x l IH]; intros w w' Hrun.
  - cbn in Hrun. injection Hrun as <-. exists []. split; [constructor|].
    cbn. now rewrite app_nil_r.
  - cbn [for_each] in Hrun. unfold bind in Hrun.
    destruct (body x w) as [[[]|e] w1] eqn:E; [|discriminate].
    apply Hbody in E. destruct E as (d & HP & Hw1).
    apply IH in Hrun. destruct Hrun as (ds & HPs & Hw').
    exists (d :: ds). split; [now constructor|].
    cbn [combine flat_map fst snd]. rewrite Hw', Hw1.
    now rewrite <- app_assoc.
Qed.

(** An animation that is written to its end is an [<animation>] element
    with one [<frame>] element for each frame of [Sample], in order. *)
Lemma animation_written self name frame_start frame_end w w' :
  output_one_animation self name frame_start frame_end w = (Ok tt, w') ->
  exists data,
    List.length data
    = List.length (Sample frame_start frame_end (frame_skip self))
    /\ output_file w'
       = output_file w ++ animation_block self name frame_start frame_end data.
Proof.
  rewrite output_one_animation_frames. unfold bind at 1.
  unfold write at 1. unfold bind.
  destruct (for_each _ _ _) as [[[]|e] w1] eqn:Hloop; [|discriminate].
  intros [= <-].
  apply (for_each_written (fun _ _ => True)
           (fun frame (d : Vec3 * Vec3 * string) =>
              frame_chunks self frame frame_start
                (fst (fst d)) (snd (fst d)) (snd d))) in Hloop.
  - destruct Hloop as (data & Hdata & Hw1). exists data.
    split; [symmetry; eapply Forall2_length; eassumption|].
    cbn [output_file]. rewrite Hw1. cbn [output_file].
    unfold animation_block, frame_elements.
    rewrite <- !app_assoc. reflexivity.
  - intros frame v v' Hframe.
    destruct (output_frame_writes self frame frame_start v) as [Hok _].
    rewrite Hframe in Hok. destruct (Hok eq_refl) as (c & s & doc & Hv').
    exists (c, s, doc). split; [exact I | exact Hv'].
Qed.

(** X17: when [output_one_animation] returns, it has written the
    [<animation>] line, then one [<frame>] element for each frame of
    [Sample], in the order of the frames and each with the time of its
    frame, then the [</animation>] line, and nothing else. *)
Theorem animation_has_one_frame_element_per_frame
  self name frame_start frame_end w w' :
  output_one_animation self name frame_start frame_end w = (Ok tt, w') ->
  exists data,
    List.length data
    = List.length (Sample frame_start frame_end (frame_skip self))
    /\ output_file w'
       = output_file w
         ++ animation_open name
         :: flat_map
              (fun item =>
                 [frame_line (frame_time (fst item) frame_start)
                    (mime_type self) (fst (fst (snd item)))
                    (snd (fst (snd item)));
                  snd (snd item); frame_close])
              (combine (Sample frame_start frame_end (frame_skip self)) data)
         ++ [animation_close].
Proof. apply animation_written. Qed.

(** X18: with no [actions_object], an export that returns has written
    one animation, named [animation], over the frame range of the scene:
    the file holds the XML declaration, the [<animations>] line, the
    [<animation>] element and the [</animations>] line. *)
Theorem scene_export_written self w status w' :
  actions_object self = EmptyString ->
  execute self w = (Ok status, w') ->
  exists data,
    List.length data
    = List.length (Sample (scene_frame_start (blend w))
                     (scene_frame_end (blend w)) (frame_skip self))
    /\ output_file w'
       = container_open
         ++ animation_block self "animation" (scene_frame_start (blend w))
              (scene_frame_end (blend w)) data
         ++ [container_close].
Proof.
  intros Hname. unfold execute.
  unfold bind at 1. unfold open_output at 1.
  unfold bind at 1. unfold write at 1.
  unfold bind at 1. unfold write at 1. cbn [blend output_file output_closed
    old_objects old_objects_len action_log app].
  rewrite Hname. cbn [String.eqb negb].
  unfold bind at 1. unfold bind at 1. unfold get_blend at 1. cbn [blend].
  destruct (output_one_animation _ _ _ _ _) as [[[]|e] w1] eqn:Hrun;
    [|discriminate].
  apply animation_written in Hrun. destruct Hrun as (data & Hlen & Hw1).
  cbn [output_file] in Hw1.
  unfold bind, write, close_output, ret. intros [= _ <-].
  exists data. split; [exact Hlen|]. cbn [output_file]. rewrite Hw1.
  unfold container_open, container_close. now rewrite <- app_assoc.
Qed.

(** X19: with an [actions_object], an export that returns has found the
    object and has written one [<animation>] element for each action
    gathered for it, in the order of [bpy.data.actions], named after the
    action and sampled over the frame range of the action, with its two
    ends truncated to integers. *)
Theorem actions_export_written self w status w' :
  actions_object self <> EmptyString ->
  execute self w = (Ok status, w') ->
  exists o data,
    find (fun ob => String.eqb (ob_name ob) (actions_object self))
         (scene_objects (blend w)) = Some o
    /\ actions_to_export (blend w) (ob_id o) <> []
    /\ Forall2
         (fun action frames =>
            List.length frames
            = List.length
                (Sample (py_int (fst (frame_range action)))
                   (py_int (snd (frame_range action))) (frame_skip self)))
         (actions_to_export (blend w) (ob_id o)) data
    /\ output_file w'
       = container_open
         ++ action_blocks self (actions_to_export (blend w) (ob_id o)) data
         ++ [container_close].
Proof.
  intros Hname. apply String.eqb_neq in Hname. unfold execute.
  unfold bind at 1. unfold open_output at 1.
  unfold bind at 1. unfold write at 1.
  unfold bind at 1. unfold write at 1. cbn [blend output_file output_closed
    old_objects old_objects_len action_log app].
  rewrite Hname. cbn [negb].
  unfold bind at 1. unfold bind at 1. unfold lookup_object at 1.
  cbn [blend].
  destruct (find _ (scene_objects (blend w))) as [o|]; [|discriminate].
  unfold bind at 1. unfold get_blend at 1. cbn [blend]. cbn zeta.
  destruct (len (actions_to_export (blend w) (ob_id o)) >? 0)%Z eqn:Hlen;
    [|discriminate].
  unfold bind at 1.
  destruct (get_action (ob_id o) _) as [[original|e] w0] eqn:Hget;
    [|discriminate].
  assert (Hw0 : output_file w0 = container_open /\ blend w0 = blend w).
  { unfold get_action in Hget. cbn [blend] in Hget.
    destruct (find_object _ _) as [found|]; [|discriminate].
    destruct (animation_data found); [|discriminate].
    injection Hget as _ <-. split; reflexivity. }
  clear Hget. destruct Hw0 as [Hw0 _].
  unfold try_finally.
  destruct (for_each _ _ w0) as [[[]|e] w1] eqn:Hloop.
  2:{ destruct (set_action _ _ w1) as [[[]|e'] w2]; discriminate. }
  pose proof (still_open_set_action (ob_id o) original w1) as [_ [l Hlast]].
  assert (Hnone : output_file (snd (set_action (ob_id o) original w1))
                  = output_file w1).
  { unfold set_action. destruct (find_object _ _) as [found|];
      [|reflexivity]. now destruct (animation_data found). }
  clear l Hlast.
  destruct (set_action _ _ w1) as [[[]|e'] w2]; [|discriminate].
  cbn [snd] in Hnone.
  unfold bind, write, close_output, ret. intros [= _ <-].
  apply (for_each_written
           (fun action frames =>
              List.length frames
              = List.length
                  (Sample (py_int (fst (frame_range action)))
                     (py_int (snd (frame_range action))) (frame_skip self)))
           (fun action frames =>
              animation_block self (act_name action)
                (py_int (fst (frame_range action)))
                (py_int (snd (frame_range action))) frames)) in Hloop.
  - destruct Hloop as (data & Hdata & Hw1). exists o, data.
    split; [reflexivity|]. split.
    { intros Hnil. rewrite Hnil in Hlen. discriminate. }
    split; [exact Hdata|]. cbn [output_file].
    rewrite Hnone, Hw1, Hw0. unfold action_blocks, container_close.
    now rewrite <- app_assoc.
  - intros action v v'. unfold export_action.
    destruct (frame_range action) as [act_start act_end]. cbn [fst snd].
    unfold bind at 1.
    assert (Hset : output_file
                     (snd (set_action (ob_id o) (Some (act_id action)) v))
                   = output_file v).
    { unfold set_action. destruct (find_object _ _) as [found|];
        [|reflexivity]. now destruct (animation_data found). }
    destruct (set_action _ _ v) as [[[]|e] v1]; [|discriminate].
    cbn [snd] in Hset. intros Hrun.
    apply animation_written in Hrun. destruct Hrun as (frames & Hlen' & Hv').
    exists frames. split; [exact Hlen'|]. now rewrite Hv', Hset.
Qed.

(** X20: when [actions_object] names no object of the scene, [execute]
    raises [KeyError] with that name; the output file then holds its two
    first lines only and is left open, and the scene is as it was. *)
Theorem missing_actions_object self w :
  actions_object self <> EmptyString ->
  find (fun ob => String.eqb (ob_name ob) (actions_object self))
       (scene_objects (blend w)) = None ->
  exists w',
    execute self w = (Raise (KeyError (actions_object self)), w')
    /\ output_file w' = container_open
    /\ output_closed w' = false
    /\ blend w' = blend w
    /\ action_log w' = action_log w.
Proof.
  intros Hname Hfind. apply String.eqb_neq in Hname.
  unfold execute, bind, open_output, write, lookup_object.
  cbn. rewrite Hname. cbn. rewrite Hfind.
  eexists. split; [reflexivity|]. cbn. auto.
Qed.

(** X21: when the object named by [actions_object] has actions to export
    and no animation data, [execute] raises [AttributeError] before any
    animation is written and before any action is bound. *)
Theorem actions_object_without_animation_data self w o :
  actions_object self <> EmptyString ->
  find (fun ob => String.eqb (ob_name ob) (actions_object self))
       (scene_objects (blend w)) = Some o ->
  find_object (ob_id o) (blend w) = Some o ->
  animation_data o = None ->
  actions_to_export (blend w) (ob_id o) <> [] ->
  exists w',
    execute self w = (Raise (AttributeError "action"), w')
    /\ output_file w' = container_open
    /\ output_closed w' = false
    /\ blend w' = blend w
    /\ action_log w' = action_log w.
Proof.
  intros Hname Hfind Hid Hdata Hactions. apply String.eqb_neq in Hname.
  apply len_positive in Hactions. unfold find_object in Hid.
  unfold execute, bind, open_output, write, lookup_object, get_blend,
    get_action, find_object.
  cbn. rewrite Hname. cbn. rewrite Hfind. cbn. rewrite Hactions.
  cbn [blend]. rewrite Hid, Hdata.
  eexists. split; [reflexivity|]. cbn. auto.
Qed.

End OutputFile.

(** ** The second hook of Make Duplicates Real on a host that obeys *)

Section SecondHook.
Context {L : HostLib} {H : Host}.

Lemma find_marked (p : Object -> bool) (f : Object -> Object) objects :
  (forall o, p (f o) = p o) ->
  find p (map f objects) = option_map f (find p objects).
Proof.
  intros Hp. induction objects as [|o objects IH]; cbn; [reflexivity|].
  rewrite Hp. destruct (p o); [reflexivity | exact IH].
Qed.

Lemma find_object_of_id ob b :
  In ob (object_ids b) -> exists o, find_object ob b = Some o /\ ob_id o = ob.
Proof.
  unfold object_ids, find_object. intros Hin.
  apply in_map_iff in Hin. destruct Hin as (o & Hid & Hin).
  destruct (find _ _) as [found|] eqn:E.
  - exists found. split; [reflexivity|].
    apply find_some in E. now apply Nat.eqb_eq.
  - exfalso. apply (find_none _ _ E) in Hin.
    rewrite Hid, Nat.eqb_refl in Hin. discriminate.
Qed.

(** With a [select_set] that obeys, the selection loop over objects of the
    scene returns, and has counted the objects it has selected. *)
Lemma select_duplicates_counts new_objects :
  select_set_obeys ->
  forall todo count w,
    incl todo (object_ids (blend w)) ->
    exists w1,
      select_duplicates todo new_objects count w
      = (Ok (count
             + len (filter (fun ob => mem ob new_objects
                                      && negb (mem ob (old_objects w)))
                           todo)), w1).
Proof.
  intros Hobeys. induction todo as [|ob todo IH]; intros count w Hincl.
  - exists w. cbn. unfold ret, len. cbn. now rewrite Z.add_0_r.
  - cbn [select_duplicates].
    unfold bind at 1. unfold get_old_objects at 1.
    unfold bind at 1. unfold host at 1. rewrite Hobeys.
    unfold bind at 1. unfold select_get at 1. cbn [blend set_blend].
    assert (Hob : In ob (object_ids (blend w))) by (apply Hincl; now left).
    destruct (find_object_of_id _ _ Hob) as (o & Hfind & Hid).
    unfold find_object at 1. cbn [scene_objects set_objects].
    rewrite find_marked
      by (intros x; destruct (Nat.eqb (ob_id x) ob) eqn:Ex;
          [exact Ex | now rewrite Ex]).
    unfold find_object in Hfind. rewrite Hfind. cbn [option_map].
    apply Nat.eqb_eq in Hid. rewrite Hid. cbn [ob_selected set_selected].
    match goal with |- context [select_duplicates todo _ ?c ?v] =>
      destruct (IH c v) as [w1 Hrun] end.
    { intros x Hx. cbn [blend set_blend]. unfold object_ids.
      cbn [scene_objects set_objects]. rewrite map_map.
      assert (Hin : In x (object_ids (blend w)))
        by (apply Hincl; now right).
      unfold object_ids in Hin.
      erewrite map_ext; [exact Hin|].
      intros x'. now destruct (Nat.eqb (ob_id x') ob). }
    exists w1. rewrite Hrun. cbn [old_objects set_blend filter].
    f_equal. f_equal.
    destruct (mem ob new_objects && negb (mem ob (old_objects w)));
      unfold len; cbn [List.length]; lia.
Qed.

Lemma kept_ids_length (old ids : list nat) :
  NoDup ids -> NoDup old -> incl old ids ->
  List.length (filter (fun item => mem item old) ids) = List.length old.
Proof.
  intros Hids Hold Hincl. apply Nat.le_antisymm.
  - apply NoDup_incl_length; [now apply NoDup_filter|].
    intros x Hx. apply filter_In in Hx. now apply mem_In.
  - apply NoDup_incl_length; [assumption|].
    intros x Hx. apply filter_In. split; [now apply Hincl | now apply mem_In].
Qed.

Lemma kept_and_dropped (old ids : list nat) :
  (List.length (filter (fun item => mem item old) ids)
   + List.length (filter (fun item => negb (mem item old)) ids)
   = List.length ids)%nat.
Proof.
  induction ids as [|x ids IH]; cbn; [reflexivity|].
  destruct (mem x old); cbn; lia.
Qed.

(** X22: when every object of the scene was recorded by the first hook and
    the number of objects is the recorded one, the second hook returns
    without calling an operator: it leaves the scene, the selection and the
    output file as they are. *)
Theorem second_hook_without_duplicates w :
  (forall ob, In ob (object_ids (blend w)) -> In ob (old_objects w)) ->
  old_objects_len w = len (object_ids (blend w)) ->
  make_duplicates_real_after w = (Ok tt, w).
Proof.
  intros Hall Hlen. rewrite make_duplicates_real_after_unfold. cbn zeta.
  rewrite Hlen, Z.ltb_irrefl.
  assert (Hnone : forall ids,
             (forall ob, In ob ids -> In ob (old_objects w)) ->
             filter (fun item => negb (mem item (old_objects w))) ids = []).
  { induction ids as [|x ids IH]; intros Hin; [reflexivity|].
    cbn [filter].
    assert (Hx : mem x (old_objects w) = true)
      by (apply mem_In, Hin; now left).
    rewrite Hx. cbn [negb]. apply IH.
    intros ob Hob. apply Hin. now right. }
  rewrite (Hnone _ Hall). cbn [ret negb len List.length Z.of_nat Z.eqb].
  now rewrite Hlen, Z.eqb_refl.
Qed.

(** X23: on a host whose [select_set] and [object_delete] obey, when the
    objects of the scene have distinct identities and the recorded objects
    are all still in the scene, the second hook returns: it raises none of
    its three errors, it leaves in the scene the recorded objects and only
    them, and it writes nothing. *)
Theorem second_hook_returns w :
  select_set_obeys -> object_delete_obeys ->
  NoDup (object_ids (blend w)) ->
  NoDup (old_objects w) ->
  incl (old_objects w) (object_ids (blend w)) ->
  old_objects_len w = len (old_objects w) ->
  exists w',
    make_duplicates_real_after w = (Ok tt, w')
    /\ object_ids (blend w')
       = filter (fun item => mem item (old_objects w)) (object_ids (blend w))
    /\ len (object_ids (blend w')) = old_objects_len w
    /\ output_file w' = output_file w.
Proof.
  intros Hselect Hdelete Hids Hold Hincl Hlen.
  pose proof (kept_ids_length _ _ Hids Hold Hincl) as Hkept.
  pose proof (kept_and_dropped (old_objects w) (object_ids (blend w)))
    as Hsum.
  rewrite make_duplicates_real_after_unfold. cbn zeta.
  assert (Hge : (len (object_ids (blend w)) <? old_objects_len w)%Z = false).
  { apply Z.ltb_ge. rewrite Hlen. unfold len. lia. }
  rewrite Hge.
  destruct (len (filter _ _) =? 0)%Z eqn:E; cbn [negb].
  - apply len_zero in E. cbn [ret].
    rewrite E in Hsum. cbn [List.length] in Hsum.
    assert (Hsame : len (object_ids (blend w)) = old_objects_len w)
      by (rewrite Hlen; unfold len; lia).
    rewrite Hsame, Z.eqb_refl. cbn [negb].
    exists w. split; [reflexivity|]. split; [|split; auto].
    now rewrite (filter_all _ _ E).
  - destruct (select_duplicates_counts (object_ids (blend w)) Hselect
                (object_ids (blend w)) 0 w (incl_refl _)) as [w1 Hloop].
    pose proof (same_old_select_duplicates (object_ids (blend w))
                  (object_ids (blend w)) 0 w) as Hsame.
    pose proof (steps_select_duplicates unwritten unwritten_refl
                  unwritten_trans unwritten_host_call
                  (object_ids (blend w)) (object_ids (blend w)) 0 w)
      as Hout.
    rewrite Hloop in Hsame, Hout. cbn [snd] in Hsame, Hout.
    destruct Hsame as [_ Holdlen]. unfold unwritten in Hout.
    unfold bind at 1. rewrite Hloop.
    apply (select_duplicates_marks _ Hselect) in Hloop.
    destruct Hloop as [Hblend _].
    assert (Hcount : (0 + len (filter
                                 (fun ob => mem ob (object_ids (blend w))
                                            && negb (mem ob (old_objects w)))
                                 (object_ids (blend w))))
                     = len (filter
                              (fun item => negb (mem item (old_objects w)))
                              (object_ids (blend w)))).
    { rewrite Z.add_0_l. f_equal. apply filter_ext_in.
      intros x Hx. apply mem_In in Hx. now rewrite Hx. }
    rewrite Hcount, Z.eqb_refl. cbn [negb].
    unfold bind at 1. cbn [ret]. unfold host. rewrite Hdelete.
    cbn [set_blend blend old_objects_len].
    assert (Hleft : object_ids
                      (set_objects (blend w1)
                         (filter (fun o => negb (ob_selected o))
                                 (scene_objects (blend w1))))
                    = filter (fun item => mem item (old_objects w))
                             (object_ids (blend w))).
    { rewrite Hblend.
      transitivity (filter (fun item => mem item (old_objects w))
                           (map ob_id (scene_objects (blend w))));
        [|reflexivity].
      rewrite <- ids_after_delete.
      unfold object_ids at 1. cbn [scene_objects set_objects].
      f_equal. f_equal. apply map_ext_in. intros o Hin.
      assert (Hmem : mem (ob_id o) (object_ids (blend w)) = true).
      { apply mem_In. unfold object_ids. now apply in_map. }
      rewrite Hmem. reflexivity. }
    rewrite Hleft.
    assert (Hfinal : len (filter (fun item => mem item (old_objects w))
                                 (object_ids (blend w)))
                     = old_objects_len w1).
    { rewrite Holdlen, Hlen. unfold len. now rewrite Hkept. }
    rewrite Hfinal, Z.eqb_refl. cbn [negb].
    eexists. split; [reflexivity|]. cbn [blend output_file set_blend].
    rewrite Hleft. split; [reflexivity|].
    split; [congruence | exact Hout].
Qed.

(** X24: with the glTF format, when the exporter raises, [output_frame]
    raises the same exception at once: the [<frame>] element is left open
    after its first line, and the second hook of Make Duplicates Real does
    not run, so that the scene stays as the exporter left it, with the
    objects the first hook has made real. *)
Theorem failed_export_skips_second_hook self frame frame_start w w1 w2 e b :
  frame_format self = GLTF ->
  host (frame_set frame) w = (Ok tt, w1) ->
  (if make_duplicates_real self then make_duplicates_real_before else ret tt)
    w1 = (Ok tt, w2) ->
  export_scene_gltf (temp_file_name self "_tmp.gltf") self (blend w2)
  = (Raise e, b) ->
  exists w' center size,
    output_frame self frame frame_start w = (Raise e, w')
    /\ blend w' = b
    /\ old_objects w' = old_objects w2
    /\ output_file w'
       = output_file w
         ++ [frame_line (frame_time frame frame_start) (mime_type self)
               center size].
Proof.
  intros Hformat Hset Hbefore Hexport.
  pose proof (unwritten_frame_setup self frame w) as Hsetup.
  unfold bind in Hsetup. rewrite Hset, Hbefore in Hsetup.
  cbn [snd] in Hsetup. unfold unwritten in Hsetup.
  unfold output_frame.
  rewrite (bind_Ok _ _ _ _ _ Hset), (bind_Ok _ _ _ _ _ Hbefore).
  unfold bind at 1. unfold current_bounding_box at 1.
  destruct (bounding_box_of_loop self (scene_objects (blend w2)))
    as (st & Hbox & _).
  rewrite Hbox. destruct (center_and_size st) as [center size]. exists
    (set_blend
       {| blend := blend w2;
          output_file :=
            output_file w2
            ++ [frame_line (frame_time frame frame_start) (mime_type self)
                  center size];
          output_closed := output_closed w2;
          old_objects := old_objects w2;
          old_objects_len := old_objects_len w2;
          action_log := action_log w2 |} b), center, size.
  unfold bind at 1. unfold write at 1. rewrite Hformat.
  unfold bind at 1. unfold output_frame_gltf.
  unfold temp_file_name in Hexport.
  destruct (os_path_split (filepath self)) as [dir base].
  unfold bind at 1. unfold host at 1. cbn [blend]. rewrite Hexport.
  split; [reflexivity|]. cbn [set_blend blend old_objects output_file].
  rewrite Hsetup. auto.
Qed.

End SecondHook.

(** ** The bounding box of a frame *)

Section FrameBox.
Context {L : HostLib} {H : Host}.

(** X25: the bounding box on the [<frame>] line is the one of the scene as
    it is once the frame is set and the first hook of Make Duplicates Real
    has run, before the exporter is called: the objects made real count in
    it. *)
Theorem frame_box_is_taken_after_first_hook
  self frame frame_start w w1 w2 center size :
  host (frame_set frame) w = (Ok tt, w1) ->
  (if make_duplicates_real self then make_duplicates_real_before else ret tt)
    w1 = (Ok tt, w2) ->
  get_current_bounding_box self (scene_objects (blend w2))
  = Ok (center, size) ->
  exists rest,
    output_file (snd (output_frame self frame frame_start w))
    = output_file w
      ++ frame_line (frame_time frame frame_start) (mime_type self)
           center size :: rest.
Proof.
  intros Hset Hbefore Hbox.
  pose proof (unwritten_frame_setup self frame w) as Hsetup.
  unfold bind in Hsetup. rewrite Hset, Hbefore in Hsetup.
  cbn [snd] in Hsetup. unfold unwritten in Hsetup.
  unfold output_frame.
  rewrite (bind_Ok _ _ _ _ _ Hset), (bind_Ok _ _ _ _ _ Hbefore).
  unfold bind at 1. unfold current_bounding_box at 1. rewrite Hbox.
  unfold bind at 1. unfold write at 1.
  match goal with |- context [bind ?m ?k ?v] =>
    destruct (appended_frame_rest self v) as [rest Hrest];
    change (bind m k v) with
      (bind (match frame_format self with
             | GLTF => output_frame_gltf self
             | X3D => output_frame_x3d self
             end)
         (fun _ =>
            bind (write frame_close)
              (fun _ =>
                 if make_duplicates_real self
                 then make_duplicates_real_after else ret tt)) v)
  end.
  exists rest. rewrite Hrest. cbn [output_file]. rewrite Hsetup.
  now rewrite <- app_assoc.
Qed.

End FrameBox.

(** ** The theorems on concrete scenes *)

Import Simple Demo.

Lemma bounding_box_sentinel_or_nonnegative_witness :
  get_current_bounding_box scene_export [camera]
  = Ok (vec3 0 0 0, vec3 (-1) (-1) (-1))
  /\ exists center size,
       get_current_bounding_box scene_export [cube; camera]
       = Ok (center, size)
       /\ (0 <= vx size /\ 0 <= vy size /\ 0 <= vz size)%Q.
Proof.
  split.
  - apply (proj1 (bounding_box_sentinel_or_nonnegative scene_export [camera])).
    cbn. intros ob [<- | []]. reflexivity.
  - apply (proj2 (bounding_box_sentinel_or_nonnegative scene_export
                    [cube; camera])).
    exists cube. cbn. split; [now left | reflexivity].
Defined.

Lemma non_renderable_object_ignored_witness :
  In (ob_type camera) non_renderable_types
  /\ get_current_bounding_box scene_export ([cube] ++ camera :: [far_cube])
     = get_current_bounding_box scene_export ([cube] ++ [far_cube]).
Proof.
  assert (Hcamera : In (ob_type camera) non_renderable_types)
    by (cbn; do 3 right; now left).
  split; [exact Hcamera|].
  exact (non_renderable_object_ignored scene_export [cube] camera [far_cube]
           Hcamera).
Defined.

(** The tuple of excluded types names lights [LAMP]: an object whose type
    is the string [LIGHT] passes the type test and is used. *)
Remark light_objects_are_named_LAMP :
  contributes (typed "LAMP") = false
  /\ contributes (typed "LIGHT") = true
  /\ exists box,
       get_current_bounding_box scene_export [typed "LIGHT"] = Ok box
       /\ box_eq box (vec3 9 9 9, vec3 2 2 2).
Proof.
  split; [reflexivity|]. split; [reflexivity|].
  eexists. split; [reflexivity|]. repeat split; reflexivity.
Qed.

(** C4 (a defect of the code): the tuple of excluded types names lights
    [LAMP], the name they had before Blender 2.80; on the Blender the
    add-on is written for, the type of a light is [LIGHT].  The comment of
    the test says that lights are filtered out, and they are not: such an
    object passes the type test and its corners enter the box.  With a cube
    at the origin, the box has center (0, 0, 0) and size (2, 2, 2); with a
    light at (9, 9, 9) added, it has center (9/2, 9/2, 9/2) and size
    (11, 11, 11). *)
Lemma light_object_enlarges_box :
  ob_type (typed "LIGHT") = "LIGHT"%string
  /\ ~ In (ob_type (typed "LIGHT")) non_renderable_types
  /\ exists box box',
       get_current_bounding_box scene_export [cube; typed "LIGHT"] = Ok box
       /\ get_current_bounding_box scene_export [cube] = Ok box'
       /\ box_eq box (vec3 (9 # 2) (9 # 2) (9 # 2), vec3 11 11 11)
       /\ box_eq box' (vec3 0 0 0, vec3 2 2 2)
       /\ ~ box_eq box box'.
Proof.
  split; [reflexivity|]. split.
  { cbn. intros [E | [E | [E | [E | [E | [E | []]]]]]]; discriminate. }
  eexists _, _. split; [reflexivity|]. split; [reflexivity|].
  split; [repeat split; reflexivity|]. split; [repeat split; reflexivity|].
  intros [[E _] _]. vm_compute in E. discriminate.
Qed.

Lemma bounding_box_order_invariant_witness :
  Permutation [cube; far_cube] [far_cube; cube]
  /\ exists box box',
       get_current_bounding_box scene_export [cube; far_cube] = Ok box
       /\ get_current_bounding_box scene_export [far_cube; cube] = Ok box'
       /\ box_eq box box'.
Proof.
  split; [apply perm_swap|].
  exact (bounding_box_order_invariant scene_export _ _
           (perm_swap far_cube cube [])).
Defined.

Lemma frame_time_is_offset_over_25_witness :
  0 <= 10
  /\ (inject_Z 0 / 25 == 0)%Q
  /\ (output_file (snd (output_one_animation scene_export "walk" 0 10 plain))
      = output_file plain ++ [animation_open "walk"]
      \/ exists center size rest,
           output_file
             (snd (output_one_animation scene_export "walk" 0 10 plain))
           = output_file plain
             ++ animation_open "walk"
             :: (tab ++ tab ++ "<frame time=" ++ dq
                 ++ format_f (inject_Z 0 / 25)%Q ++ dq
                 ++ " mime_type=" ++ dq
                 ++ match frame_format scene_export with
                    | GLTF => "model/gltf+json"
                    | X3D => "model/x3d+vrml"
                    end ++ dq
                 ++ " bounding_box_center=" ++ dq ++ format_f (vx center)
                 ++ " " ++ format_f (vy center) ++ " "
                 ++ format_f (vz center) ++ dq
                 ++ " bounding_box_size=" ++ dq ++ format_f (vx size) ++ " "
                 ++ format_f (vy size) ++ " " ++ format_f (vz size) ++ dq
                 ++ ">" ++ nl)%string
             :: rest).
Proof.
  assert (Hle : 0 <= 10) by lia.
  split; [exact Hle|].
  exact (proj2 (frame_time_is_offset_over_25 scene_export 0)
           "walk"%string 10 plain Hle).
Defined.

(** The run of the witness, computed: the three [<frame>] lines written for
    the frames 0, 5 and 10 carry the times 0, 5 / 25 and 10 / 25. *)
Remark frame_times_of_a_run :
  map (fun k => nth k (output_file
                         (snd (output_one_animation scene_export "walk" 0 10
                                 plain))) EmptyString) [1; 4; 7]%nat
  = map (fun time =>
           (tab ++ tab ++ "<frame time=" ++ dq ++ time ++ dq
            ++ " mime_type=" ++ dq ++ "model/gltf+json" ++ dq
            ++ " bounding_box_center=" ++ dq
            ++ "0.000000 0.000000 0.000000" ++ dq
            ++ " bounding_box_size=" ++ dq
            ++ "2.000000 2.000000 2.000000" ++ dq ++ ">" ++ nl)%string)
        ["0.000000"; "0.200000"; "0.400000"]%string.
Proof. vm_compute. reflexivity. Qed.

Lemma animation_name_written_verbatim_witness :
  odd_name <> EmptyString
  /\ exists rest,
       output_file (snd (output_one_animation scene_export odd_name 0 10 plain))
       = output_file plain
         ++ (tab ++ "<animation name=" ++ dq ++ odd_name ++ dq ++ ">"
             ++ nl)%string
         :: rest.
Proof.
  assert (Hname : odd_name <> EmptyString) by (vm_compute; discriminate).
  split; [exact Hname|].
  exact (animation_name_written_verbatim scene_export odd_name 0 10 plain
           Hname).
Defined.

Lemma no_action_found_witness :
  exists w',
    execute actions_export plain
    = (Raise (Exception [PStr ("No action found on object " ++ dq
                               ++ actions_object actions_export ++ dq)]), w')
    /\ output_file w'
       = [("<?xml version=" ++ dq ++ "1.0" ++ dq ++ "?>" ++ nl)%string;
          ("<animations>" ++ nl)%string]
    /\ output_closed w' = false
    /\ blend w' = blend plain.
Proof.
  apply (no_action_found actions_export plain cube).
  - vm_compute. discriminate.
  - reflexivity.
  - reflexivity.
Defined.

(** C6 on two runs: one that returns, and one in which the exporter raises
    in the first frame of the first action. *)
Lemma original_action_restored_witness :
  (exists k,
      (0 < k <= List.length (actions_to_export (blend animated) 1))%nat
      /\ bound_action 1 (blend (snd (execute actions_export animated)))
         = Some None
      /\ action_log (snd (execute actions_export animated))
         = action_log animated
           ++ map (fun a => Some (act_id a))
                (firstn k (actions_to_export (blend animated) 1))
           ++ [None]
      /\ ((fst (execute actions_export animated) = Ok ["FINISHED"%string]
           /\ k = List.length (actions_to_export (blend animated) 1))
          \/ exists e, fst (execute actions_export animated) = Raise e))
  /\ (exists k,
         (0 < k
          <= List.length
               (@actions_to_export lib (ops_with true true)
                  (blend animated) 1))%nat
         /\ bound_action 1
              (blend (snd (@execute lib (ops_with true true)
                             actions_export animated)))
            = Some None
         /\ action_log (snd (@execute lib (ops_with true true)
                               actions_export animated))
            = action_log animated
              ++ map (fun a => Some (act_id a))
                   (firstn k
                      (@actions_to_export lib (ops_with true true)
                         (blend animated) 1))
              ++ [None]
         /\ ((fst (@execute lib (ops_with true true)
                     actions_export animated) = Ok ["FINISHED"%string]
              /\ k = List.length
                       (@actions_to_export lib (ops_with true true)
                          (blend animated) 1))
             \/ exists e,
                  fst (@execute lib (ops_with true true)
                         actions_export animated) = Raise e)).
Proof.
  split.
  - apply (@original_action_restored lib ops actions_export animated cube
             None).
    + vm_compute. discriminate.
    + reflexivity.
    + reflexivity.
    + vm_compute. discriminate.
    + apply simple_keeps_object.
  - apply (@original_action_restored lib (ops_with true true) actions_export
             animated cube None).
    + vm_compute. discriminate.
    + reflexivity.
    + reflexivity.
    + vm_compute. discriminate.
    + apply simple_keeps_object.
Defined.

(** The same two runs, computed: all actions gone through and the original
    action bound once at the end; and the exporter's exception, after one
    action, with the original action bound once. *)
Remark restoration_runs :
  fst (execute actions_export animated) = Ok ["FINISHED"%string]
  /\ action_log (snd (execute actions_export animated))
     = [Some 1%nat; Some 2%nat; None]
  /\ fst (@execute lib (ops_with true true) actions_export animated)
     = Raise (HostError "export failed")
  /\ action_log (snd (@execute lib (ops_with true true)
                        actions_export animated))
     = [Some 1%nat; None].
Proof. repeat split; vm_compute; reflexivity. Qed.

Lemma second_hook_restores_object_count_witness :
  make_duplicates_real_after shrunk = (Raise less_objects_error, shrunk)
  /\ fst (@make_duplicates_real_after lib (ops_with false false) realized)
     = Raise selection_error
  /\ len (object_ids (blend (snd (make_duplicates_real_after realized))))
     = old_objects_len realized
  /\ object_ids (blend (snd (make_duplicates_real_after realized)))
     = filter (fun item => mem item (old_objects realized))
              (object_ids (blend realized)).
Proof.
  split; [|split; [|split]].
  - apply (proj1 (proj2 (@second_hook_restores_object_count lib ops))).
    vm_compute. reflexivity.
  - rewrite (proj1 (proj2 (proj2 (@second_hook_restores_object_count lib
                                    (ops_with false false))))
               realized 3
               (snd (@select_duplicates lib (ops_with false false)
                       (object_ids (blend realized))
                       (object_ids (blend realized)) 0 realized))).
    + reflexivity.
    + vm_compute. discriminate.
    + vm_compute. discriminate.
    + apply injective_projections; [vm_compute; reflexivity | reflexivity].
    + vm_compute. discriminate.
  - apply (proj1 (proj2 (proj2 (proj2
             (@second_hook_restores_object_count lib ops)))) realized).
    vm_compute. reflexivity.
  - apply (proj2 (proj2 (proj2 (proj2
             (@second_hook_restores_object_count lib ops))))).
    + apply simple_select_set_obeys.
    + apply simple_object_delete_obeys.
    + vm_compute. reflexivity.
Defined.

(** C5 (as stated) fails on the selection.  With nothing to realize, a cube
    that was not selected is selected after the frame, because the first
    hook selects every object; with two instances to realize, a cube that
    was selected is not selected after the frame, because the second hook
    deselects the objects it keeps.  In both runs the frame is written and
    the objects are those of the start. *)
Lemma selection_not_restored :
  (fst (output_frame duplicates_export 0 0 plain) = Ok tt
   /\ object_ids (blend (snd (output_frame duplicates_export 0 0 plain)))
      = object_ids (blend plain)
   /\ map ob_selected (scene_objects (blend plain)) = [false]
   /\ map ob_selected
        (scene_objects (blend (snd (output_frame duplicates_export 0 0 plain))))
      = [true])
  /\ (fst (output_frame duplicates_export 0 0 instanced) = Ok tt
      /\ object_ids
           (blend (snd (output_frame duplicates_export 0 0 instanced)))
         = object_ids (blend instanced)
      /\ map ob_selected (scene_objects (blend instanced)) = [true]
      /\ map ob_selected
           (scene_objects
              (blend (snd (output_frame duplicates_export 0 0 instanced))))
         = [false]).
Proof. repeat split; vm_compute; reflexivity. Qed.

(** ** More theorems on concrete scenes *)

Import Cases.

Lemma Sample_of_empty_range_witness :
  3 <= 5 /\ Sample 5 3 4 = [3].
Proof.
  assert (Hle : 3 <= 5) by lia.
  split; [exact Hle | exact (Sample_of_empty_range 5 3 4 Hle)].
Defined.

Lemma Sample_stride_witness :
  (S 1 < List.length (Sample 0 10 4))%nat
  /\ nth 1 (Sample 0 10 4) 0 = 0 + Z.of_nat 1 * (1 + Z.of_N 4)
  /\ 0 <= 10
  /\ In 5 (Sample 0 10 4)
  /\ 0 <= 5 <= 10.
Proof.
  assert (Hi : (S 1 < List.length (Sample 0 10 4))%nat)
    by (vm_compute; lia).
  assert (Hle : 0 <= 10) by lia.
  assert (Hin : In 5 (Sample 0 10 4)) by (vm_compute; auto).
  split; [exact Hi|].
  split; [exact (proj1 (Sample_stride 0 10 4) 1%nat Hi)|].
  split; [exact Hle|]. split; [exact Hin|].
  exact (proj2 (Sample_stride 0 10 4) Hle 5 Hin).
Defined.

Lemma py_int_keeps_order_witness :
  ((-3 # 2) <= (5 # 2))%Q /\ py_int (-3 # 2) <= py_int (5 # 2).
Proof.
  assert (Hle : ((-3 # 2) <= (5 # 2))%Q) by (unfold Qle; cbn; lia).
  split; [exact Hle | exact (proj2 py_int_keeps_order _ _ Hle)].
Defined.

Lemma bounding_box_holds_corners_witness :
  In far_cube (box_candidates scene_export [cube; far_cube])
  /\ contributes far_cube = true
  /\ In (vec3 5 1 1)
       (object_box_points
          (axis_conversion (axis_forward scene_export) (axis_up scene_export))
          far_cube)
  /\ exists st,
       final_scene_box scene_export [cube; far_cube] = Ok st
       /\ get_current_bounding_box scene_export [cube; far_cube]
          = Ok (center_and_size st)
       /\ scene_box_empty st = false
       /\ vec_le (scene_box_min st) (vec3 5 1 1)
       /\ vec_le (vec3 5 1 1) (scene_box_max st).
Proof.
  assert (Hin : In far_cube (box_candidates scene_export [cube; far_cube]))
    by (cbn; auto).
  assert (Hc : contributes far_cube = true) by reflexivity.
  assert (Hp : In (vec3 5 1 1)
                 (object_box_points
                    (axis_conversion (axis_forward scene_export)
                       (axis_up scene_export)) far_cube))
    by (vm_compute; do 6 right; left; reflexivity).
  split; [exact Hin|]. split; [exact Hc|]. split; [exact Hp|].
  exact (bounding_box_holds_corners scene_export [cube; far_cube] far_cube
           (vec3 5 1 1) Hin Hc Hp).
Defined.

Lemma bounding_box_is_tight_witness :
  exists st,
    final_scene_box scene_export [cube; far_cube] = Ok st
    /\ get_current_bounding_box scene_export [cube; far_cube]
       = Ok (center_and_size st)
    /\ (reached vx (vx (scene_box_min st))
          (scene_points
             (axis_conversion (axis_forward scene_export)
                (axis_up scene_export))
             (box_candidates scene_export [cube; far_cube]))
        /\ reached vy (vy (scene_box_min st))
             (scene_points
                (axis_conversion (axis_forward scene_export)
                   (axis_up scene_export))
                (box_candidates scene_export [cube; far_cube]))
        /\ reached vz (vz (scene_box_min st))
             (scene_points
                (axis_conversion (axis_forward scene_export)
                   (axis_up scene_export))
                (box_candidates scene_export [cube; far_cube])))
    /\ (reached vx (vx (scene_box_max st))
          (scene_points
             (axis_conversion (axis_forward scene_export)
                (axis_up scene_export))
             (box_candidates scene_export [cube; far_cube]))
        /\ reached vy (vy (scene_box_max st))
             (scene_points
                (axis_conversion (axis_forward scene_export)
                   (axis_up scene_export))
                (box_candidates scene_export [cube; far_cube]))
        /\ reached vz (vz (scene_box_max st))
             (scene_points
                (axis_conversion (axis_forward scene_export)
                   (axis_up scene_export))
                (box_candidates scene_export [cube; far_cube]))).
Proof.
  apply (bounding_box_is_tight scene_export [cube; far_cube]).
  exists cube. split; [cbn; auto | reflexivity].
Defined.

Lemma hidden_object_ignored_witness :
  ob_visible hidden = false
  /\ get_current_bounding_box scene_export ([cube] ++ hidden :: [far_cube])
     = get_current_bounding_box scene_export ([cube] ++ [far_cube]).
Proof.
  assert (Hv : ob_visible hidden = false) by reflexivity.
  split; [exact Hv|].
  exact (hidden_object_ignored scene_export [cube] hidden [far_cube]
           (or_introl Hv)).
Defined.

Lemma bounding_box_grows_witness :
  exists st st',
    final_scene_box scene_export [cube] = Ok st
    /\ final_scene_box scene_export [far_cube; cube] = Ok st'
    /\ get_current_bounding_box scene_export [cube]
       = Ok (center_and_size st)
    /\ get_current_bounding_box scene_export [far_cube; cube]
       = Ok (center_and_size st')
    /\ vec_le (scene_box_min st') (scene_box_min st)
    /\ vec_le (scene_box_max st) (scene_box_max st').
Proof.
  apply (bounding_box_grows scene_export [cube] [far_cube; cube]).
  - intros ob [<- | []]. right. now left.
  - exists cube. split; [cbn; auto | reflexivity].
Defined.

Lemma invoke_gives_object_of_scene_witness :
  NoDup (map ob_name (scene_objects (blend rigged)))
  /\ filepath (fst (invoke scene_export EmptyString
                      (scene_objects (blend rigged))))
     <> EmptyString
  /\ (actions_object
        (fst (invoke scene_export EmptyString (scene_objects (blend rigged))))
      = EmptyString
      \/ exists o,
           lookup_object
             (actions_object
                (fst (invoke scene_export EmptyString
                        (scene_objects (blend rigged))))) rigged
           = (Ok (ob_id o), rigged)
           /\ In o (scene_objects (blend rigged))
           /\ is_animated_armature o = true).
Proof.
  assert (Hnames : NoDup (map ob_name (scene_objects (blend rigged)))).
  { cbn. repeat constructor; cbn; intuition discriminate. }
  split; [exact Hnames|].
  destruct (invoke_gives_object_of_scene scene_export EmptyString rigged)
    as [Hpath [Hnone | (o & Hlookup & Hin & Harmature)]].
  - split; [exact Hpath | left; exact Hnone].
  - split; [exact Hpath|]. right. exists o.
    split; [exact Hlookup|]. split; [exact Hin | exact (Harmature Hnames)].
Defined.

Lemma pair_of_fst {A B} (p : A * B) (a : A) : fst p = a -> p = (a, snd p).
Proof. destruct p. cbn. now intros ->. Qed.

Lemma gltf_document_embedded_witness :
  exists w',
    output_frame_gltf scene_export plain = (Ok tt, w')
    /\ output_file w' = output_file plain ++ ["{}"%string]
    /\ file_text (temp_file_name scene_export "_tmp.gltf") (blend w') = None
    /\ scene_objects (blend w')
       = scene_objects
           (snd (export_scene_gltf
                   (temp_file_name scene_export "_tmp.gltf") scene_export
                   (blend plain))).
Proof.
  apply (gltf_document_embedded scene_export plain
           (snd (export_scene_gltf
                   (temp_file_name scene_export "_tmp.gltf") scene_export
                   (blend plain))) "{}"%string).
  - reflexivity.
  - reflexivity.
Defined.

Lemma x3d_document_stripped_witness :
  exists w',
    output_frame_x3d x3d_export plain = (Ok tt, w')
    /\ output_file w'
       = output_file plain
         ++ [(EmptyString ++ EmptyString ++ "<X3D/>")%string]
    /\ file_text (temp_file_name x3d_export "_tmp.x3d") (blend w') = None.
Proof.
  apply (x3d_document_stripped x3d_export plain (blend plain)
           (snd (export_scene_x3d
                   (temp_file_name x3d_export "_tmp.x3d") x3d_export
                   (blend plain)))
           EmptyString EmptyString "<X3D/>"%string).
  - reflexivity.
  - reflexivity.
  - reflexivity.
  - reflexivity.
  - vm_compute. reflexivity.
  - reflexivity.
  - vm_compute. reflexivity.
Defined.

Lemma gltf_document_missing_witness :
  exists w',
    @output_frame_gltf lib silent scene_export plain
    = (Raise (FileNotFoundError (temp_file_name scene_export "_tmp.gltf")),
       w')
    /\ output_file w' = output_file plain
    /\ blend w' = blend plain.
Proof.
  apply (@gltf_document_missing lib silent scene_export plain (blend plain)).
  - reflexivity.
  - reflexivity.
Defined.

Lemma animation_has_one_frame_element_per_frame_witness :
  exists data,
    List.length data = List.length (Sample 0 10 (frame_skip scene_export))
    /\ output_file
         (snd (output_one_animation scene_export "walk" 0 10 plain))
       = output_file plain
         ++ animation_open "walk"
         :: flat_map
              (fun item =>
                 [frame_line (frame_time (fst item) 0)
                    (mime_type scene_export) (fst (fst (snd item)))
                    (snd (fst (snd item)));
                  snd (snd item); frame_close])
              (combine (Sample 0 10 (frame_skip scene_export)) data)
         ++ [animation_close].
Proof.
  apply (animation_has_one_frame_element_per_frame scene_export "walk" 0 10
           plain).
  apply pair_of_fst. vm_compute. reflexivity.
Defined.

Lemma scene_export_written_witness :
  exists data,
    List.length data
    = List.length (Sample (scene_frame_start (blend plain))
                     (scene_frame_end (blend plain))
                     (frame_skip scene_export))
    /\ output_file (snd (execute scene_export plain))
       = container_open
         ++ animation_block scene_export "animation"
              (scene_frame_start (blend plain))
              (scene_frame_end (blend plain)) data
         ++ [container_close].
Proof.
  apply (scene_export_written scene_export plain ["FINISHED"%string]).
  - reflexivity.
  - apply pair_of_fst. vm_compute. reflexivity.
Defined.

Lemma actions_export_written_witness :
  exists o data,
    find (fun ob => String.eqb (ob_name ob) (actions_object actions_export))
         (scene_objects (blend animated)) = Some o
    /\ actions_to_export (blend animated) (ob_id o) <> []
    /\ Forall2
         (fun action frames =>
            List.length frames
            = List.length
                (Sample (py_int (fst (frame_range action)))
                   (py_int (snd (frame_range action)))
                   (frame_skip actions_export)))
         (actions_to_export (blend animated) (ob_id o)) data
    /\ output_file (snd (execute actions_export animated))
       = container_open
         ++ action_blocks actions_export
              (actions_to_export (blend animated) (ob_id o)) data
         ++ [container_close].
Proof.
  apply (actions_export_written actions_export animated ["FINISHED"%string]).
  - vm_compute. discriminate.
  - apply pair_of_fst. vm_compute. reflexivity.
Defined.

Lemma missing_actions_object_witness :
  exists w',
    execute (operator 4 "nobody" false) plain
    = (Raise (KeyError (actions_object (operator 4 "nobody" false))), w')
    /\ output_file w' = container_open
    /\ output_closed w' = false
    /\ blend w' = blend plain
    /\ action_log w' = action_log plain.
Proof.
  apply (missing_actions_object (operator 4 "nobody" false) plain).
  - vm_compute. discriminate.
  - reflexivity.
Defined.

Lemma actions_object_without_animation_data_witness :
  exists w',
    execute (operator 4 "far" false) unanimated
    = (Raise (AttributeError "action"), w')
    /\ output_file w' = container_open
    /\ output_closed w' = false
    /\ blend w' = blend unanimated
    /\ action_log w' = action_log unanimated.
Proof.
  apply (actions_object_without_animation_data (operator 4 "far" false)
           unanimated far_cube).
  - vm_compute. discriminate.
  - reflexivity.
  - reflexivity.
  - reflexivity.
  - vm_compute. discriminate.
Defined.

Lemma second_hook_without_duplicates_witness :
  make_duplicates_real_after unchanged = (Ok tt, unchanged).
Proof.
  apply (second_hook_without_duplicates unchanged).
  - intros ob Hin. exact Hin.
  - reflexivity.
Defined.

Lemma second_hook_returns_witness :
  exists w',
    make_duplicates_real_after realized = (Ok tt, w')
    /\ object_ids (blend w')
       = filter (fun item => mem item (old_objects realized))
                (object_ids (blend realized))
    /\ len (object_ids (blend w')) = old_objects_len realized
    /\ output_file w' = output_file realized.
Proof.
  apply (@second_hook_returns lib ops realized).
  - apply simple_select_set_obeys.
  - apply simple_object_delete_obeys.
  - vm_compute. repeat constructor; cbn; intuition discriminate.
  - vm_compute. repeat constructor; cbn; intuition discriminate.
  - intros ob Hin. vm_compute in Hin. vm_compute. tauto.
  - reflexivity.
Defined.

Lemma failed_export_skips_second_hook_witness :
  exists w' center size,
    @output_frame lib (ops_with true true) duplicates_export 0 0 instanced
    = (Raise (HostError "export failed"), w')
    /\ blend w' = blend realized
    /\ old_objects w' = old_objects realized
    /\ output_file w'
       = output_file instanced
         ++ [frame_line (frame_time 0 0) (mime_type duplicates_export)
               center size].
Proof.
  apply (@failed_export_skips_second_hook lib (ops_with true true)
           duplicates_export 0 0 instanced instanced realized).
  - reflexivity.
  - reflexivity.
  - reflexivity.
  - reflexivity.
Defined.

Lemma frame_box_is_taken_after_first_hook_witness :
  exists center size rest,
    get_current_bounding_box duplicates_export
      (scene_objects (blend realized)) = Ok (center, size)
    /\ output_file (snd (output_frame duplicates_export 0 0 instanced))
       = output_file instanced
         ++ frame_line (frame_time 0 0) (mime_type duplicates_export)
              center size :: rest.
Proof.
  destruct (bounding_box_of_loop duplicates_export
              (scene_objects (blend realized))) as (st & Hbox & _).
  destruct (center_and_size st) as [center size].
  destruct (frame_box_is_taken_after_first_hook duplicates_export 0 0
              instanced instanced realized center size)
    as [rest Hrest].
  - reflexivity.
  - reflexivity.
  - exact Hbox.
  - exists center, size, rest. split; [exact Hbox | exact Hrest].
Defined.
